(** * newapi-ai-check-in: proof-of-work check-in, reward harvest and digest gate

    A shallow embedding of the check-in engine of the repository
    ([checkin_qaq_al/checkin.py], [checkin_qaq_al/main.py], [utils/get_cdk.py])
    and of the loops of its post reader ([linuxdo_read_posts.py]), together
    with the properties its specification states about it and further
    properties the code shows.

    Conventions of the embedding.
    - A Python [str] is a [string]: the bytes of its UTF-8 encoding, so that
      [.encode()] is [list_byte_of_string] and comparing two strings compares
      their code points. A [str] may hold surrogate code points ([json.loads]
      leaves a lone [\udXXX] escape as it is): such a code point is held as
      the three bytes [ED A0..BF 80..BF], which no string that [.encode()]
      accepts contains, and [.encode()] raises on it.
    - A Python [bytes] object is a [list byte].
    - Python integers are unbounded: [Z], or [N] for a counter that starts at
      zero and only grows.
    - A parsed JSON document is a [json]; a Python [dict] is an association list
      in insertion order with pairwise distinct keys.
    - [print] calls are logging only and are left out: standard output is
      taken to accept whatever is printed.
    - An exception the interpreter raises is kept as its [str(e)], since that
      is what the code puts into its results.
    - A loop of the source that has no bound is run on fuel: [None] means that
      the fuel ran out before the loop ended, never a result of the program.
    - What the engine calls and does not define (the transport, the session
      collaborator, the notifier, the wall clock) is a parameter: a field of a
      world or of a site, or an argument. The two helpers of the digest file
      are modelled from the specification, and say so. *)

From Stdlib Require Import ZArith NArith List String Ascii Bool Lia.
From Stdlib Require Import Strings.Byte Numbers.DecimalString Numbers.DecimalN.
From Stdlib Require Import Sorting.Permutation Sorting.Sorted.
Import ListNotations.

Set Warnings "-register-all".

Open Scope string_scope.
Open Scope list_scope.
Open Scope Z_scope.

(** ** Python values *)

Module Py.

(** What [json.loads] or a response decoder hands back. Numbers are integers,
    as the counts, difficulties and nonces the engine computes with are; a JSON
    number with a fraction or an exponent (a Python [float]) is left out. *)
Inductive json : Type :=
| JNull
| JBool (b : bool)
| JInt (z : Z)
| JStr (s : string)
| JList (l : list json)
| JDict (d : list (string * json)).

Definition dict := list (string * json).

(** [d.get(key)] on a dict with string keys, [None] when the key is absent. *)
Fixpoint lookup {V : Type} (key : string) (d : list (string * V)) : option V :=
  match d with
  | [] => None
  | (k, v) :: rest => if String.eqb k key then Some v else lookup key rest
  end.

(** [d.get(key, default)]. *)
Definition get (d : dict) (key : string) (default : json) : json :=
  match lookup key d with
  | Some v => v
  | None => default
  end.

(** [key in d]. *)
Definition has_key {V : Type} (key : string) (d : list (string * V)) : bool :=
  match lookup key d with
  | Some _ => true
  | None => false
  end.

(** [d[key] = v]: an existing key keeps its place, a new key goes last. *)
Fixpoint set {V : Type} (d : list (string * V)) (key : string) (v : V)
    : list (string * V) :=
  match d with
  | [] => [(key, v)]
  | (k, w) :: rest =>
      if String.eqb k key then (k, v) :: rest else (k, w) :: set rest key v
  end.

(** Truth value of an object in a condition. *)
Definition truthy (v : json) : bool :=
  match v with
  | JNull => false
  | JBool b => b
  | JInt z => negb (z =? 0)
  | JStr s => negb (String.eqb s "")
  | JList l => match l with [] => false | _ => true end
  | JDict d => match d with [] => false | _ => true end
  end.

(** The integer an object stands for in arithmetic and ordering ([bool] is a
    subclass of [int]); [None] where Python raises [TypeError]. *)
Definition as_int (v : json) : option Z :=
  match v with
  | JInt z => Some z
  | JBool b => Some (if b then 1 else 0)
  | _ => None
  end.

(** [str(n)] for a non-negative integer. *)
Definition str_of_N (n : N) : string :=
  NilZero.string_of_uint (N.to_uint n).

(** [str(z)] for an integer. *)
Definition str_of_Z (z : Z) : string :=
  if z <? 0 then ("-" ++ str_of_N (Z.to_N (- z)))%string else str_of_N (Z.to_N z).

(** [s.encode()] on a string that holds no surrogate code point; on one that
    does, [.encode()] raises (see [encode_error] below). *)
Definition encode (s : string) : list byte := list_byte_of_string s.

Definition Z_of_byte (b : byte) : Z := Z.of_N (Byte.to_N b).

Definition byte_of_Z (z : Z) : byte :=
  match Byte.of_N (Z.to_N (z mod 256)) with
  | Some b => b
  | None => x00
  end.

Definition hex_digit (z : Z) : ascii :=
  if z <? 10 then ascii_of_N (Z.to_N (48 + z)) else ascii_of_N (Z.to_N (87 + z)).

(** [b.hex()]: two lower-case digits per byte. *)
Fixpoint hex (b : list byte) : string :=
  match b with
  | [] => ""
  | x :: rest =>
      String (hex_digit (Z_of_byte x / 16))
        (String (hex_digit (Z_of_byte x mod 16)) (hex rest))
  end.

(** [s[:n]]. *)
Fixpoint take (n : nat) (s : string) : string :=
  match n, s with
  | S m, String c rest => String c (take m rest)
  | _, _ => ""
  end.

(** [s.split(sep)] for a separator of one ASCII character. *)
Fixpoint split (sep : ascii) (s : string) : list string :=
  match s with
  | EmptyString => [""]
  | String c rest =>
      if Ascii.eqb c sep then "" :: split sep rest
      else
        match split sep rest with
        | piece :: pieces => String c piece :: pieces
        | [] => [String c ""]
        end
  end.

(** The UTF-8 encoding of a code point. *)
Definition utf8 (cp : Z) : string :=
  let chr := fun z : Z => String (ascii_of_N (Z.to_N z)) "" in
  let tail := fun n : Z => chr (0x80 + Z.land (Z.shiftr cp (6 * n)) 0x3F) in
  if cp <? 0x80 then chr cp
  else if cp <? 0x800 then (chr (0xC0 + Z.shiftr cp 6) ++ tail 0)%string
  else if cp <? 0x10000 then (chr (0xE0 + Z.shiftr cp 12) ++ tail 1 ++ tail 0)%string
  else (chr (0xF0 + Z.shiftr cp 18) ++ tail 2 ++ tail 1 ++ tail 0)%string.

(** The characters [str.isspace] holds of, which [str.strip()] removes. *)
Definition whitespace : list string :=
  map utf8
    ([0x09; 0x0A; 0x0B; 0x0C; 0x0D; 0x1C; 0x1D; 0x1E; 0x1F; 0x20; 0x85; 0xA0; 0x1680]
     ++ map (fun i => 0x2000 + Z.of_nat i) (seq 0 11)
     ++ [0x2028; 0x2029; 0x202F; 0x205F; 0x3000]).

(** [s] without the prefix [p], when it starts with [p]. *)
Fixpoint without_prefix (p s : string) : option string :=
  match p, s with
  | EmptyString, _ => Some s
  | String a p', String b s' => if Ascii.eqb a b then without_prefix p' s' else None
  | String _ _, EmptyString => None
  end.

(** [s] without its first character, when that is one of [table]. *)
Definition ahead (table : list string) (s : string) : option string :=
  fold_right
    (fun w found => match without_prefix w s with Some rest => Some rest | None => found end)
    None table.

(** Drops characters of [table] from the front; every turn shortens the
    string, so its length is fuel enough. *)
Fixpoint strip_loop (table : list string) (fuel : nat) (s : string) : string :=
  match fuel with
  | O => s
  | S f =>
      match ahead table s with
      | Some rest => strip_loop table f rest
      | None => s
      end
  end.

Definition reversed (s : string) : string :=
  string_of_list_ascii (rev (list_ascii_of_string s)).

(** [s.lstrip()], [s.rstrip()] and [s.strip()]. *)
Definition lstrip (s : string) : string := strip_loop whitespace (String.length s) s.

Definition rstrip (s : string) : string :=
  reversed (strip_loop (map reversed whitespace) (String.length s) (reversed s)).

Definition strip (s : string) : string := rstrip (lstrip s).

(** [s.lower()] as far as ASCII letters go. No other character becomes one of
    the letters a, d, e, l, r, y when lowered (only U+0130 and U+212A yield an
    ASCII letter at all, i and k), so a test for ["already"] in [s.lower()] is
    a test on [lower s]. *)
Fixpoint lower (s : string) : string :=
  match s with
  | EmptyString => EmptyString
  | String c rest =>
      let n := N_of_ascii c in
      String (if (65 <=? n)%N && (n <=? 90)%N then ascii_of_N (n + 32) else c)
             (lower rest)
  end.

(** [sub in s] for strings. *)
Fixpoint contains (sub s : string) : bool :=
  if String.prefix sub s then true
  else
    match s with
    | EmptyString => false
    | String _ rest => contains sub rest
    end.

(** The name of the type of an object, as the messages of the interpreter
    show it. *)
Definition type_name (v : json) : string :=
  match v with
  | JNull => "NoneType"
  | JBool _ => "bool"
  | JInt _ => "int"
  | JStr _ => "str"
  | JList _ => "list"
  | JDict _ => "dict"
  end.

Definition quote : string := String "034"%char "".

(** [str(e)] of the exceptions the interpreter raises on an object of the
    wrong type: the [AttributeError] of [v.name], the [TypeError] of a
    comparison, of an arithmetic operation, and of [v + ":"]. *)
Definition no_attribute (v : json) (name : string) : string :=
  ("'" ++ type_name v ++ "' object has no attribute '" ++ name ++ "'")%string.

Definition not_supported (op left right : string) : string :=
  ("'" ++ op ++ "' not supported between instances of '" ++ left
   ++ "' and '" ++ right ++ "'")%string.

Definition unsupported_operand (op left right : string) : string :=
  ("unsupported operand type(s) for " ++ op ++ ": '" ++ left
   ++ "' and '" ++ right ++ "'")%string.

Definition concat_error (v : json) : string :=
  match v with
  | JList _ =>
      ("can only concatenate list (not " ++ quote ++ "str" ++ quote ++ ") to list")%string
  | _ => unsupported_operand "+" (type_name v) "str"
  end.

(** [str(e)] of the [OverflowError] of [n / d] on integers. The quotient is
    rounded to the nearest float, so it is too large from
    [2^1024 - 2^970] on. *)
Definition division_overflows (n d : Z) : bool :=
  (2 ^ 1024 - 2 ^ 970) * Z.abs d <=? Z.abs n.

Definition overflow_error : string := "integer division result too large for a float".

(** The surrogate code point a string starts with, and what follows it. *)
Definition surrogate_ahead (s : string) : option (Z * string) :=
  match s with
  | String a (String b (String c rest)) =>
      if (N_of_ascii a =? 0xED)%N && (0xA0 <=? N_of_ascii b)%N
      then Some (0xD000 + 64 * Z.land (Z.of_N (N_of_ascii b)) 0x3F
                 + Z.land (Z.of_N (N_of_ascii c)) 0x3F, rest)
      else None
  | _ => None
  end.

(** The number of surrogates in a row at the front of a string. *)
Fixpoint surrogate_run (fuel : nat) (s : string) : N :=
  match fuel with
  | O => 0
  | S f =>
      match surrogate_ahead s with
      | Some (_, rest) => 1 + surrogate_run f rest
      | None => 0
      end
  end.

Definition surrogate_escape (cp : Z) : string :=
  ("\u" ++ String (hex_digit (Z.shiftr cp 12 mod 16))
            (String (hex_digit (Z.shiftr cp 8 mod 16))
               (String (hex_digit (Z.shiftr cp 4 mod 16))
                  (String (hex_digit (cp mod 16)) ""))))%string.

(** [str(e)] of the [UnicodeEncodeError] [s.encode()] raises, [None] when it
    raises none: the codec stops at the first surrogate, at [position] code
    points from the start of the string, and reports the surrogates that
    follow it in a row along with it. *)
Fixpoint encode_error_from (s : string) (position : N) : option string :=
  match s with
  | EmptyString => None
  | String a rest =>
      match surrogate_ahead (String a rest) with
      | Some (cp, after) =>
          let run := (1 + surrogate_run (String.length after) after)%N in
          Some (if (run =? 1)%N
                then ("'utf-8' codec can't encode character '" ++ surrogate_escape cp
                      ++ "' in position " ++ str_of_N position
                      ++ ": surrogates not allowed")%string
                else ("'utf-8' codec can't encode characters in position "
                      ++ str_of_N position ++ "-" ++ str_of_N (position + run - 1)
                      ++ ": surrogates not allowed")%string)
      | None =>
          encode_error_from rest
            (if (0x80 <=? N_of_ascii a)%N && (N_of_ascii a <=? 0xBF)%N
             then position else (position + 1)%N)
      end
  end.

Definition encode_error (s : string) : option string := encode_error_from s 0.

End Py.

(** ** SHA-256 ([hashlib.sha256]), after FIPS 180-4 *)

Module SHA256.

Definition mask32 : Z := 0xFFFFFFFF.
Definition add32 (x y : Z) : Z := Z.land (x + y) mask32.
Definition rotr (n x : Z) : Z :=
  Z.lor (Z.shiftr x n) (Z.land (Z.shiftl x (32 - n)) mask32).
Definition not32 (x : Z) : Z := Z.lxor x mask32.

Definition Ch (x y z : Z) : Z := Z.lxor (Z.land x y) (Z.land (not32 x) z).
Definition Maj (x y z : Z) : Z :=
  Z.lxor (Z.lxor (Z.land x y) (Z.land x z)) (Z.land y z).
Definition bsig0 (x : Z) : Z := Z.lxor (Z.lxor (rotr 2 x) (rotr 13 x)) (rotr 22 x).
Definition bsig1 (x : Z) : Z := Z.lxor (Z.lxor (rotr 6 x) (rotr 11 x)) (rotr 25 x).
Definition ssig0 (x : Z) : Z := Z.lxor (Z.lxor (rotr 7 x) (rotr 18 x)) (Z.shiftr x 3).
Definition ssig1 (x : Z) : Z := Z.lxor (Z.lxor (rotr 17 x) (rotr 19 x)) (Z.shiftr x 10).

(** Integer cube root by bisection, to derive the round constants. *)
Fixpoint icbrt_search (fuel : nat) (lo hi x : Z) : Z :=
  match fuel with
  | O => lo
  | S f =>
      if hi - lo <=? 1 then lo
      else let mid := (lo + hi) / 2 in
           if mid * mid * mid <=? x then icbrt_search f mid hi x
           else icbrt_search f lo mid x
  end.

Fixpoint isqrt_search (fuel : nat) (lo hi x : Z) : Z :=
  match fuel with
  | O => lo
  | S f =>
      if hi - lo <=? 1 then lo
      else let mid := (lo + hi) / 2 in
           if mid * mid <=? x then isqrt_search f mid hi x
           else isqrt_search f lo mid x
  end.

Definition primes64 : list Z :=
  [2; 3; 5; 7; 11; 13; 17; 19; 23; 29; 31; 37; 41; 43; 47; 53;
   59; 61; 67; 71; 73; 79; 83; 89; 97; 101; 103; 107; 109; 113; 127; 131;
   137; 139; 149; 151; 157; 163; 167; 173; 179; 181; 191; 193; 197; 199; 211; 223;
   227; 229; 233; 239; 241; 251; 257; 263; 269; 271; 277; 281; 283; 293; 307; 311].

(** The first 32 bits of the fractional part of the cube root of a prime. *)
Definition frac_cbrt32 (p : Z) : Z :=
  Z.land (icbrt_search 64 0 (2 ^ 36) (p * 2 ^ 96)) mask32.

(** The first 32 bits of the fractional part of the square root of a prime. *)
Definition frac_sqrt32 (p : Z) : Z :=
  Z.land (isqrt_search 64 0 (2 ^ 36) (p * 2 ^ 64)) mask32.

Definition K : list Z := Eval vm_compute in map frac_cbrt32 primes64.

Record state : Type := State
  { h0 : Z; h1 : Z; h2 : Z; h3 : Z; h4 : Z; h5 : Z; h6 : Z; h7 : Z }.

Definition H_init : state :=
  Eval vm_compute in
    State (frac_sqrt32 2) (frac_sqrt32 3) (frac_sqrt32 5) (frac_sqrt32 7)
          (frac_sqrt32 11) (frac_sqrt32 13) (frac_sqrt32 17) (frac_sqrt32 19).

(** Padding: a 1 bit, zeros up to 448 mod 512, the bit length on 64 bits. *)
Definition be_bytes (width : nat) (x : Z) : list Z :=
  map (fun i => Z.land (Z.shiftr x (8 * Z.of_nat i)) 255) (rev (seq 0 width)).

Definition pad (msg : list Z) : list Z :=
  let len := Z.of_nat (List.length msg) in
  msg ++ [128] ++ repeat 0 (Z.to_nat ((55 - len) mod 64)) ++ be_bytes 8 (8 * len).

Fixpoint chunks (fuel : nat) (size : nat) (l : list Z) : list (list Z) :=
  match fuel, l with
  | S f, _ :: _ => firstn size l :: chunks f size (skipn size l)
  | _, _ => []
  end.

Definition word_of_bytes (b : list Z) : Z :=
  fold_left (fun acc x => Z.lor (Z.shiftl acc 8) x) b 0.

(** The message schedule, newest word first. *)
Fixpoint extend (n : nat) (w : list Z) : list Z :=
  match n with
  | O => w
  | S m =>
      let x := add32 (add32 (ssig1 (nth 1 w 0)) (nth 6 w 0))
                     (add32 (ssig0 (nth 14 w 0)) (nth 15 w 0)) in
      extend m (x :: w)
  end.

Definition schedule (block : list Z) : list Z :=
  rev (extend 48 (rev (map word_of_bytes (chunks 16 4 block)))).

Definition round (s : state) (kw : Z * Z) : state :=
  let t1 := add32 (add32 (add32 (h7 s) (bsig1 (h4 s)))
                         (add32 (Ch (h4 s) (h5 s) (h6 s)) (fst kw))) (snd kw) in
  let t2 := add32 (bsig0 (h0 s)) (Maj (h0 s) (h1 s) (h2 s)) in
  State (add32 t1 t2) (h0 s) (h1 s) (h2 s) (add32 (h3 s) t1) (h4 s) (h5 s) (h6 s).

Definition compress (s : state) (block : list Z) : state :=
  let r := fold_left round (combine K (schedule block)) s in
  State (add32 (h0 s) (h0 r)) (add32 (h1 s) (h1 r)) (add32 (h2 s) (h2 r))
        (add32 (h3 s) (h3 r)) (add32 (h4 s) (h4 r)) (add32 (h5 s) (h5 r))
        (add32 (h6 s) (h6 r)) (add32 (h7 s) (h7 r)).

Definition word_bytes (w : Z) : list byte :=
  [Py.byte_of_Z (Z.shiftr w 24); Py.byte_of_Z (Z.shiftr w 16);
   Py.byte_of_Z (Z.shiftr w 8); Py.byte_of_Z w].

Definition output (s : state) : list byte :=
  word_bytes (h0 s) ++ word_bytes (h1 s) ++ word_bytes (h2 s) ++ word_bytes (h3 s)
  ++ word_bytes (h4 s) ++ word_bytes (h5 s) ++ word_bytes (h6 s) ++ word_bytes (h7 s).

(** [hashlib.sha256(msg).digest()]. *)
Definition digest (msg : list byte) : list byte :=
  let padded := pad (map Py.Z_of_byte msg) in
  output (fold_left compress (chunks (List.length padded) 64 padded) H_init).

(** [hashlib.sha256(msg).hexdigest()]. *)
Definition hexdigest (msg : list byte) : string := Py.hex (digest msg).

End SHA256.

(** ** The proof-of-work solver ([checkin.py]) *)

Module Pow.

(** The inner [while (b & 0x80) == 0 and count < 256] of
    [count_leading_zero_bits]. Each turn adds one to [count], so the guard
    [count < 256] bounds the turns by [256 - count]: that is the fuel. *)
Fixpoint shift_loop (fuel : nat) (b count : Z) : Z :=
  match fuel with
  | O => count
  | S f =>
      if (Z.land b 0x80 =? 0) && (count <? 256)
      then shift_loop f (Z.shiftl b 1) (count + 1)
      else count
  end.

(** The [for byte in hash_bytes] loop, [count] being the running total. *)
Fixpoint count_from (hash_bytes : list byte) (count : Z) : Z :=
  match hash_bytes with
  | [] => count
  | byte :: rest =>
      if Py.Z_of_byte byte =? 0 then count_from rest (count + 8)
      else shift_loop (Z.to_nat (256 - count)) (Py.Z_of_byte byte) count
  end.

Definition count_leading_zero_bits (hash_bytes : list byte) : Z :=
  count_from hash_bytes 0.

(** The dict [calculate_nonce] returns. [elapsed] (tenths of a second) and
    [hps] are read off the wall clock. *)
Record SolveResult : Type := mkSolveResult
  { nonce : N; leading : Z; hash : string; elapsed : Z; hps : Z }.

(** What the wall clock yields when the search stops at a nonce:
    [round(elapsed, 1)] in tenths of a second, and the rate. *)
Definition Clock : Type := N -> Z * Z.

(** The [while True] loop of [calculate_nonce], entered with [nonce]. *)
Fixpoint search (fuel : nat) (clock : Clock) (challenge_prefix : list byte)
    (difficulty : Z) (nonce : N) : option SolveResult :=
  match fuel with
  | O => None
  | S f =>
      let hash_bytes :=
        SHA256.digest (challenge_prefix ++ Py.encode (Py.str_of_N nonce)) in
      let leading := count_leading_zero_bits hash_bytes in
      if difficulty <=? leading then
        Some (mkSolveResult nonce leading (Py.hex hash_bytes)
                (fst (clock nonce)) (snd (clock nonce)))
      else search f clock challenge_prefix difficulty (nonce + 1)
  end.

(** How a call of [calculate_nonce] that ends has ended: with the dict it
    returns, or with an exception, of which [msg] is the [str(e)]. *)
Inductive answer : Type :=
| Solved (result : SolveResult)
| Threw (msg : string).

(** [calculate_nonce] on a string and an integer. [(challenge + ":").encode()]
    raises [UnicodeEncodeError] on a challenge that holds a surrogate, before
    the first hash. *)
Definition calculate_nonce (fuel : nat) (clock : Clock) (challenge : string)
    (difficulty : Z) : option answer :=
  match Py.encode_error (challenge ++ ":")%string with
  | Some msg => Some (Threw msg)
  | None =>
      match search fuel clock (Py.encode (challenge ++ ":")%string) difficulty 0 with
      | Some result => Some (Solved result)
      | None => None
      end
  end.

Definition BENCH_ROUNDS : nat := 3.

(** [sorted(samples)] on integers. *)
Fixpoint insert_sample (x : Z) (data : list Z) : list Z :=
  match data with
  | [] => [x]
  | y :: rest => if x <=? y then x :: y :: rest else y :: insert_sample x rest
  end.

Definition sorted (samples : list Z) : list Z := fold_right insert_sample [] samples.

(** [round(statistics.median(samples))] on integers: the middle element of the
    sorted data when their number is odd; the mean of the two middle ones
    otherwise, a half going to the even neighbour (the mean is a float there,
    exact below 2^53). [None] stands for the [StatisticsError] on no data. *)
Definition median (samples : list Z) : option Z :=
  let data := sorted samples in
  let n := List.length data in
  match n with
  | O => None
  | _ =>
      if Nat.odd n then Some (nth (n / 2) data 0)
      else
        let total := nth (n / 2 - 1) data 0 + nth (n / 2) data 0 in
        Some (if Z.even total then total / 2
              else if Z.even (total / 2) then total / 2 else total / 2 + 1)
  end.

(** [benchmark_hps]: [rate i] is the sample of round [i], the
    [round(nonce / elapsed)] (or 0) the wall clock leaves it with. *)
Definition benchmark_hps (rate : nat -> Z) : option Z :=
  median (map rate (seq 0 BENCH_ROUNDS)).

End Pow.

(** ** The check-in protocol client ([checkin.py], class [CheckIn]) *)

Module CheckIn.

Import Py.

(** A [curl_requests.Session] as the client configures it. *)
Record Session : Type := mkSession
  { impersonate : string;
    cookies : list (string * string);
    headers : list (string * string) }.

(** The three requests of the protocol, with what the client puts in them. *)
Inductive request : Type :=
| GetMe
| GetChallenge (tier hps : Z)
| PostSubmit (challenge_id : json) (nonce : N) (tier : Z).

(** What a request followed by [response_resolve] comes to: an exception, or
    the decoded body ([JNull] for Python's [None]). *)
Inductive reply : Type :=
| Raises (msg : string)
| Resolved (data : json).

(** The collaborators of one account's run. [get_cf_clearance],
    [get_curl_cffi_impersonate], [proxy_resolve] and the transport are not part
    of the engine: a world fixes how they behave while the account is processed.
    An [option string] is the message of the exception a call raises, if any:
    [proxy_resolve_error] in the constructor of [CheckIn], [session_error] while
    the session is built, [close_error] in [session.close()]. *)
Record World : Type := mkWorld
  { proxy_resolve_error : option string;
    get_cf_clearance :
      string -> string + (option (list (string * string))
                          * option (list (string * string)));
    get_curl_cffi_impersonate : string -> string;
    session_error : option string;
    send : Session -> request -> reply;
    close_error : option string;
    benchmark_hps : Z;
    clock : Pow.Clock }.

(** What the run of one account does, in order. *)
Inductive event : Type :=
| AcquireSession
| OpenSession (s : Session)
| Sent (r : request)
| Benchmark
| Solve (challenge difficulty : json)
| CloseSession.

(** [_get_cf_clearance]: an exception of the collaborator becomes
    [(None, None)]. *)
Definition _get_cf_clearance (w : World) (account_name : string)
    : option (list (string * string)) * option (list (string * string)) :=
  match get_cf_clearance w account_name with
  | inl _ => (None, None)
  | inr r => r
  end.

Definition nonempty {A : Type} (o : option (list A)) : bool :=
  match o with
  | Some (_ :: _) => true
  | _ => false
  end.

(** [_build_session], without the call of the [Session] constructor. *)
Definition _build_session (w : World) (sid : string)
    (cf_cookies browser_headers : option (list (string * string))) : Session :=
  let impersonate :=
    match browser_headers with
    | Some h =>
        match lookup "User-Agent" h with
        | Some ua =>
            if nonempty browser_headers && negb (String.eqb ua "")
            then get_curl_cffi_impersonate w ua else "chrome"
        | None => "chrome"
        end
    | None => "chrome"
    end in
  let jar := set [] "sid" sid in
  let jar :=
    match cf_cookies with
    | Some c => fold_left (fun j nv => set j (fst nv) (snd nv)) c jar
    | None => jar
    end in
  let hdrs :=
    match browser_headers with
    | Some h => fold_left (fun j nv => set j (fst nv) (snd nv)) h []
    | None => []
    end in
  mkSession impersonate jar hdrs.

(** [_check_me]: the decoded body when it is an object with a ["user"] entry,
    [None] otherwise. Every exception is caught inside: [user.get] on a user
    that is not an object, [today.get] on a [todaySignin] that is not an object,
    and the membership test or [.get] on a body that is not an object all end
    in [return None]. *)
Definition _check_me (w : World) (session : Session) : option dict :=
  match send w session GetMe with
  | Raises _ => None
  | Resolved (JDict data) =>
      if truthy (JDict data) && has_key "user" data then
        match lookup "user" data with
        | Some (JDict user) =>
            if truthy (get data "signedInToday" JNull) then
              match get data "todaySignin" (JDict []) with
              | JDict today => Some data
              | _ => None
              end
            else Some data
        | _ => None
        end
      else None
  | Resolved _ => None
  end.

(** [_get_challenge]: the decoded body when it is an object with ["challenge"],
    ["challengeId"] and ["difficulty"] entries (the last two are read when the
    success line is printed, a [KeyError] there is caught). *)
Definition _get_challenge (w : World) (session : Session) (tier hps : Z)
    : option dict :=
  match send w session (GetChallenge tier hps) with
  | Raises _ => None
  | Resolved (JDict data) =>
      if truthy (JDict data) && has_key "challenge" data then
        if has_key "challengeId" data && has_key "difficulty" data
        then Some data else None
      else None
  | Resolved _ => None
  end.

(** [_submit]: the decoded body when it is an object with ["rewardFinal"]. *)
Definition _submit (w : World) (session : Session) (challenge_id : json)
    (nonce : N) (tier : Z) : option dict :=
  match send w session (PostSubmit challenge_id nonce tier) with
  | Raises _ => None
  | Resolved (JDict data) =>
      if truthy (JDict data) && has_key "rewardFinal" data then Some data else None
  | Resolved _ => None
  end.

(** How [execute] ends: the pair it returns, or an exception that leaves it. *)
Inductive outcome : Type :=
| Returned (success : bool) (result : dict)
| Raised (msg : string).

Definition failure (text : string) : outcome :=
  Returned false [("error", JStr text)].

(** [calculate_nonce(challenge, difficulty)] on what the challenge response
    holds, whatever its types. On a challenge that is not a string
    [challenge + ":"] raises [TypeError]; on a string, [.encode()] may raise;
    on a difficulty that is not a number [leading >= difficulty] raises
    [TypeError] once the first hash is taken. *)
Definition solve (fuel : nat) (clock : Pow.Clock) (challenge difficulty : json)
    : option Pow.answer :=
  match challenge with
  | JStr prefix =>
      match as_int difficulty with
      | Some bits => Pow.calculate_nonce fuel clock prefix bits
      | None =>
          match encode_error (prefix ++ ":")%string with
          | Some msg => Some (Pow.Threw msg)
          | None => Some (Pow.Threw (not_supported ">=" "int" (type_name difficulty)))
          end
      end
  | _ => Some (Pow.Threw (concat_error challenge))
  end.

(** The body of the [try] of [execute], from the status check on. The [except]
    of [execute] turns an exception into a failure that carries its [str(e)].
    [pow_elapsed] is kept in tenths of a second. *)
Definition protocol (fuel : nat) (w : World) (session : Session) (tier : Z)
    : option (list event * outcome) :=
  match _check_me w session with
  | None =>
      Some ([Sent GetMe], failure "获取用户信息失败，可能 cf_clearance 无效")
  | Some me_data =>
      if truthy (get me_data "signedInToday" JNull) then
        match get me_data "todaySignin" (JDict []) with
        | JDict today =>
            Some ([Sent GetMe],
                  Returned true
                    [("reward_final", get today "reward_final" (JStr "0"));
                     ("tier_name", get today "tier_name" (JStr ""));
                     ("already_signed", JBool true)])
        | today =>
            Some ([Sent GetMe],
                  failure ("签到流程异常: " ++ no_attribute today "get")%string)
        end
      else
        let hps := benchmark_hps w in
        match _get_challenge w session tier hps with
        | None =>
            Some ([Sent GetMe; Benchmark; Sent (GetChallenge tier hps)],
                  failure "获取挑战失败")
        | Some challenge_data =>
            let challenge := get challenge_data "challenge" JNull in
            let difficulty := get challenge_data "difficulty" JNull in
            let called :=
              [Sent GetMe; Benchmark; Sent (GetChallenge tier hps);
               Solve challenge difficulty] in
            match solve fuel (clock w) challenge difficulty with
            | None => None
            | Some (Pow.Threw msg) =>
                Some (called, failure ("签到流程异常: " ++ msg)%string)
            | Some (Pow.Solved result) =>
                let challenge_id := get challenge_data "challengeId" JNull in
                let trace :=
                  called ++ [Sent (PostSubmit challenge_id (Pow.nonce result) tier)] in
                match _submit w session challenge_id (Pow.nonce result) tier with
                | None => Some (trace, failure "提交签到失败")
                | Some submit_data =>
                    Some (trace,
                      Returned true
                        [("reward_final", get submit_data "rewardFinal" (JStr "0"));
                         ("reward_base", get submit_data "rewardBase" (JStr "0"));
                         ("multiplier", get submit_data "multiplier" (JStr "1"));
                         ("tier_name", get submit_data "tierName" (JStr ""));
                         ("notes", get submit_data "notes" (JStr ""));
                         ("pow_elapsed", JInt (Pow.elapsed result));
                         ("pow_hps", JInt (Pow.hps result))])
                end
            end
        end
  end.

(** The session [execute] works with: the clearance is asked for once, and
    whatever comes back goes into [_build_session]. *)
Definition session_of (w : World) (account_name sid : string) : Session :=
  let '(cf_cookies, browser_headers) := _get_cf_clearance w account_name in
  _build_session w sid cf_cookies browser_headers.

(** [execute]: acquire the clearance, build the session, run the protocol,
    close the session in the [finally]. An exception raised while the session
    is built leaves [execute] at once (the call stands before the [try]); one
    of [close] replaces the result. *)
Definition execute (fuel : nat) (w : World) (account_name sid : string) (tier : Z)
    : option (list event * outcome) :=
  let session := session_of w account_name sid in
  match session_error w with
  | Some msg => Some ([AcquireSession; OpenSession session], Raised msg)
  | None =>
      match protocol fuel w session tier with
      | None => None
      | Some (trace, out) =>
          Some (AcquireSession :: OpenSession session :: trace ++ [CloseSession],
                match close_error w with
                | Some msg => Raised msg
                | None => out
                end)
      end
  end.

End CheckIn.

(** ** [json.dumps(..., sort_keys=True, separators=(",", ":"))] *)

Module Json.

Import Py.

Definition dquote : string := String "034"%char "".

Definition hex4 (n : Z) : string :=
  String (hex_digit (Z.shiftr n 12 mod 16))
    (String (hex_digit (Z.shiftr n 8 mod 16))
       (String (hex_digit (Z.shiftr n 4 mod 16))
          (String (hex_digit (n mod 16)) ""))).

(** The code points of a UTF-8 byte sequence; [acc] and [need] hold a sequence
    that is under way. *)
Fixpoint code_points (l : list Z) (acc : Z) (need : nat) : list Z :=
  match l with
  | [] => []
  | b :: rest =>
      match need with
      | O =>
          if b <? 0x80 then b :: code_points rest 0 0
          else if b <? 0xE0 then code_points rest (Z.land b 0x1F) 1
          else if b <? 0xF0 then code_points rest (Z.land b 0x0F) 2
          else code_points rest (Z.land b 0x07) 3
      | S O => Z.lor (Z.shiftl acc 6) (Z.land b 0x3F) :: code_points rest 0 0
      | S n => code_points rest (Z.lor (Z.shiftl acc 6) (Z.land b 0x3F)) n
      end
  end.

(** One character of a string literal under [ensure_ascii=True]. *)
Definition escape (cp : Z) : string :=
  if cp =? 34 then ("\" ++ dquote)%string
  else if cp =? 92 then "\\"
  else if cp =? 8 then "\b"
  else if cp =? 12 then "\f"
  else if cp =? 10 then "\n"
  else if cp =? 13 then "\r"
  else if cp =? 9 then "\t"
  else if (32 <=? cp) && (cp <=? 126) then String (ascii_of_N (Z.to_N cp)) ""
  else if cp <? 0x10000 then ("\u" ++ hex4 cp)%string
  else
    let n := cp - 0x10000 in
    ("\u" ++ hex4 (Z.lor 0xD800 (Z.land (Z.shiftr n 10) 0x3FF))
     ++ "\u" ++ hex4 (Z.lor 0xDC00 (Z.land n 0x3FF)))%string.

(** [json.encoder.encode_basestring_ascii]. *)
Definition encode_basestring_ascii (s : string) : string :=
  (dquote
   ++ String.concat "" (map escape (code_points (map Z_of_byte (encode s)) 0 0))
   ++ dquote)%string.

(** [sorted(d.items())], as a stable insertion sort on the keys: the keys of a
    dict are pairwise distinct, so the values are never compared. *)
Fixpoint insert_item {V : Type} (x : string * V) (l : list (string * V))
    : list (string * V) :=
  match l with
  | [] => [x]
  | y :: rest =>
      if String.leb (fst x) (fst y) then x :: y :: rest
      else y :: insert_item x rest
  end.

Definition sort_items {V : Type} (l : list (string * V)) : list (string * V) :=
  fold_right insert_item [] l.

(** One ["key":value] member, the value already serialised. *)
Definition member (kv : string * string) : string :=
  (encode_basestring_ascii (fst kv) ++ ":" ++ snd kv)%string.

Definition object_text (members : list (string * string)) : string :=
  ("{" ++ String.concat "," (map member (sort_items members)) ++ "}")%string.

Fixpoint dumps (v : json) : string :=
  match v with
  | JNull => "null"
  | JBool true => "true"
  | JBool false => "false"
  | JInt z => str_of_Z z
  | JStr s => encode_basestring_ascii s
  | JList l => ("[" ++ String.concat "," (map dumps l) ++ "]")%string
  | JDict d => object_text (map (fun kv => let '(k, x) := kv in (k, dumps x)) d)
  end.

End Json.

(** ** The orchestrator and the digest gate ([main.py]) *)

Module Main.

Import Py.

(** [generate_checkin_hash]. [results] maps an account name to the result dict
    of its successful check-in. *)
Definition rewards_of (results : list (string * dict)) : dict :=
  fold_left
    (fun rewards ki =>
       let '(key, info) := ki in
       if truthy (JDict info)
       then set rewards key (get info "reward_final" (JStr "0"))
       else rewards)
    results [].

Definition generate_checkin_hash (results : list (string * dict)) : string :=
  match results with
  | [] => ""
  | _ =>
      let rewards := rewards_of results in
      let data := Json.dumps (JDict rewards) in
      take 16 (SHA256.hexdigest (encode data))
  end.

(** One entry of [notification_content]. The text of an entry is an f-string
    over the fields kept here; an [ExceptionLine] shows the first 100
    characters of its message. *)
Inductive line : Type :=
| Separator
| AlreadySignedLine (account_name : string) (reward_final tier_name : json)
| RewardLine (account_name : string)
    (reward_final tier_name pow_elapsed pow_hps : json)
| FailureLine (account_name : string) (error_msg : json)
| ExceptionLine (account_name : string) (text : string).

(** The variables the account loop of [main] updates. *)
Record state : Type := mkState
  { success_count : Z;
    notification_content : list line;
    current_info : list (string * dict) }.

Definition initial : state := mkState 0 [] [].

Definition push (st : state) (l : line) : state :=
  mkState (success_count st) (notification_content st ++ [l]) (current_info st).

(** The part of the loop body under [try], for account [account_name]:
    [CheckIn(...)], [execute], and the bookkeeping on its result. *)
Definition attempt (fuel : nat) (w : CheckIn.World) (tier : Z)
    (account_name sid : string) (st : state) : option state :=
  match CheckIn.proxy_resolve_error w with
  | Some msg => Some (push st (ExceptionLine account_name msg))
  | None =>
      match CheckIn.execute fuel w account_name sid tier with
      | None => None
      | Some (_, CheckIn.Raised msg) =>
          Some (push st (ExceptionLine account_name msg))
      | Some (_, CheckIn.Returned true result) =>
          let st :=
            mkState (success_count st + 1) (notification_content st)
              (set (current_info st) account_name result) in
          if truthy (get result "already_signed" JNull) then
            Some (push st (AlreadySignedLine account_name
                             (get result "reward_final" (JStr "?"))
                             (get result "tier_name" (JStr ""))))
          else
            Some (push st (RewardLine account_name
                             (get result "reward_final" (JStr "?"))
                             (get result "tier_name" (JStr ""))
                             (get result "pow_elapsed" (JStr "?"))
                             (get result "pow_hps" (JInt 0))))
      | Some (_, CheckIn.Returned false result) =>
          Some (push st (FailureLine account_name
                           (if truthy (JDict result)
                            then get result "error" (JStr "未知错误")
                            else JStr "未知错误")))
      end
  end.

(** [f"account_{i + 1}"]. *)
Definition account_name_of (i : nat) : string :=
  ("account_" ++ str_of_N (N.of_nat (i + 1)))%string.

(** One turn of [for i, sid in enumerate(sids)]. *)
Definition turn (fuel : nat) (worlds : nat -> CheckIn.World) (tier : Z)
    (st : state) (i : nat) (sid : string) : option state :=
  let st :=
    match notification_content st with
    | [] => st
    | _ => push st Separator
    end in
  attempt fuel (worlds i) tier (account_name_of i) sid st.

(** The loop, entered at index [i]. *)
Fixpoint accounts_loop (fuel : nat) (worlds : nat -> CheckIn.World) (tier : Z)
    (st : state) (i : nat) (sids : list string) : option state :=
  match sids with
  | [] => Some st
  | sid :: rest =>
      match turn fuel worlds tier st i sid with
      | None => None
      | Some st' => accounts_loop fuel worlds tier st' (S i) rest
      end
  end.

(** Modelled from the spec: the persistence collaborator
    ([utils/balance_hash.py] is not among the sources), [loadDigest(key) ->
    string?] and [saveDigest(key, value) -> void], over a file that holds at
    most one digest. *)
Definition digest_file : Type := option string.

Definition load_balance_hash (file : digest_file) : option string := file.

Definition save_balance_hash (file : digest_file) (value : string) : digest_file :=
  Some value.

(** How [main] ends: [return 1] without accounts, [sys.exit(code)], or an
    exception that leaves it (for [run_main] to report). *)
Inductive ending : Type :=
| Return1
| Exit (code : Z)
| Escaped (msg : string).

(** What is left of a run of [main]: the loop variables, the digest, the title
    of the notification pushed (if any), the digest handed to
    [save_balance_hash] (if it was called), the digest file afterwards, and the
    ending. *)
Record run : Type := mkRun
  { final : state;
    total_count : Z;
    current_hash : string;
    pushed : option string;
    saved : option string;
    stored : digest_file;
    ended : ending }.

(** [main], from the loaded sids on. [push_error] is the exception
    [notify.push_message] raises, if any; an exception there leaves [main]
    before the digest is saved and before [sys.exit]. *)
Definition main (fuel : nat) (worlds : nat -> CheckIn.World) (tier : Z)
    (push_error : option string) (file : digest_file) (sids : list string)
    : option run :=
  match sids with
  | [] => Some (mkRun initial 0 "" None None file Return1)
  | _ =>
      let last_hash := load_balance_hash file in
      match accounts_loop fuel worlds tier initial 0 sids with
      | None => None
      | Some st =>
          let total := Z.of_nat (List.length sids) in
          let h := generate_checkin_hash (current_info st) in
          let need_notify :=
            match last_hash with
            | None => true
            | Some l => if String.eqb l "" then true else negb (String.eqb h l)
            end in
          let notifies :=
            need_notify && match notification_content st with [] => false | _ => true end in
          let title :=
            if success_count st =? total then "qaq.al 签到成功" else "qaq.al 签到告警" in
          match (if notifies then push_error else None) with
          | Some msg => Some (mkRun st total h None None file (Escaped msg))
          | None =>
              Some (mkRun st total h
                      (if notifies then Some title else None)
                      (if String.eqb h "" then None else Some h)
                      (if String.eqb h "" then file else save_balance_hash file h)
                      (Exit (if 0 <? success_count st then 0 else 1)))
          end
      end
  end.

(** [load_accounts]. [env] is [os.getenv("ACCOUNTS_QAQ_AL")] and [loads] is
    [json.loads], [None] where it raises. A text that starts with a bracket is
    read as a JSON array, any other as sids separated by commas; the function
    returns [None] from every [return None] and from the [except]. *)
Definition load_accounts (loads : string -> option json) (env : option string)
    : option (list json) :=
  match env with
  | None => None
  | Some sids_str =>
      if String.eqb sids_str "" then None
      else
        let sids : option (list json) :=
          if String.prefix "[" sids_str then
            match loads sids_str with
            | Some (JList l) => Some l
            | _ => None
            end
          else
            Some (map JStr
                    (filter (fun s => negb (String.eqb s ""))
                       (map strip (split ","%char sids_str)))) in
        match sids with
        | None => None
        | Some sids =>
            match filter truthy sids with
            | [] => None
            | valid => Some valid
            end
        end
  end.

(** [run_main] under [if __name__ == "__main__"]: the exit status of the
    process. [asyncio.run] hands back what [main] returns and [run_main] drops
    it; the [SystemExit] of [sys.exit] passes both [except] clauses; any other
    exception ends in [sys.exit(1)]. (A [KeyboardInterrupt] is left out.) *)
Definition run_main (fuel : nat) (worlds : nat -> CheckIn.World) (tier : Z)
    (push_error : option string) (file : digest_file) (sids : list string)
    : option Z :=
  match main fuel worlds tier push_error file sids with
  | None => None
  | Some r =>
      Some (match ended r with
            | Return1 => 0
            | Exit code => code
            | Escaped _ => 1
            end)
  end.

End Main.

(** ** Reward harvest ([utils/get_cdk.py]) *)

Module Cdk.

Import Py.

(** Why a generator yields [(False, {"error": text})]; the text is an f-string
    over the field kept here.
    - [NoCookies]: "get_cdk_cookies not found in account config"
    - [Crashed e]: "Error getting runawaytime CDK - e" / "Error getting b4u CDK - e"
    - [ClearanceCrashed e]: "Failed to get cf_clearance: e"
    - [NoClearance]: "Failed to get cf_clearance for tw.b4u.qzz.io"
    - [DrawRefused m]: "Luckydraw failed - m"
    - [DrawHttp c]: "Luckydraw failed - HTTP c" *)
Inductive failure : Type :=
| NoCookies
| Crashed (msg : string)
| ClearanceCrashed (msg : string)
| NoClearance
| DrawRefused (message : json)
| DrawHttp (status : Z).

(** What a generator yields: [(True, {"code": code})] or a failure. *)
Inductive item : Type :=
| Code (code : json)
| Error (f : failure).

Inductive call : Type :=
| CheckinStatus
| Checkin
| WheelStatus
| Wheel
| Clearance
| DrawStatus
| Draw
| Close.

(** What a generator does, in order: the requests it sends and the items it
    hands to its consumer. ([spin_count] and [draw_count] only feed the lines
    printed and are left out.) The account configuration and the helpers
    [proxy_resolve] and [get_curl_cffi_impersonate], which a generator reads
    and calls before its outer [try], are not part of these sources: they are
    taken to return, and what they return only goes into the session. *)
Inductive event : Type :=
| Call (c : call)
| Yield (it : item).

(** A request raises, or answers with a status code and a body. *)
Inductive reply (B : Type) : Type :=
| Raises (msg : string)
| Http (status : Z) (body : B).
Arguments Raises {B} msg.
Arguments Http {B} status body.

(** How a stretch of a generator's body ends: normally, or by an exception on
    its way to the outer [except Exception], of which [msg] is the [str(e)]. *)
Inductive stop : Type :=
| Done
| Fault (msg : string).

(** Puts [events] in front of what the rest of a run does. *)
Definition after (events : list event) (rest : option (list event * stop))
    : option (list event * stop) :=
  match rest with
  | Some (more, s) => Some (events ++ more, s)
  | None => None
  end.

(** *** The rotating wheel ([get_runawaytime_cdk]) *)

(** fuli.hxi.me as the generator meets it. [wheel_session_error] is the
    exception the constructor of the session raises, if any. The body of a
    reply is what [response_resolve] makes of it ([JNull] for [None]);
    [wheel_reply n] answers the spin sent after [n] earlier ones. *)
Record WheelSite : Type := mkWheelSite
  { wheel_session_error : option string;
    checkin_status_reply : reply json;
    checkin_reply : reply json;
    wheel_status_reply : reply json;
    wheel_reply : nat -> reply json;
    wheel_close_error : option string }.

(** [message = json_data.get("message", json_data.get("msg", ""))] and the
    substring tests on it: every branch ends the loop, the tests only choose
    the line printed; [message.lower()] raises unless the message is a string. *)
Definition message_stop (d : dict) : stop :=
  match get d "message" (get d "msg" (JStr "")) with
  | JStr _ => Done
  | message => Fault (no_attribute message "lower")
  end.

(** The daily check-in that precedes the wheel. *)
Definition checkin_part (site : WheelSite) : list event * stop :=
  match checkin_status_reply site with
  | Raises msg => ([Call CheckinStatus], Fault msg)
  | Http status status_data =>
      let checked : bool + string :=
        if status =? 200 then
          if truthy status_data then
            match status_data with
            | JDict d => inl (truthy (get d "checked" JNull))
            | _ => inr (no_attribute status_data "get")
            end
          else inl false
        else inl false in
      match checked with
      | inr msg => ([Call CheckinStatus], Fault msg)
      | inl true => ([Call CheckinStatus], Done)
      | inl false =>
          match checkin_reply site with
          | Raises msg => ([Call CheckinStatus; Call Checkin], Fault msg)
          | Http status json_data =>
              if (status =? 200) || (status =? 400) then
                match json_data with
                | JNull => ([Call CheckinStatus; Call Checkin], Done)
                | JDict d =>
                    if truthy (get d "success" JNull) then
                      let code := get d "code" (JStr "") in
                      if truthy code
                      then ([Call CheckinStatus; Call Checkin; Yield (Code code)], Done)
                      else ([Call CheckinStatus; Call Checkin], Done)
                    else ([Call CheckinStatus; Call Checkin], message_stop d)
                | _ =>
                    ([Call CheckinStatus; Call Checkin],
                     Fault (no_attribute json_data "get"))
                end
              else ([Call CheckinStatus; Call Checkin], Done)
          end
      end
  end.

(** The wheel status request: the number [remaining] is seeded with ([True]
    and [False] count as 1 and 0), or the exception raised on the way
    ([remaining <= 0] raises on a value that is not a number). *)
Definition wheel_check (site : WheelSite) : Z + string :=
  match wheel_status_reply site with
  | Raises msg => inr msg
  | Http status status_data =>
      if status =? 200 then
        if truthy status_data then
          match status_data with
          | JDict d =>
              match as_int (get d "remaining" (JInt 0)) with
              | Some remaining => inl remaining
              | None =>
                  inr (not_supported "<=" (type_name (get d "remaining" (JInt 0))) "int")
              end
          | _ => inr (no_attribute status_data "get")
          end
        else inl 0
      else inl 0
  end.

(** [while remaining > 0], entered before the spin number [n]. *)
Fixpoint wheel_loop (fuel : nat) (site : WheelSite) (n : nat) (remaining : json)
    : option (list event * stop) :=
  match fuel with
  | O => None
  | S f =>
      match as_int remaining with
      | None => Some ([], Fault (not_supported ">" (type_name remaining) "int"))
      | Some z =>
          if z <=? 0 then Some ([], Done)
          else
            match wheel_reply site n with
            | Raises msg => Some ([Call Wheel], Fault msg)
            | Http status json_data =>
                if (status =? 200) || (status =? 400) then
                  match json_data with
                  | JNull => Some ([Call Wheel], Done)
                  | JDict d =>
                      if truthy (get d "success" JNull) then
                        let code := get d "code" (JStr "") in
                        let remaining := get d "remaining" (JInt (z - 1)) in
                        if truthy code then
                          after [Call Wheel; Yield (Code code)]
                            (wheel_loop f site (S n) remaining)
                        else Some ([Call Wheel], message_stop d)
                      else Some ([Call Wheel], message_stop d)
                  | _ => Some ([Call Wheel], Fault (no_attribute json_data "get"))
                  end
                else Some ([Call Wheel], Done)
            end
      end
  end.

(** The wheel: the status request, then, [if remaining > 0], the loop. *)
Definition wheel_part (fuel : nat) (site : WheelSite) : option (list event * stop) :=
  match wheel_check site with
  | inr msg => Some ([Call WheelStatus], Fault msg)
  | inl remaining =>
      if remaining <=? 0 then Some ([Call WheelStatus], Done)
      else after [Call WheelStatus] (wheel_loop fuel site 0 (JInt remaining))
  end.

(** The [finally: session.close()] and the outer [except Exception]: an
    exception of [close] replaces the one under way. *)
Definition closing (close_error : option string) (run : list event * stop)
    : list event :=
  let '(events, s) := run in
  match close_error, s with
  | Some msg, _ => events ++ [Call Close; Yield (Error (Crashed msg))]
  | None, Fault msg => events ++ [Call Close; Yield (Error (Crashed msg))]
  | None, Done => events ++ [Call Close]
  end.

(** The constructor of the session stands inside the outer [try] and before
    the inner one: when it raises, the outer [except] yields the failure and
    there is no session to close. *)
Definition get_runawaytime_cdk (fuel : nat) (get_cdk_cookies : bool)
    (site : WheelSite) : option (list event) :=
  if negb get_cdk_cookies then Some [Yield (Error NoCookies)]
  else
    match wheel_session_error site with
    | Some msg => Some [Yield (Error (Crashed msg))]
    | None =>
        match checkin_part site with
        | (events, Fault msg) =>
            Some (closing (wheel_close_error site) (events, Fault msg))
        | (events, Done) =>
            match after events (wheel_part fuel site) with
            | Some run => Some (closing (wheel_close_error site) run)
            | None => None
            end
        end
    end.

(** *** The lucky draw ([get_b4u_cdk]) *)

(** One line of a response text: whether it starts with ["1:"], and what
    [json.loads] and [int] make of the rest of it ([None] where they raise). *)
Record line : Type := mkLine
  { tagged : bool;
    loads : option json;
    int_of : option Z }.

(** tw.b4u.qzz.io as the generator meets it; [draw_session_error] is the
    exception the constructor of the session raises, if any; the body of a
    reply is the list of the lines of [response.text.strip()]. *)
Record DrawSite : Type := mkDrawSite
  { clearance :
      string + (option (list (string * string)) * option (list (string * string)));
    draw_session_error : option string;
    draw_status_reply : reply (list line);
    draw_reply : nat -> reply (list line);
    draw_close_error : option string }.

(** The status text: the count on the first line that starts with ["1:"]
    ([1] when it is not a number), [0] when no line does. *)
Fixpoint first_count (lines : list line) : Z :=
  match lines with
  | [] => 0
  | ln :: rest =>
      if tagged ln then
        match int_of ln with
        | Some z => z
        | None => 1
        end
      else first_count rest
  end.

Definition draw_check (site : DrawSite) : Z + string :=
  match draw_status_reply site with
  | Raises msg => inr msg
  | Http status lines => inl (if status =? 200 then first_count lines else 1)
  end.

(** The [for line in lines: ... else: ...] over the text of a draw: the items
    yielded and the new value of [remaining], or the exception raised. *)
Fixpoint scan (lines : list line) (remaining : Z) : list event * Z + string :=
  match lines with
  | [] => inl ([], 0)
  | ln :: rest =>
      if tagged ln then
        match loads ln with
        | Some (JDict json_data) =>
            if truthy (get json_data "success" JNull) then
              let redemption_code := get json_data "redemptionCode" (JStr "") in
              match get json_data "prize" (JDict []) with
              | JDict prize =>
                  if truthy redemption_code
                  then inl ([Yield (Code redemption_code)], remaining - 1)
                  else inl ([], remaining - 1)
              | prize => inr (no_attribute prize "get")
              end
            else
              inl ([Yield (Error (DrawRefused
                                    (get json_data "message" (JStr "Unknown error"))))],
                   0)
        | Some _ => inl ([], remaining)
        | None =>
            match int_of ln with
            | Some 0 => scan rest 0
            | _ => scan rest remaining
            end
        end
      else scan rest remaining
  end.

(** [while remaining > 0], entered before the draw number [n]. *)
Fixpoint draw_loop (fuel : nat) (site : DrawSite) (n : nat) (remaining : Z)
    : option (list event * stop) :=
  match fuel with
  | O => None
  | S f =>
      if remaining <=? 0 then Some ([], Done)
      else
        match draw_reply site n with
        | Raises msg => Some ([Call Draw], Fault msg)
        | Http status lines =>
            if status =? 200 then
              match scan lines remaining with
              | inr msg => Some ([Call Draw], Fault msg)
              | inl (yielded, remaining) =>
                  after (Call Draw :: yielded) (draw_loop f site (S n) remaining)
              end
            else
              after [Call Draw; Yield (Error (DrawHttp status))]
                (draw_loop f site (S n) 0)
        end
  end.

(** The draw: the status request, the empty code when no draw remains, the
    loop otherwise. *)
Definition draw_part (fuel : nat) (site : DrawSite) : option (list event * stop) :=
  match draw_check site with
  | inr msg => Some ([Call DrawStatus], Fault msg)
  | inl remaining =>
      if remaining <=? 0
      then Some ([Call DrawStatus; Yield (Code (JStr ""))], Done)
      else after [Call DrawStatus] (draw_loop fuel site 0 remaining)
  end.

Definition get_b4u_cdk (fuel : nat) (get_cdk_cookies : bool) (site : DrawSite)
    : option (list event) :=
  if negb get_cdk_cookies then Some [Yield (Error NoCookies)]
  else
    match clearance site with
    | inl msg => Some [Call Clearance; Yield (Error (ClearanceCrashed msg))]
    | inr (cf_cookies, browser_headers) =>
        if match cf_cookies with
           | Some c => has_key "cf_clearance" c
           | None => false
           end
        then
          match draw_session_error site with
          | Some msg => Some [Call Clearance; Yield (Error (Crashed msg))]
          | None =>
              match draw_part fuel site with
              | Some run => Some (Call Clearance :: closing (draw_close_error site) run)
              | None => None
              end
          end
        else Some [Call Clearance; Yield (Error NoClearance)]
    end.

(** The items a consumer receives, and the number of times an endpoint is
    called. *)
Definition produced (events : list event) : list item :=
  flat_map (fun e => match e with Yield it => [it] | Call _ => [] end) events.

Definition call_eqb (a b : call) : bool :=
  match a, b with
  | CheckinStatus, CheckinStatus | Checkin, Checkin | WheelStatus, WheelStatus
  | Wheel, Wheel | Clearance, Clearance | DrawStatus, DrawStatus
  | Draw, Draw | Close, Close => true
  | _, _ => false
  end.

Definition calls (c : call) (events : list event) : nat :=
  List.length
    (filter (fun e => match e with Call c' => call_eqb c c' | Yield _ => false end)
       events).

End Cdk.

(** ** The daily spin ([get_x666_cdk] of [utils/get_cdk.py]) *)

Module X666.

Import Py.

(** Why the generator yields [(False, {"error": text})].
    - [NoToken]: "access_token not found and no linux.do accounts available"
    - [LoginFailed]: "Failed to obtain access_token via auto-login"
    - [StatusFailed m]: "Failed to get checkin status: m"
    - [StatusHttp c]: "Failed to get checkin status, HTTP c"
    - [SpinFailed m]: "Spin failed - m"
    - [SpinHttp c]: "Spin failed, HTTP c"
    - [Crashed e]: "Error executing x666 spin - e" *)
Inductive failure : Type :=
| NoToken
| LoginFailed
| StatusFailed (message : json)
| StatusHttp (status : Z)
| SpinFailed (message : string)
| SpinHttp (status : Z)
| Crashed (msg : string).

(** What the generator yields: [(True, {"code": code})] or a failure. *)
Inductive item : Type :=
| Code (code : json)
| Error (f : failure).

Inductive call : Type :=
| Login
| Status
| Spin
| Close.

Inductive event : Type :=
| Call (c : call)
| Yield (it : item).

(** up.x666.me and the account as the generator meets them: the configured
    [access_token] ([JNull] when there is none), whether [linux_do] is a list
    that is not empty, what [_get_x666_user_token] returns for its first
    account (its browser automation catches its own exceptions; the user name
    it hashes before that is taken to be text that UTF-8 encodes), the
    exception the constructor of the session raises, if any, and the replies
    to the two requests, each body as [response_resolve] leaves it. *)
Record Site : Type := mkSite
  { access_token : json;
    linux_do : bool;
    user_token : option string;
    session_error : option string;
    status_reply : Cdk.reply json;
    spin_reply : Cdk.reply json;
    close_error : option string }.

(** The spin request and what follows it, up to the [finally]. *)
Definition spin_part (site : Site) : list event * Cdk.stop :=
  match spin_reply site with
  | Cdk.Raises msg => ([Call Spin], Cdk.Fault msg)
  | Cdk.Http status json_data =>
      if (status =? 200) || (status =? 400) then
        match json_data with
        | JNull => ([Call Spin], Cdk.Done)
        | JDict d =>
            if truthy (get d "success" JNull)
            then ([Call Spin; Yield (Code (JStr ""))], Cdk.Done)
            else
              match get d "message" (get d "msg" (JStr "")) with
              | JStr message =>
                  if contains "already" (lower message) || contains "已签到" message
                  then ([Call Spin; Yield (Code (JStr ""))], Cdk.Done)
                  else ([Call Spin; Yield (Error (SpinFailed message))], Cdk.Done)
              | message => ([Call Spin], Cdk.Fault (no_attribute message "lower"))
              end
        | _ => ([Call Spin], Cdk.Fault (no_attribute json_data "get"))
        end
      else ([Call Spin; Yield (Error (SpinHttp status))], Cdk.Done)
  end.

(** The body of the inner [try]: the status request, then the spin when the
    status allows one. An account that has spun today is shown its prize,
    [round(today_quota / 500, 2)], which raises on a quota that is not a
    number or is too large for a float. *)
Definition session_part (site : Site) : list event * Cdk.stop :=
  match status_reply site with
  | Cdk.Raises msg => ([Call Status], Cdk.Fault msg)
  | Cdk.Http status status_data =>
      if status =? 200 then
        if truthy status_data then
          match status_data with
          | JDict d =>
              if truthy (get d "success" JNull) then
                if truthy (get d "can_spin" (JBool false)) then
                  let '(events, s) := spin_part site in (Call Status :: events, s)
                else
                  match get d "today_record" JNull with
                  | JDict today_record =>
                      match as_int (get today_record "quota_amount" (JInt 0)) with
                      | Some today_quota =>
                          if division_overflows today_quota 500
                          then ([Call Status], Cdk.Fault overflow_error)
                          else ([Call Status; Yield (Code (JStr ""))], Cdk.Done)
                      | None =>
                          ([Call Status],
                           Cdk.Fault
                             (unsupported_operand "/"
                                (type_name (get today_record "quota_amount" (JInt 0)))
                                "int"))
                      end
                  | today_record =>
                      ([Call Status], Cdk.Fault (no_attribute today_record "get"))
                  end
              else
                ([Call Status;
                  Yield (Error (StatusFailed (get d "message" (JStr "Unknown error"))))],
                 Cdk.Done)
          | _ => ([Call Status], Cdk.Fault (no_attribute status_data "get"))
          end
        else
          ([Call Status; Yield (Error (StatusFailed (JStr "Invalid response")))],
           Cdk.Done)
      else ([Call Status; Yield (Error (StatusHttp status))], Cdk.Done)
  end.

(** The [finally: session.close()] and the outer [except Exception]. *)
Definition closing (close_error : option string) (run : list event * Cdk.stop)
    : list event :=
  let '(events, s) := run in
  match close_error, s with
  | Some msg, _ => events ++ [Call Close; Yield (Error (Crashed msg))]
  | None, Cdk.Fault msg => events ++ [Call Close; Yield (Error (Crashed msg))]
  | None, Cdk.Done => events ++ [Call Close]
  end.

(** The outer [try]: the constructor of the session stands before the inner
    [try], so that when it raises the failure is yielded and nothing is
    closed. *)
Definition with_session (site : Site) : list event :=
  match session_error site with
  | Some msg => [Yield (Error (Crashed msg))]
  | None => closing (close_error site) (session_part site)
  end.

Definition get_x666_cdk (site : Site) : list event :=
  if truthy (access_token site) then with_session site
  else if linux_do site then
    match user_token site with
    | Some token =>
        if negb (String.eqb token "")
        then Call Login :: with_session site
        else [Call Login; Yield (Error LoginFailed)]
    | None => [Call Login; Yield (Error LoginFailed)]
    end
  else [Yield (Error NoToken)].

(** The payload of a token with the [=] signs [is_jwt_valid] adds to it. *)
Definition padded (payload_b64 : string) : string :=
  let padding := (4 - String.length payload_b64 mod 4)%nat in
  if Nat.eqb padding 4 then payload_b64
  else (payload_b64 ++ string_of_list_ascii (repeat "="%char padding))%string.

(** [is_jwt_valid], the test [_get_x666_user_token] puts a cached token to.
    [b64decode] and [loads] are [base64.b64decode] and [json.loads], [None]
    where they raise; [now] is [time.time()] rounded down, which changes
    nothing in a comparison with an integer. Every exception gives [False]:
    a payload that is not an object (no [.get]), an [exp] that is not a
    number (no order with a float). *)
Definition is_jwt_valid (b64decode : string -> option (list byte))
    (loads : list byte -> option json) (now : Z) (token : string) : bool :=
  match split "."%char token with
  | [_; payload_b64; _] =>
      match b64decode (padded payload_b64) with
      | None => false
      | Some raw =>
          match loads raw with
          | Some (JDict payload) =>
              let exp := get payload "exp" JNull in
              if truthy exp then
                match as_int exp with
                | Some seconds => now <? seconds
                | None => false
                end
              else false
          | _ => false
          end
      end
  | _ => false
  end.

(** The items a consumer receives, and the number of times a request is sent. *)
Definition produced (events : list event) : list item :=
  flat_map (fun e => match e with Yield it => [it] | Call _ => [] end) events.

Definition call_eqb (a b : call) : bool :=
  match a, b with
  | Login, Login | Status, Status | Spin, Spin | Close, Close => true
  | _, _ => false
  end.

Definition calls (c : call) (events : list event) : nat :=
  List.length
    (filter (fun e => match e with Call c' => call_eqb c c' | Yield _ => false end)
       events).

End X666.

(** ** Reading posts ([linuxdo_read_posts.py]) *)

Module LinuxDo.

Import Py.

(** What [username in seen_usernames] goes by: the hash and the equality of
    the value. [True] and [1] are one key, as are [False] and [0]; a list or
    an object cannot be hashed ([None] here, a [TypeError] there). *)
Inductive key : Type :=
| Text (s : string)
| Number (z : Z)
| Nothing.

Definition key_of (v : json) : option key :=
  match v with
  | JNull => Some Nothing
  | JBool b => Some (Number (if b then 1 else 0))
  | JInt z => Some (Number z)
  | JStr s => Some (Text s)
  | JList _ => None
  | JDict _ => None
  end.

Definition key_eqb (a b : key) : bool :=
  match a, b with
  | Text s, Text t => String.eqb s t
  | Number x, Number y => x =? y
  | Nothing, Nothing => true
  | _, _ => false
  end.

(** The [for i, account in enumerate(accounts_data)] loop of
    [load_linuxdo_accounts]; [None] when an exception leaves it.
    [mask_username] ([utils/mask_utils.py], not among the sources) is called
    on every username before it is tested, and is a parameter: [None] where it
    raises. *)
Fixpoint collect (mask_username : json -> option string) (accounts_data : list json)
    (seen_usernames : list key) (linuxdo_accounts : list (json * json))
    : option (list (json * json)) :=
  match accounts_data with
  | [] => Some linuxdo_accounts
  | JDict account :: rest =>
      let username := get account "username" JNull in
      match mask_username username with
      | None => None
      | Some _ =>
          let password := get account "password" JNull in
          if negb (truthy username) || negb (truthy password)
          then collect mask_username rest seen_usernames linuxdo_accounts
          else
            match key_of username with
            | None => None
            | Some k =>
                if existsb (key_eqb k) seen_usernames
                then collect mask_username rest seen_usernames linuxdo_accounts
                else collect mask_username rest (k :: seen_usernames)
                       (linuxdo_accounts ++ [(username, password)])
            end
      end
  | _ :: rest => collect mask_username rest seen_usernames linuxdo_accounts
  end.

(** [load_linuxdo_accounts]: the [(username, password)] pairs of the accounts
    kept. [env] is [os.getenv("ACCOUNTS")], [loads] is [json.loads]; every
    exception ends in [return []]. *)
Definition load_linuxdo_accounts (loads : string -> option json)
    (mask_username : json -> option string) (env : option string)
    : list (json * json) :=
  match env with
  | None => []
  | Some accounts_str =>
      if String.eqb accounts_str "" then []
      else
        match loads accounts_str with
        | Some (JList accounts_data) =>
            match collect mask_username accounts_data [] [] with
            | Some linuxdo_accounts => linuxdo_accounts
            | None => []
            end
        | _ => []
        end
  end.

(** The loop of [_read_posts_from_list] over the shuffled list. A visit is a
    topic id with what opening it comes to: [true] when the topic shows its
    timeline and is scrolled through, so that it is counted; [false] when it
    has no timeline or an exception ends the visit before. The result is the
    topics opened, [last_topic_id] and [read_count]. *)
Fixpoint read_from (visits : list (json * bool)) (max_posts : Z)
    (last_topic_id : json) (read_count : Z) : list json * (json * Z) :=
  match visits with
  | [] => ([], (last_topic_id, read_count))
  | (topic_id, counted) :: rest =>
      if max_posts <=? read_count then ([], (last_topic_id, read_count))
      else
        let '(opened, result) :=
          if counted then read_from rest max_posts topic_id (read_count + 1)
          else read_from rest max_posts last_topic_id read_count in
        (topic_id :: opened, result)
  end.

Definition _read_posts_from_list (visits : list (json * bool)) (max_posts : Z)
    : list json * (json * Z) :=
  read_from visits max_posts (JInt 0) 0.

(** What opening a topic comes to in [_read_posts_sequential]: it is read and
    counted ([invalid_count] is 0 afterwards); it is counted and the wait that
    follows raises ([invalid_count] is 1); its timeline is found,
    [invalid_count] is reset and the scrolling raises before the topic is
    counted ([invalid_count] is 1); or it has no timeline, or an exception
    comes before [invalid_count] is reset ([invalid_count] grows by one). *)
Inductive visit : Type :=
| Read
| ReadThenRaised
| FoundThenRaised
| Missing.

(** The [while read_count < max_posts] loop, entered for the turn number [i].
    [site] tells what opening a topic comes to, [step i] and [jump i] are what
    [random.randint(1, 5)] and [random.randint(50, 100)] give in turn [i].
    The result is the topics opened, [current_topic_id] and [read_count]. *)
Fixpoint sequential_loop (fuel : nat) (site : Z -> visit) (step jump : nat -> Z)
    (i : nat) (max_posts current_topic_id read_count invalid_count : Z)
    : option (list Z * (Z * Z)) :=
  match fuel with
  | O => None
  | S f =>
      if read_count <? max_posts then
        let current_topic_id :=
          if 5 <=? invalid_count then current_topic_id + jump i
          else current_topic_id + step i in
        let invalid_count := if 5 <=? invalid_count then 0 else invalid_count in
        let '(read_count, invalid_count) :=
          match site current_topic_id with
          | Read => (read_count + 1, 0)
          | ReadThenRaised => (read_count + 1, 1)
          | FoundThenRaised => (read_count, 1)
          | Missing => (read_count, invalid_count + 1)
          end in
        match sequential_loop f site step jump (S i) max_posts current_topic_id
                read_count invalid_count with
        | Some (opened, result) => Some (current_topic_id :: opened, result)
        | None => None
        end
      else Some ([], (current_topic_id, read_count))
  end.

(** [_read_posts_sequential]: [cached_topic_id] is what [_load_topic_id]
    returns (0 without a cache). The topic id it returns is the one it hands
    to [_save_topic_id]. *)
Definition _read_posts_sequential (fuel : nat) (site : Z -> visit)
    (step jump : nat -> Z) (cached_topic_id base_topic_id max_posts : Z)
    : option (list Z * (Z * Z)) :=
  sequential_loop fuel site step jump 0 max_posts
    (Z.max base_topic_id cached_topic_id) 0 0.

End LinuxDo.

(** ** Notions the specification states its properties with *)

Module Spec.

Import Py.

(** The number of leading [0x00] bytes of a byte sequence ([k]). *)
Fixpoint zero_bytes (b : list byte) : nat :=
  match b with
  | x :: rest => if Z_of_byte x =? 0 then S (zero_bytes rest) else O
  | [] => O
  end.

(** The first byte that is not [0x00], if there is one. *)
Fixpoint first_nonzero (b : list byte) : option byte :=
  match b with
  | x :: rest => if Z_of_byte x =? 0 then first_nonzero rest else Some x
  | [] => None
  end.

(** The number of clear bits met when bits [n-1], [n-2], ... of [x] are read
    downwards, up to the first set bit. *)
Fixpoint clear_bits_below (n : nat) (x : Z) : nat :=
  match n with
  | O => O
  | S m => if Z.testbit x (Z.of_nat m) then O else S (clear_bits_below m x)
  end.

(** The leading zero bits of the first non-zero byte, most significant bit
    first ([j]); zero when every byte is zero. *)
Definition first_set_bit (b : list byte) : Z :=
  match first_nonzero b with
  | Some x => Z.of_nat (clear_bits_below 8 (Z_of_byte x))
  | None => 0
  end.

(** SHA-256(prefix + ":" + decimal(n)). *)
Definition pow_digest (prefix : string) (n : N) : list byte :=
  SHA256.digest (encode (prefix ++ ":" ++ str_of_N n)%string).

(** Nonce [n] solves the puzzle [(prefix, difficulty)]. *)
Definition solves (prefix : string) (difficulty : Z) (n : N) : Prop :=
  difficulty <= Pow.count_leading_zero_bits (pow_digest prefix n).

(** [n] is the smallest nonce that solves the puzzle. *)
Definition least_solution (prefix : string) (difficulty : Z) (n : N) : Prop :=
  solves prefix difficulty n
  /\ forall m : N, (m < n)%N -> ~ solves prefix difficulty m.

(** The dict [calculate_nonce] returns when it stops at nonce [n]. *)
Definition found (prefix : string) (clock : Pow.Clock) (n : N) : Pow.SolveResult :=
  Pow.mkSolveResult n (Pow.count_leading_zero_bits (pow_digest prefix n))
    (hex (pow_digest prefix n)) (fst (clock n)) (snd (clock n)).

(** The rewards a results map holds: for every account whose result dict is
    not empty, its name and its [reward_final] (["0"] when it has none). *)
Definition successful_rewards (results : list (string * dict)) : dict :=
  map (fun ki => (fst ki, get (snd ki) "reward_final" (JStr "0")))
    (filter (fun ki => truthy (JDict (snd ki))) results).

(** The canonical text of a rewards dict: its members in the order of their
    keys, separated by single commas, each key separated from its value by a
    single colon. *)
Definition canonical_text (rewards : dict) : string :=
  Json.object_text (map (fun kv => (fst kv, Json.dumps (snd kv))) rewards).

(** Keys in lexicographic order. *)
Definition key_le {V : Type} (a b : string * V) : Prop :=
  String.leb (fst a) (fst b) = true.

Definition is_hex (c : ascii) : bool :=
  match index 0 (String c "") "0123456789abcdef" with
  | Some _ => true
  | None => false
  end.

Fixpoint all_hex (s : string) : bool :=
  match s with
  | String c rest => is_hex c && all_hex rest
  | EmptyString => true
  end.






(** The reward codes among what a generator yields: the codes that are not
    empty. (The empty code is the mark that nothing is to be topped up.) *)
Definition reward_codes (events : list Cdk.event) : list json :=
  flat_map
    (fun e => match e with
              | Cdk.Yield (Cdk.Code c) => if truthy c then [c] else []
              | _ => []
              end)
    events.

(** How the processing of one account ends: a successful result, a failure
    with its error, or an exception caught by the loop. *)
Inductive verdict : Type :=
| Succeeded (result : dict)
| Failed (error_msg : json)
| Crashed (msg : string).

Definition is_success (v : verdict) : bool :=
  match v with
  | Succeeded _ => true
  | _ => false
  end.

(** The verdict on one account, from its own world, name and sid alone. *)
Definition verdict_of (fuel : nat) (w : CheckIn.World) (tier : Z)
    (account_name sid : string) : option verdict :=
  match CheckIn.proxy_resolve_error w with
  | Some msg => Some (Crashed msg)
  | None =>
      match CheckIn.execute fuel w account_name sid tier with
      | None => None
      | Some (_, CheckIn.Raised msg) => Some (Crashed msg)
      | Some (_, CheckIn.Returned true result) => Some (Succeeded result)
      | Some (_, CheckIn.Returned false result) =>
          Some (Failed (if truthy (JDict result)
                        then get result "error" (JStr "未知错误")
                        else JStr "未知错误"))
      end
  end.

(** The verdicts on the accounts from index [i] on, when every run ends. *)
Fixpoint verdicts (fuel : nat) (worlds : nat -> CheckIn.World) (tier : Z)
    (i : nat) (sids : list string) : option (list verdict) :=
  match sids with
  | [] => Some []
  | sid :: rest =>
      match verdict_of fuel (worlds i) tier (Main.account_name_of i) sid,
            verdicts fuel worlds tier (S i) rest with
      | Some v, Some vs => Some (v :: vs)
      | _, _ => None
      end
  end.

(** The notification entry of a verdict. *)
Definition entry (account_name : string) (v : verdict) : Main.line :=
  match v with
  | Succeeded result =>
      if truthy (get result "already_signed" JNull)
      then Main.AlreadySignedLine account_name
             (get result "reward_final" (JStr "?")) (get result "tier_name" (JStr ""))
      else Main.RewardLine account_name
             (get result "reward_final" (JStr "?")) (get result "tier_name" (JStr ""))
             (get result "pow_elapsed" (JStr "?")) (get result "pow_hps" (JInt 0))
  | Failed error_msg => Main.FailureLine account_name error_msg
  | Crashed msg => Main.ExceptionLine account_name msg
  end.

Fixpoint entries (i : nat) (vs : list verdict) : list Main.line :=
  match vs with
  | [] => []
  | v :: rest => entry (Main.account_name_of i) v :: entries (S i) rest
  end.

(** The results of the accounts that succeeded, under their names. *)
Fixpoint successes (i : nat) (vs : list verdict) : list (string * dict) :=
  match vs with
  | [] => []
  | Succeeded result :: rest => (Main.account_name_of i, result) :: successes (S i) rest
  | _ :: rest => successes (S i) rest
  end.

Definition is_entry (l : Main.line) : bool :=
  match l with
  | Main.Separator => false
  | _ => true
  end.

(** A byte sequence read as an integer, most significant byte first. *)
Fixpoint be_value (b : list byte) : Z :=
  match b with
  | [] => 0
  | x :: rest => Z_of_byte x * 2 ^ (8 * Z.of_nat (List.length rest)) + be_value rest
  end.

(** The steps of the protocol after the session is opened, in the order the
    client takes them. *)
Definition steps (tier hps : Z) (challenge difficulty challenge_id : json)
    (nonce : N) : list CheckIn.event :=
  [CheckIn.Sent CheckIn.GetMe;
   CheckIn.Benchmark;
   CheckIn.Sent (CheckIn.GetChallenge tier hps);
   CheckIn.Solve challenge difficulty;
   CheckIn.Sent (CheckIn.PostSubmit challenge_id nonce tier)].

(** How a run of the protocol that ends has gone. *)
Inductive course (fuel : nat) (w : CheckIn.World) (s : CheckIn.Session) (tier : Z)
    : list CheckIn.event -> CheckIn.outcome -> Prop :=
| NoUser :
    CheckIn._check_me w s = None ->
    course fuel w s tier
      (firstn 1 (steps tier (CheckIn.benchmark_hps w) JNull JNull JNull 0))
      (CheckIn.failure "获取用户信息失败，可能 cf_clearance 无效")
| Signed (me today : dict) :
    CheckIn._check_me w s = Some me ->
    truthy (get me "signedInToday" JNull) = true ->
    get me "todaySignin" (JDict []) = JDict today ->
    course fuel w s tier
      (firstn 1 (steps tier (CheckIn.benchmark_hps w) JNull JNull JNull 0))
      (CheckIn.Returned true
         [("reward_final", get today "reward_final" (JStr "0"));
          ("tier_name", get today "tier_name" (JStr ""));
          ("already_signed", JBool true)])
| NoChallenge (me : dict) :
    CheckIn._check_me w s = Some me ->
    truthy (get me "signedInToday" JNull) = false ->
    CheckIn._get_challenge w s tier (CheckIn.benchmark_hps w) = None ->
    course fuel w s tier
      (firstn 3 (steps tier (CheckIn.benchmark_hps w) JNull JNull JNull 0))
      (CheckIn.failure "获取挑战失败")
| BadChallenge (me data : dict) (msg : string) :
    CheckIn._check_me w s = Some me ->
    truthy (get me "signedInToday" JNull) = false ->
    CheckIn._get_challenge w s tier (CheckIn.benchmark_hps w) = Some data ->
    CheckIn.solve fuel (CheckIn.clock w)
      (get data "challenge" JNull) (get data "difficulty" JNull)
    = Some (Pow.Threw msg) ->
    course fuel w s tier
      (firstn 4 (steps tier (CheckIn.benchmark_hps w)
                   (get data "challenge" JNull) (get data "difficulty" JNull) JNull 0))
      (CheckIn.failure ("签到流程异常: " ++ msg)%string)
| Refused (me data : dict) (r : Pow.SolveResult) :
    CheckIn._check_me w s = Some me ->
    truthy (get me "signedInToday" JNull) = false ->
    CheckIn._get_challenge w s tier (CheckIn.benchmark_hps w) = Some data ->
    CheckIn.solve fuel (CheckIn.clock w)
      (get data "challenge" JNull) (get data "difficulty" JNull)
    = Some (Pow.Solved r) ->
    CheckIn._submit w s (get data "challengeId" JNull) (Pow.nonce r) tier = None ->
    course fuel w s tier
      (steps tier (CheckIn.benchmark_hps w)
         (get data "challenge" JNull) (get data "difficulty" JNull)
         (get data "challengeId" JNull) (Pow.nonce r))
      (CheckIn.failure "提交签到失败")
| Rewarded (me data : dict) (r : Pow.SolveResult) (submit_data : dict) :
    CheckIn._check_me w s = Some me ->
    truthy (get me "signedInToday" JNull) = false ->
    CheckIn._get_challenge w s tier (CheckIn.benchmark_hps w) = Some data ->
    CheckIn.solve fuel (CheckIn.clock w)
      (get data "challenge" JNull) (get data "difficulty" JNull)
    = Some (Pow.Solved r) ->
    CheckIn._submit w s (get data "challengeId" JNull) (Pow.nonce r) tier = Some submit_data ->
    course fuel w s tier
      (steps tier (CheckIn.benchmark_hps w)
         (get data "challenge" JNull) (get data "difficulty" JNull)
         (get data "challengeId" JNull) (Pow.nonce r))
      (CheckIn.Returned true
         [("reward_final", get submit_data "rewardFinal" (JStr "0"));
          ("reward_base", get submit_data "rewardBase" (JStr "0"));
          ("multiplier", get submit_data "multiplier" (JStr "1"));
          ("tier_name", get submit_data "tierName" (JStr ""));
          ("notes", get submit_data "notes" (JStr ""));
          ("pow_elapsed", JInt (Pow.elapsed r));
          ("pow_hps", JInt (Pow.hps r))]).

(** The entries of a notification with a separator between neighbours. *)
Fixpoint separated (entries : list Main.line) : list Main.line :=
  match entries with
  | [] => []
  | e :: rest =>
      match rest with
      | [] => [e]
      | _ => e :: Main.Separator :: separated rest
      end
  end.

(** A notification is due: no digest is stored, or the stored digest is empty
    or differs from the current one. *)
Definition due (file : Main.digest_file) (current_hash : string) : bool :=
  match file with
  | None => true
  | Some last_hash =>
      if String.eqb last_hash "" then true
      else negb (String.eqb current_hash last_hash)
  end.

(** The title of the notification of a run. *)
Definition title (success_count total_count : Z) : string :=
  if success_count =? total_count then "qaq.al 签到成功" else "qaq.al 签到告警".

(** What may follow a failure item of a generator: closing the session, and
    the failure of that. *)
Definition closing_event (e : Cdk.event) : bool :=
  match e with
  | Cdk.Call Cdk.Close => true
  | Cdk.Yield (Cdk.Error _) => true
  | _ => false
  end.

(** After the first failure item, if there is one, only closing events come. *)
Fixpoint settled (events : list Cdk.event) : bool :=
  match events with
  | [] => true
  | Cdk.Yield (Cdk.Error _) :: rest => forallb closing_event rest
  | _ :: rest => settled rest
  end.

(** How a stretch of the body of [get_x666_cdk] ends: with a success that
    carries the empty code, with a failure, by an exception, or (the spin
    response having no body) without a word. *)
Inductive spin_ending (site : X666.Site) : list X666.item -> Cdk.stop -> Prop :=
| Credited : spin_ending site [X666.Code (JStr "")] Cdk.Done
| Declined (f : X666.failure) : spin_ending site [X666.Error f] Cdk.Done
| Thrown (msg : string) : spin_ending site [] (Cdk.Fault msg)
| Silent (status : Z) :
    X666.spin_reply site = Cdk.Http status JNull ->
    status = 200 \/ status = 400 ->
    spin_ending site [] Cdk.Done.

(** The character [c] occurs in [s]. *)
Fixpoint has_char (c : ascii) (s : string) : bool :=
  match s with
  | EmptyString => false
  | String x rest => Ascii.eqb x c || has_char c rest
  end.

(** A sid as the comma-separated form of the account list can carry it: not
    empty, without white space at either end, without a comma. *)
Definition plain (s : string) : Prop :=
  s <> "" /\ strip s = s /\ has_char ","%char s = false.

End Spec.

(** ** Concrete runs *)

Module Examples.

Import Py.

(** A world in which nothing raises: clearance [cf], a server that answers a
    request by [server] whatever the session, 250000 hashes per second. *)
Definition world
    (cf : option (list (string * string)) * option (list (string * string)))
    (server : CheckIn.request -> CheckIn.reply) : CheckIn.World :=
  CheckIn.mkWorld None (fun _ => inr cf) (fun _ => "chrome") None
    (fun _ r => server r) None 250000 (fun _ => (3, 20)).

Definition cleared : option (list (string * string)) * option (list (string * string)) :=
  (Some [("cf_clearance", "token")], Some [("User-Agent", "Mozilla/5.0")]).


(** The same response with the ["user"] entry /api/me sends along. *)
Definition signed_status_of_user : json :=
  JDict [("user", JDict [("name", JStr "ann"); ("username", JStr "ann01")]);
         ("signedInToday", JBool true);
         ("todaySignin", JDict [("reward_final", JStr "5")])].

(** A server on which the account has signed in today and that would hand out
    a challenge and take a submission if it were asked to. *)
Definition signed_server (status : json) (r : CheckIn.request) : CheckIn.reply :=
  match r with
  | CheckIn.GetMe => CheckIn.Resolved status
  | CheckIn.GetChallenge _ _ =>
      CheckIn.Resolved
        (JDict [("challenge", JStr "c0ffee"); ("challengeId", JStr "id-1");
                ("difficulty", JInt 5)])
  | CheckIn.PostSubmit _ _ _ => CheckIn.Resolved (JDict [("rewardFinal", JStr "9")])
  end.

(** A server on which the account has not signed in yet. *)
Definition fresh_server (r : CheckIn.request) : CheckIn.reply :=
  match r with
  | CheckIn.GetMe =>
      CheckIn.Resolved (JDict [("user", JDict [("name", JStr "ann")]);
                               ("signedInToday", JBool false)])
  | CheckIn.GetChallenge _ _ =>
      CheckIn.Resolved
        (JDict [("challenge", JStr "c0ffee"); ("challengeId", JStr "id-1");
                ("difficulty", JInt 5)])
  | CheckIn.PostSubmit _ n _ =>
      if (n =? 7)%N
      then CheckIn.Resolved (JDict [("rewardFinal", JStr "9"); ("tierName", JStr "gold")])
      else CheckIn.Resolved (JDict [("error", JStr "bad nonce")])
  end.

(** A server on which the account has not signed in yet and that hands out
    [challenge] and [difficulty], whatever they are. *)
Definition odd_server (challenge difficulty : json) (r : CheckIn.request)
    : CheckIn.reply :=
  match r with
  | CheckIn.GetMe =>
      CheckIn.Resolved (JDict [("user", JDict [("name", JStr "ann")]);
                               ("signedInToday", JBool false)])
  | CheckIn.GetChallenge _ _ =>
      CheckIn.Resolved
        (JDict [("challenge", challenge); ("challengeId", JStr "id-1");
                ("difficulty", difficulty)])
  | CheckIn.PostSubmit _ _ _ => CheckIn.Resolved (JDict [("rewardFinal", JStr "9")])
  end.

(** A server that answers nothing usable. *)
Definition down_server (r : CheckIn.request) : CheckIn.reply :=
  CheckIn.Raises "connection refused".

(** Three accounts: the first has signed in already, the session of the second
    cannot be opened, the third solves a puzzle. *)
Definition three_worlds (i : nat) : CheckIn.World :=
  match i with
  | O => world cleared (signed_server signed_status_of_user)
  | S O =>
      CheckIn.mkWorld None (fun _ => inr cleared) (fun _ => "chrome")
        (Some "Failed to initialise session")
        (fun _ r => fresh_server r) None 250000 (fun _ => (3, 20))
  | _ => world cleared fresh_server
  end.

(** Three accounts behind a server that is down. *)
Definition down_worlds (i : nat) : CheckIn.World := world (None, None) down_server.

(** A wheel award with code [code], and one that echoes the spins left. *)
Definition award (code : string) : json :=
  JDict [("success", JBool true); ("code", JStr code)].

Definition award_echo (code : string) (remaining : Z) : json :=
  JDict [("success", JBool true); ("code", JStr code); ("remaining", JInt remaining)].

(** The wheel of an account that has checked in today: [spins] are left
    according to the status request, and the spins are answered by [replies]. *)
Definition wheel_site (spins : Z) (replies : nat -> Cdk.reply json) : Cdk.WheelSite :=
  Cdk.mkWheelSite None (Cdk.Http 200 (JDict [("checked", JBool true)]))
    (Cdk.Raises "not sent") (Cdk.Http 200 (JDict [("remaining", JInt spins)]))
    replies None.

(** Awarded [A], then awarded [B] with zero spins left; a third spin would be
    awarded [C]. *)
Definition wheel_replies_AB (n : nat) : Cdk.reply json :=
  match n with
  | O => Cdk.Http 200 (award "A")
  | S O => Cdk.Http 200 (award_echo "B" 0)
  | _ => Cdk.Http 200 (award "C")
  end.


(** The lines of a lucky-draw text: the stream header, and a payload line. *)
Definition header_line : Cdk.line := Cdk.mkLine false None None.
Definition count_line (n : Z) : Cdk.line := Cdk.mkLine true (Some (JInt n)) (Some n).
Definition object_line (d : dict) : Cdk.line := Cdk.mkLine true (Some (JDict d)) None.

Definition prize (code : string) : dict :=
  [("success", JBool true); ("message", JStr "ok");
   ("prize", JDict [("name", JStr "quota")]); ("redemptionCode", JStr code)].

Definition draw_site (draws : Z) (replies : nat -> Cdk.reply (list Cdk.line))
    : Cdk.DrawSite :=
  Cdk.mkDrawSite (inr (Some [("cf_clearance", "token")], None)) None
    (Cdk.Http 200 [header_line; count_line draws]) replies None.

(** Awarded [A], then awarded [B] with zero draws left; a third draw would be
    awarded [C]. *)
Definition draw_replies_AB (n : nat) : Cdk.reply (list Cdk.line) :=
  match n with
  | O => Cdk.Http 200 [header_line; object_line (prize "A")]
  | S O => Cdk.Http 200 [header_line; object_line (prize "B" ++ [("remaining", JInt 0)])]
  | _ => Cdk.Http 200 [header_line; object_line (prize "C")]
  end.



(** Two successful accounts, in the order of processing and in the other. *)
Definition two_results : list (string * dict) :=
  [("account_1", [("reward_final", JStr "5"); ("tier_name", JStr "gold")]);
   ("account_2", [("reward_final", JStr "9"); ("already_signed", JBool true)])].

Definition two_results_swapped : list (string * dict) :=
  [("account_2", [("reward_final", JStr "9"); ("already_signed", JBool true)]);
   ("account_1", [("reward_final", JStr "5"); ("tier_name", JStr "gold")])].

(** A server that asks for 300 leading zero bits, more than a digest has. *)
Definition greedy_server (r : CheckIn.request) : CheckIn.reply :=
  match r with
  | CheckIn.GetMe =>
      CheckIn.Resolved (JDict [("user", JDict [("name", JStr "ann")]);
                               ("signedInToday", JBool false)])
  | CheckIn.GetChallenge _ _ =>
      CheckIn.Resolved
        (JDict [("challenge", JStr "c0ffee"); ("challengeId", JStr "id-1");
                ("difficulty", JInt 300)])
  | CheckIn.PostSubmit _ _ _ => CheckIn.Resolved (JDict [("rewardFinal", JStr "9")])
  end.

(** Three accounts: the first has signed in, the second is asked for 300
    bits, the third would solve its puzzle. *)
Definition blocked_worlds (i : nat) : CheckIn.World :=
  match i with
  | O => world cleared (signed_server signed_status_of_user)
  | S O => world cleared greedy_server
  | _ => world cleared fresh_server
  end.


(** Awarded [A], then refused; a third draw would be awarded [C]. *)
Definition draw_replies_refused (n : nat) : Cdk.reply (list Cdk.line) :=
  match n with
  | O => Cdk.Http 200 [header_line; object_line (prize "A")]
  | S O =>
      Cdk.Http 200
        [header_line;
         object_line [("success", JBool false); ("message", JStr "no luck")]]
  | _ => Cdk.Http 200 [header_line; object_line (prize "C")]
  end.

(** An account with a token whose spin of the day is still to come, on a site
    that answers the spin with code 200 and [body]. *)
Definition spin_site (body : json) : X666.Site :=
  X666.mkSite (JStr "token") false None None
    (Cdk.Http 200 (JDict [("success", JBool true); ("can_spin", JBool true)]))
    (Cdk.Http 200 body) None.

(** A forum on which the topics with an even id can be read. *)
Definition even_site (topic_id : Z) : LinuxDo.visit :=
  if Z.even topic_id then LinuxDo.Read else LinuxDo.Missing.

(** A forum on which nothing can be read. *)
Definition empty_site (topic_id : Z) : LinuxDo.visit := LinuxDo.Missing.

(** Three accounts, of which the third repeats the user name of the first. *)
Definition linuxdo_accounts : json :=
  JList [JDict [("username", JStr "ann"); ("password", JStr "pw1")];
         JDict [("username", JStr "bob"); ("password", JStr "")];
         JStr "carol";
         JDict [("username", JStr "ann"); ("password", JStr "pw2")];
         JDict [("username", JStr "dan"); ("password", JStr "pw3")]].

End Examples.

(** * Properties *)

(** Splits a hypothesis on every [match] it holds. *)
Ltac split_matches H :=
  repeat match type of H with
         | context [match ?x with _ => _ end] => destruct x
         end.

(** Settles the boolean comparison [c] of the goal from the hypotheses. *)
Ltac comparison_is c b :=
  replace c with b
    by (symmetry;
        first [apply Z.leb_le | apply Z.leb_gt | apply Z.ltb_lt | apply Z.ltb_ge]; lia).

(** ** Leading zero bits *)

Section LeadingZeroBits.

Import Py Pow Spec.

Lemma land_bit7 (b : Z) : (Z.land b 0x80 =? 0) = negb (Z.testbit b 7).
Proof.
  change 0x80 with (2 ^ 7).
  destruct (Z.testbit b 7) eqn:E; cbn [negb].
  - apply Z.eqb_neq. intro H.
    assert (T : Z.testbit (Z.land b (2 ^ 7)) 7 = true).
    { rewrite Z.land_spec, E, Z.pow2_bits_true by lia. reflexivity. }
    rewrite H in T. rewrite Z.bits_0 in T. discriminate.
  - apply Z.eqb_eq. apply Z.bits_inj'. intros n Hn.
    rewrite Z.land_spec, Z.bits_0, Z.pow2_bits_eqb by lia.
    destruct (Z.eqb_spec 7 n) as [<-|]; [rewrite E|]; auto using andb_false_r.
Qed.

Lemma shift_loop_scan (x : Z) :
  forall (n fuel : nat) (c : Z),
    (n <= 8)%nat -> (n <= fuel)%nat -> c + Z.of_nat n <= 256 ->
    (exists i, (i < n)%nat /\ Z.testbit x (Z.of_nat i) = true) ->
    shift_loop fuel (Z.shiftl x (8 - Z.of_nat n)) c
    = c + Z.of_nat (clear_bits_below n x).
Proof.
  induction n as [|m IH]; intros fuel c H8 Hf Hc [i [Hi Hbit]]; [lia|].
  destruct fuel as [|f]; [lia|].
  cbn [shift_loop clear_bits_below].
  rewrite land_bit7, Z.shiftl_spec by lia.
  replace (7 - (8 - Z.of_nat (S m))) with (Z.of_nat m) by lia.
  destruct (Z.testbit x (Z.of_nat m)) eqn:E; cbn [negb andb].
  - cbn. lia.
  - comparison_is (c <? 256) true.
    rewrite Z.shiftl_shiftl by lia.
    replace (8 - Z.of_nat (S m) + 1) with (8 - Z.of_nat m) by lia.
    rewrite IH; try lia.
    exists i. split; [|assumption].
    assert (i <> m) by (intros ->; congruence). lia.
Qed.

Lemma nonzero_byte_has_bit (x : byte) :
  Z_of_byte x <> 0 ->
  exists i, (i < 8)%nat /\ Z.testbit (Z_of_byte x) (Z.of_nat i) = true.
Proof.
  intro H.
  assert (E : existsb (fun i => Z.testbit (Z_of_byte x) (Z.of_nat i)) (seq 0 8) = true).
  { destruct x; try reflexivity; exfalso; apply H; reflexivity. }
  apply existsb_exists in E. destruct E as [i [Hin Hbit]].
  apply in_seq in Hin. exists i. split; [lia|assumption].
Qed.

Lemma count_from_scan :
  forall (b : list byte) (c : Z),
    0 <= c -> c mod 8 = 0 ->
    count_from b c
    = c + 8 * Z.of_nat (zero_bytes b)
      + (if c + 8 * Z.of_nat (zero_bytes b) <? 256 then first_set_bit b else 0).
Proof.
  unfold first_set_bit.
  induction b as [|x rest IH]; intros c H0 H8; cbn [count_from zero_bytes first_nonzero].
  - destruct (_ <? _); lia.
  - destruct (Z.eqb_spec (Z_of_byte x) 0) as [Hz|Hnz].
    + rewrite IH by (try lia; rewrite <- Z.add_mod_idemp_l, H8 by lia; reflexivity).
      replace (c + 8 + 8 * Z.of_nat (zero_bytes rest))
        with (c + 8 * Z.of_nat (S (zero_bytes rest))) by lia.
      reflexivity.
    + replace (c + 8 * Z.of_nat 0) with c by lia.
      destruct (Z.ltb_spec c 256) as [Hlt|Hge].
      * assert (c <= 248).
        { apply Z.mod_divide in H8; [|lia]. destruct H8 as [q ->]. lia. }
        rewrite <- (Z.shiftl_0_r (Z_of_byte x)) at 1.
        change 0 with (8 - Z.of_nat 8) at 1.
        rewrite shift_loop_scan; try lia.
        apply nonzero_byte_has_bit; assumption.
      * replace (Z.to_nat (256 - c)) with O by lia. cbn. lia.
Qed.

End LeadingZeroBits.

(** C2, as the code has it. For every byte sequence [b], with [k] its number of
    leading [0x00] bytes and [j] the number of leading zero bits (most
    significant first) of its first non-zero byte,
    [count_leading_zero_bits b] is [8*k + j] as long as [k < 32], and [8*k]
    from 32 zero bytes on (the guard [count < 256] then stops the bit scan).
    So every sequence of at most 32 bytes, a SHA-256 digest among them, gives
    [8*k + j]; bytes [0x00, 0x0F, ...] give 12; an all-zero sequence gives 8
    times its length. *)
Theorem count_leading_zero_bits_scan :
  forall b : list byte,
    Pow.count_leading_zero_bits b
    = 8 * Z.of_nat (Spec.zero_bytes b)
      + (if Z.of_nat (Spec.zero_bytes b) <? 32 then Spec.first_set_bit b else 0)
    /\ ((List.length b <= 32)%nat ->
        Pow.count_leading_zero_bits b
        = 8 * Z.of_nat (Spec.zero_bytes b) + Spec.first_set_bit b)
    /\ (forall rest, Pow.count_leading_zero_bits (x00 :: x0f :: rest) = 12)
    /\ (forall n, Pow.count_leading_zero_bits (repeat x00 n) = 8 * Z.of_nat n).
Proof.
  intro b.
  assert (E : Pow.count_leading_zero_bits b
              = 8 * Z.of_nat (Spec.zero_bytes b)
                + (if Z.of_nat (Spec.zero_bytes b) <? 32
                   then Spec.first_set_bit b else 0)).
  { unfold Pow.count_leading_zero_bits.
    rewrite count_from_scan by (try lia; reflexivity).
    cbn [Z.add].
    destruct (Z.ltb_spec (8 * Z.of_nat (Spec.zero_bytes b)) 256);
      destruct (Z.ltb_spec (Z.of_nat (Spec.zero_bytes b)) 32); lia. }
  split; [exact E|]. split; [|split].
  - intro Hlen. rewrite E.
    destruct (Z.ltb_spec (Z.of_nat (Spec.zero_bytes b)) 32) as [|Hk]; [reflexivity|].
    assert (Hall : forall l : list byte,
               (List.length l <= Spec.zero_bytes l)%nat -> Spec.first_set_bit l = 0).
    { unfold Spec.first_set_bit.
      induction l as [|x l IH]; cbn [Spec.zero_bytes Spec.first_nonzero List.length];
        [reflexivity|].
      destruct (Py.Z_of_byte x =? 0); intro; [apply IH|]; lia. }
    assert (Hle : forall l : list byte, (Spec.zero_bytes l <= List.length l)%nat).
    { induction l as [|x l IH]; cbn [Spec.zero_bytes List.length]; [lia|].
      destruct (Py.Z_of_byte x =? 0); lia. }
    specialize (Hle b). rewrite Hall by lia. reflexivity.
  - intro rest. reflexivity.
  - intro n. unfold Pow.count_leading_zero_bits.
    assert (G : forall c, Pow.count_from (repeat x00 n) c = c + 8 * Z.of_nat n).
    { induction n as [|n IH]; intro c; cbn [repeat Pow.count_from]; [lia|].
      change (Py.Z_of_byte x00 =? 0) with true. cbn iota. rewrite IH. lia. }
    rewrite G. lia.
Qed.

(** The scan at a 32-byte value with 3 leading zero bytes. *)
Lemma count_leading_zero_bits_scan_witness :
  Pow.count_leading_zero_bits (repeat x00 3 ++ x1f :: repeat xff 28) = 27.
Proof.
  destruct (count_leading_zero_bits_scan (repeat x00 3 ++ x1f :: repeat xff 28))
    as [_ [H _]].
  rewrite H; [reflexivity | cbn; lia].
Defined.

(** C2, as stated, fails from 32 leading zero bytes on: 32 zero bytes followed
    by [0x01] count 256 leading zero bits, where [8*k + j] is 263. *)
Lemma count_leading_zero_bits_guard :
  exists b : list byte,
    Pow.count_leading_zero_bits b = 256
    /\ 8 * Z.of_nat (Spec.zero_bytes b) + Spec.first_set_bit b = 263.
Proof.
  exists (repeat x00 32 ++ [x01]). split; reflexivity.
Qed.

(** ** The nonce search *)

Section NonceSearch.

Import Py Pow Spec.

Lemma encode_app (a b : string) : encode (a ++ b)%string = encode a ++ encode b.
Proof.
  unfold encode, list_byte_of_string.
  induction a as [|c a IH]; cbn; [reflexivity|].
  f_equal. exact IH.
Qed.

Variable challenge : string.
Variable difficulty : Z.
Variable clock : Clock.

Local Abbreviation found := (Spec.found challenge clock).

Lemma search_unfold (f : nat) (n : N) :
  search (S f) clock (encode (challenge ++ ":")%string) difficulty n
  = if difficulty <=? count_leading_zero_bits (pow_digest challenge n)
    then Some (found n)
    else search f clock (encode (challenge ++ ":")%string) difficulty (n + 1).
Proof.
  cbn [search]. unfold found, Spec.found, pow_digest.
  replace (challenge ++ ":" ++ str_of_N n)%string
    with ((challenge ++ ":") ++ str_of_N n)%string.
  - rewrite (encode_app (challenge ++ ":")%string (str_of_N n)). reflexivity.
  - induction challenge as [|c s IH]; cbn; [reflexivity|]. f_equal. exact IH.
Qed.

Lemma search_hit :
  forall (fuel : nat) (n n0 : N),
    (n <= n0)%N -> (N.to_nat (n0 - n) < fuel)%nat ->
    solves challenge difficulty n0 ->
    (forall m, (n <= m < n0)%N -> ~ solves challenge difficulty m) ->
    search fuel clock (encode (challenge ++ ":")%string) difficulty n
    = Some (found n0).
Proof.
  induction fuel as [|f IH]; intros n n0 Hle Hf Hs Hmin; [lia|].
  rewrite search_unfold.
  destruct (Z.leb_spec difficulty (count_leading_zero_bits (pow_digest challenge n)))
    as [Hyes|Hno].
  - destruct (N.eq_dec n n0) as [->|Hne]; [reflexivity|].
    exfalso. apply (Hmin n); [lia|exact Hyes].
  - assert (n <> n0) by (intros ->; unfold solves in Hs; lia).
    apply IH; try lia; [assumption|].
    intros m Hm. apply Hmin. lia.
Qed.

Lemma search_sound :
  forall (fuel : nat) (n : N) (r : SolveResult),
    search fuel clock (encode (challenge ++ ":")%string) difficulty n = Some r ->
    r = found (nonce r)
    /\ (n <= nonce r)%N
    /\ solves challenge difficulty (nonce r)
    /\ (forall m, (n <= m < nonce r)%N -> ~ solves challenge difficulty m).
Proof.
  induction fuel as [|f IH]; intros n r H; [discriminate|].
  rewrite search_unfold in H.
  destruct (Z.leb_spec difficulty (count_leading_zero_bits (pow_digest challenge n)))
    as [Hyes|Hno].
  - injection H as <-. unfold found, Spec.found. cbn [nonce].
    split; [reflexivity|]. split; [lia|]. split; [exact Hyes|intros; lia].
  - apply IH in H. destruct H as [E [Hle [Hs Hmin]]].
    split; [exact E|]. split; [lia|]. split; [exact Hs|].
    intros m Hm. destruct (N.eq_dec m n) as [->|]; [unfold solves; lia|].
    apply Hmin. lia.
Qed.

Lemma search_miss :
  forall (fuel : nat) (n : N),
    search fuel clock (encode (challenge ++ ":")%string) difficulty n = None ->
    forall m, (n <= m)%N -> (N.to_nat (m - n) < fuel)%nat ->
              ~ solves challenge difficulty m.
Proof.
  induction fuel as [|f IH]; intros n H m Hle Hf; [lia|].
  rewrite search_unfold in H.
  destruct (Z.leb_spec difficulty (count_leading_zero_bits (pow_digest challenge n)))
    as [Hyes|Hno]; [discriminate|].
  destruct (N.eq_dec m n) as [->|]; [unfold solves; lia|].
  apply (IH _ H); lia.
Qed.

End NonceSearch.

(** A digest has 32 bytes, so no digest has more than 256 leading zero bits:
    above difficulty 256 no nonce solves the puzzle and the search goes on
    for ever. *)
Lemma digest_length (msg : list byte) : List.length (SHA256.digest msg) = 32%nat.
Proof. reflexivity. Qed.

Lemma no_solution_above_256 (challenge : string) (difficulty : Z) (n : N) :
  256 < difficulty -> ~ Spec.solves challenge difficulty n.
Proof.
  intros Hd Hs. unfold Spec.solves, Pow.count_leading_zero_bits in Hs.
  rewrite count_from_scan in Hs by (try lia; reflexivity).
  assert (Hk : (Spec.zero_bytes (Spec.pow_digest challenge n) <= 32)%nat).
  { rewrite <- (digest_length (Py.encode (challenge ++ ":" ++ Py.str_of_N n)%string)).
    unfold Spec.pow_digest.
    generalize (SHA256.digest (Py.encode (challenge ++ ":" ++ Py.str_of_N n)%string)).
    induction l as [|x l IH]; cbn [Spec.zero_bytes List.length]; [lia|].
    destruct (Py.Z_of_byte x =? 0); lia. }
  assert (Hj : forall l, 0 <= Spec.first_set_bit l <= 8).
  { intro l. unfold Spec.first_set_bit. destruct (Spec.first_nonzero l); [|lia].
    generalize (Py.Z_of_byte b). intro z.
    assert (G : forall k, (Spec.clear_bits_below k z <= k)%nat).
    { induction k as [|k IHk]; cbn [Spec.clear_bits_below]; [lia|].
      destruct (Z.testbit z (Z.of_nat k)); lia. }
    specialize (G 8%nat). lia. }
  specialize (Hj (Spec.pow_digest challenge n)).
  destruct (Z.ltb_spec (0 + 8 * Z.of_nat (Spec.zero_bytes (Spec.pow_digest challenge n)))
              256); lia.
Qed.

Section Solver.

Import Py Pow.

Variable challenge : string.
Variable difficulty : Z.
Variable clock : Clock.

(** The three ways a call of [calculate_nonce] goes. *)
Lemma calculate_nonce_solved (fuel : nat) (r : SolveResult) :
  calculate_nonce fuel clock challenge difficulty = Some (Solved r)
  <-> encode_error (challenge ++ ":")%string = None
      /\ search fuel clock (encode (challenge ++ ":")%string) difficulty 0 = Some r.
Proof.
  unfold calculate_nonce.
  destruct (encode_error (challenge ++ ":")%string) as [msg|].
  - split; [discriminate|intros [C _]; discriminate].
  - destruct (search fuel clock (encode (challenge ++ ":")%string) difficulty 0) as [r'|].
    + split; [intro H; injection H as <-; auto|intros [_ H]; congruence].
    + split; [discriminate|intros [_ C]; discriminate].
Qed.

Lemma calculate_nonce_threw (fuel : nat) (msg : string) :
  calculate_nonce fuel clock challenge difficulty = Some (Threw msg)
  <-> encode_error (challenge ++ ":")%string = Some msg.
Proof.
  unfold calculate_nonce.
  destruct (encode_error (challenge ++ ":")%string) as [msg'|].
  - split; intro H; injection H as <-; reflexivity.
  - destruct (search fuel clock (encode (challenge ++ ":")%string) difficulty 0);
      split; discriminate.
Qed.

Lemma calculate_nonce_goes_on (fuel : nat) :
  calculate_nonce fuel clock challenge difficulty = None
  <-> encode_error (challenge ++ ":")%string = None
      /\ search fuel clock (encode (challenge ++ ":")%string) difficulty 0 = None.
Proof.
  unfold calculate_nonce.
  destruct (encode_error (challenge ++ ":")%string) as [msg|].
  - split; [discriminate|intros [C _]; discriminate].
  - destruct (search fuel clock (encode (challenge ++ ":")%string) difficulty 0);
      split; [discriminate|intros [_ C]; discriminate|auto|reflexivity].
Qed.

(** Without a solution the search finds nothing, whatever the fuel. *)
Lemma search_in_vain :
  (forall n : N, ~ Spec.solves challenge difficulty n) ->
  forall (fuel : nat) (n : N),
    search fuel clock (encode (challenge ++ ":")%string) difficulty n = None.
Proof.
  intros Hno. induction fuel as [|f IH]; intro n; [reflexivity|].
  rewrite search_unfold.
  destruct (Z.leb_spec difficulty
              (count_leading_zero_bits (Spec.pow_digest challenge n)))
    as [Hyes|_]; [|apply IH].
  exfalso. exact (Hno n Hyes).
Qed.

End Solver.

(** C1, as the code has it. For every challenge prefix that can be encoded
    and every difficulty: when some nonce solves the puzzle, the solver
    returns, after finitely many steps, the result of the smallest one;
    whatever it returns has at least [difficulty] leading zero bits and
    carries the smallest non-negative [n] such that
    SHA-256(prefix + ":" + decimal(n)) has that many; nonce, bit count and hash
    of the result depend on [(prefix, difficulty)] alone, not on the clock or
    on the number of steps allowed. When no nonce solves the puzzle, as is the
    case for every difficulty above 256, the solver does not return. On a
    prefix that cannot be encoded it raises before the first hash. *)
Theorem calculate_nonce_least :
  forall (challenge : string) (difficulty : Z),
    (Py.encode_error (challenge ++ ":")%string = None ->
     forall n : N,
       Spec.solves challenge difficulty n ->
       exists n0 : N,
         (n0 <= n)%N
         /\ Spec.least_solution challenge difficulty n0
         /\ forall (clock : Pow.Clock) (fuel : nat),
             (N.to_nat n0 < fuel)%nat ->
             Pow.calculate_nonce fuel clock challenge difficulty
             = Some (Pow.Solved (Spec.found challenge clock n0)))
    /\ (forall (clock : Pow.Clock) (fuel : nat) (r : Pow.SolveResult),
          Pow.calculate_nonce fuel clock challenge difficulty = Some (Pow.Solved r) ->
          difficulty <= Pow.leading r
          /\ Spec.least_solution challenge difficulty (Pow.nonce r)
          /\ r = Spec.found challenge clock (Pow.nonce r))
    /\ (forall (clock1 clock2 : Pow.Clock) (fuel1 fuel2 : nat)
               (r1 r2 : Pow.SolveResult),
          Pow.calculate_nonce fuel1 clock1 challenge difficulty = Some (Pow.Solved r1) ->
          Pow.calculate_nonce fuel2 clock2 challenge difficulty = Some (Pow.Solved r2) ->
          Pow.nonce r1 = Pow.nonce r2
          /\ Pow.leading r1 = Pow.leading r2
          /\ Pow.hash r1 = Pow.hash r2)
    /\ (Py.encode_error (challenge ++ ":")%string = None ->
        (forall n : N, ~ Spec.solves challenge difficulty n) ->
        forall (clock : Pow.Clock) (fuel : nat),
          Pow.calculate_nonce fuel clock challenge difficulty = None)
    /\ (256 < difficulty -> forall n : N, ~ Spec.solves challenge difficulty n)
    /\ (forall msg : string,
          Py.encode_error (challenge ++ ":")%string = Some msg ->
          forall (clock : Pow.Clock) (fuel : nat),
            Pow.calculate_nonce fuel clock challenge difficulty
            = Some (Pow.Threw msg)).
Proof.
  intros challenge difficulty.
  assert (Sound : forall clock fuel r,
             Pow.calculate_nonce fuel clock challenge difficulty = Some (Pow.Solved r) ->
             difficulty <= Pow.leading r
             /\ Spec.least_solution challenge difficulty (Pow.nonce r)
             /\ r = Spec.found challenge clock (Pow.nonce r)).
  { intros clock fuel r H. apply calculate_nonce_solved in H. destruct H as [_ H].
    apply search_sound in H. destruct H as [E [_ [Hs Hmin]]].
    split; [|split; [split|]].
    - rewrite E. exact Hs.
    - exact Hs.
    - intros m Hm. apply Hmin. lia.
    - exact E. }
  split; [|split; [exact Sound|split; [|split; [|split]]]].
  - intros Henc n Hn.
    destruct (Pow.search (S (N.to_nat n)) (fun _ => (0, 0))
                (Py.encode (challenge ++ ":")%string) difficulty 0) as [r|] eqn:E.
    + destruct (search_sound _ _ _ _ _ _ E) as [_ [_ [Hs Hmin]]].
      exists (Pow.nonce r).
      assert (Hle : (Pow.nonce r <= n)%N).
      { destruct (N.le_gt_cases (Pow.nonce r) n) as [|Hgt]; [assumption|].
        exfalso. apply (Hmin n); [lia|exact Hn]. }
      split; [exact Hle|]. split; [split; [exact Hs|intros m Hm; apply Hmin; lia]|].
      intros clock fuel Hf. apply calculate_nonce_solved. split; [exact Henc|].
      apply search_hit; try lia; [exact Hs|].
      intros m Hm. apply Hmin. lia.
    + exfalso. apply (search_miss _ _ _ _ _ E n); [lia|lia|exact Hn].
  - intros clock1 clock2 fuel1 fuel2 r1 r2 H1 H2.
    destruct (Sound _ _ _ H1) as [_ [[Hs1 Hm1] E1]].
    destruct (Sound _ _ _ H2) as [_ [[Hs2 Hm2] E2]].
    assert (Pow.nonce r1 = Pow.nonce r2) as En.
    { destruct (N.lt_total (Pow.nonce r1) (Pow.nonce r2)) as [Hlt|[Heq|Hgt]];
        [exfalso; exact (Hm2 _ Hlt Hs1)|exact Heq|exfalso; exact (Hm1 _ Hgt Hs2)]. }
    rewrite E1, E2, En. repeat split.
  - intros Henc Hno clock fuel. apply calculate_nonce_goes_on.
    split; [exact Henc|]. apply search_in_vain. exact Hno.
  - intros Hd n. exact (no_solution_above_256 challenge difficulty n Hd).
  - intros msg Henc clock fuel. apply calculate_nonce_threw. exact Henc.
Qed.

(** The search on the puzzle [("c0ffee", 5)]: nonce 7 is its smallest solution,
    with 6 leading zero bits. *)
Lemma calculate_nonce_least_witness :
  Spec.least_solution "c0ffee" 5 7%N
  /\ Pow.calculate_nonce 8 (fun _ => (3, 20)) "c0ffee" 5
     = Some (Pow.Solved
               (Pow.mkSolveResult 7 6
                  "036280ba77fb7a205780e2f5c12ceaa602ab69ecb8d12f697a95440db8c2bc59"
                  3 20)).
Proof.
  assert (E : Pow.calculate_nonce 8 (fun _ => (3, 20)) "c0ffee" 5
              = Some (Pow.Solved
                        (Pow.mkSolveResult 7 6
                           "036280ba77fb7a205780e2f5c12ceaa602ab69ecb8d12f697a95440db8c2bc59"
                           3 20))) by (vm_compute; reflexivity).
  destruct (calculate_nonce_least "c0ffee" 5) as [_ [H _]].
  destruct (H _ _ _ E) as [_ [L _]].
  split; [exact L|exact E].
Defined.

(** C1, as stated, fails: asked for 300 leading zero bits, which no digest
    has, the solver returns nothing, whatever the number of steps it is
    given; and on a prefix that holds a lone surrogate it raises where the
    prefix is encoded. *)
Lemma calculate_nonce_without_result :
  Py.encode_error "c0ffee:" = None
  /\ (forall (clock : Pow.Clock) (fuel : nat),
         Pow.calculate_nonce fuel clock "c0ffee" 300 = None)
  /\ (forall (clock : Pow.Clock) (fuel : nat),
         Pow.calculate_nonce fuel clock (Py.utf8 0xD800) 0
         = Some (Pow.Threw
                   "'utf-8' codec can't encode character '\ud800' in position 0: surrogates not allowed")).
Proof.
  split; [reflexivity|]. split.
  - intros clock fuel. apply calculate_nonce_goes_on. split; [reflexivity|].
    apply search_in_vain. intro n. apply no_solution_above_256. lia.
  - intros clock fuel. apply calculate_nonce_threw. reflexivity.
Qed.

(** ** The check-in protocol *)

Section Protocol.

Import Py CheckIn.


End Protocol.



Section NoClearance.

Import Py CheckIn.

Lemma protocol_trace (fuel : nat) (w : World) (s : Session) (tier : Z)
    (trace : list event) (out : outcome) :
  protocol fuel w s tier = Some (trace, out) ->
  exists rest, trace = Sent GetMe :: rest /\ ~ In AcquireSession rest.
Proof.
  unfold protocol. intro H.
  split_matches H; try discriminate; injection H as <- <-;
    eexists; (split; [reflexivity|]); cbn; intuition discriminate.
Qed.

Lemma protocol_after_status (fuel : nat) (w : World) (s : Session) (tier : Z)
    (me_data : dict) (trace : list event) (out : outcome) :
  _check_me w s = Some me_data ->
  protocol fuel w s tier = Some (trace, out) ->
  out <> failure "获取用户信息失败，可能 cf_clearance 无效".
Proof.
  unfold protocol, failure. intros -> H.
  split_matches H; try discriminate; injection H as <- <-; discriminate.
Qed.

(** The protocol meets the session in its requests alone: two worlds whose
    transports answer alike, on whatever sessions, run it alike. *)
Lemma protocol_transport (fuel : nat) (w w' : World) (s s' : Session) (tier : Z) :
  benchmark_hps w' = benchmark_hps w ->
  clock w' = clock w ->
  (forall r, send w' s' r = send w s r) ->
  protocol fuel w' s' tier = protocol fuel w s tier.
Proof.
  intros Hb Hc Hsend.
  assert (Hme : _check_me w' s' = _check_me w s)
    by (unfold _check_me; rewrite Hsend; reflexivity).
  assert (Hch : forall t h, _get_challenge w' s' t h = _get_challenge w s t h)
    by (intros t h; unfold _get_challenge; rewrite Hsend; reflexivity).
  assert (Hsu : forall c n t, _submit w' s' c n t = _submit w s c n t)
    by (intros c n t; unfold _submit; rewrite Hsend; reflexivity).
  unfold protocol. rewrite Hme, Hb, Hc.
  destruct (_check_me w s) as [me|]; [|reflexivity].
  destruct (truthy (get me "signedInToday" JNull)); [reflexivity|].
  rewrite Hch.
  destruct (_get_challenge w s tier (benchmark_hps w)) as [data|]; [|reflexivity].
  destruct (solve fuel (clock w) (get data "challenge" JNull)
              (get data "difficulty" JNull)) as [[r|msg]|]; try reflexivity.
  rewrite Hsu. reflexivity.
Qed.

(** C4, as the code has it. For every account, if the session collaborator
    returns null cookies and headers (or raises), the flow does not ask for a
    session again: it opens a session that carries the sid cookie alone and
    goes on to the status step. The account fails, with the error that the
    user data could not be fetched and cf_clearance may be invalid, exactly
    when the status step yields no user data, and then no challenge is
    requested and nothing is submitted; otherwise the flow continues as it
    does with a clearance: behind a transport that answers alike, the run of
    an account with a clearance takes the same steps after the session is
    opened and ends alike. *)
Theorem execute_without_clearance :
  forall (w : World) (fuel : nat) (account_name sid : string) (tier : Z),
    _get_cf_clearance w account_name = (None, None) ->
    session_error w = None ->
    session_of w account_name sid = mkSession "chrome" [("sid", sid)] []
    /\ (forall trace out,
           execute fuel w account_name sid tier = Some (trace, out) ->
           exists rest,
             trace = AcquireSession
                       :: OpenSession (mkSession "chrome" [("sid", sid)] [])
                       :: Sent GetMe :: rest
             /\ ~ In AcquireSession rest)
    /\ (_check_me w (mkSession "chrome" [("sid", sid)] []) = None ->
        execute fuel w account_name sid tier
        = Some ([AcquireSession; OpenSession (mkSession "chrome" [("sid", sid)] []);
                 Sent GetMe; CloseSession],
                match close_error w with
                | Some msg => Raised msg
                | None => failure "获取用户信息失败，可能 cf_clearance 无效"
                end))
    /\ (forall me_data trace out,
           _check_me w (mkSession "chrome" [("sid", sid)] []) = Some me_data ->
           close_error w = None ->
           execute fuel w account_name sid tier = Some (trace, out) ->
           out <> failure "获取用户信息失败，可能 cf_clearance 无效")
    /\ (forall w' : World,
           session_error w' = None ->
           close_error w' = close_error w ->
           benchmark_hps w' = benchmark_hps w ->
           clock w' = clock w ->
           (forall r : request,
               send w' (session_of w' account_name sid) r
               = send w (mkSession "chrome" [("sid", sid)] []) r) ->
           forall (trace : list event) (out : outcome),
             execute fuel w account_name sid tier
             = Some (AcquireSession
                       :: OpenSession (mkSession "chrome" [("sid", sid)] [])
                       :: trace, out)
             <-> execute fuel w' account_name sid tier
                 = Some (AcquireSession
                           :: OpenSession (session_of w' account_name sid)
                           :: trace, out)).
Proof.
  intros w fuel account_name sid tier Hcf Hs.
  assert (E : session_of w account_name sid = mkSession "chrome" [("sid", sid)] []).
  { unfold session_of. rewrite Hcf. reflexivity. }
  split; [exact E|]. unfold execute. rewrite E, Hs. split; [|split; [|split]].
  - intros trace out H.
    destruct (protocol fuel w _ tier) as [[t o]|] eqn:P; [|discriminate].
    injection H as <- _.
    destruct (protocol_trace _ _ _ _ _ _ P) as [rest [-> Hno]].
    exists (rest ++ [CloseSession]). split; [reflexivity|].
    intro Hin. apply in_app_or in Hin. destruct Hin as [Hin|[Hin|[]]];
      [exact (Hno Hin)|discriminate].
  - intro Hme. unfold protocol. rewrite Hme. reflexivity.
  - intros me_data trace out Hme Hc H. rewrite Hc in H.
    destruct (protocol fuel w _ tier) as [[t o]|] eqn:P; [|discriminate].
    injection H as _ <-.
    exact (protocol_after_status _ _ _ _ _ _ _ Hme P).
  - intros w' Hs' Hc' Hb' Hk' Hsend trace out. rewrite Hs', Hc'.
    rewrite (protocol_transport fuel w w' (mkSession "chrome" [("sid", sid)] [])
               (session_of w' account_name sid) tier Hb' Hk' Hsend).
    destruct (protocol fuel w (mkSession "chrome" [("sid", sid)] []) tier)
      as [[t o]|]; [|split; discriminate].
    split; intro H; injection H as <- <-; reflexivity.
Qed.

End NoClearance.

(** Without a clearance and with a server that is down, the account fails at
    the status step. *)
Lemma execute_without_clearance_witness :
  CheckIn.execute 0 (Examples.world (None, None) Examples.down_server)
    "account_1" "sid-1" 4
  = Some ([CheckIn.AcquireSession;
           CheckIn.OpenSession (CheckIn.mkSession "chrome" [("sid", "sid-1")] []);
           CheckIn.Sent CheckIn.GetMe; CheckIn.CloseSession],
          CheckIn.failure "获取用户信息失败，可能 cf_clearance 无效").
Proof.
  destruct (execute_without_clearance
              (Examples.world (None, None) Examples.down_server)
              0 "account_1" "sid-1" 4 eq_refl eq_refl) as [_ [_ [H _]]].
  exact (H eq_refl).
Defined.

(** C4, as stated, fails: without a clearance the flow still sends the status
    request, and on a server that answers it requests a challenge, solves it,
    submits the nonce and ends successfully. *)
Lemma execute_succeeds_without_clearance :
  CheckIn.execute 8 (Examples.world (None, None) Examples.fresh_server)
    "account_1" "sid-1" 4
  = Some ([CheckIn.AcquireSession;
           CheckIn.OpenSession (CheckIn.mkSession "chrome" [("sid", "sid-1")] []);
           CheckIn.Sent CheckIn.GetMe;
           CheckIn.Benchmark;
           CheckIn.Sent (CheckIn.GetChallenge 4 250000);
           CheckIn.Solve (Py.JStr "c0ffee") (Py.JInt 5);
           CheckIn.Sent (CheckIn.PostSubmit (Py.JStr "id-1") 7 4);
           CheckIn.CloseSession],
          CheckIn.Returned true
            [("reward_final", Py.JStr "9"); ("reward_base", Py.JStr "0");
             ("multiplier", Py.JStr "1"); ("tier_name", Py.JStr "gold");
             ("notes", Py.JStr ""); ("pow_elapsed", Py.JInt 3);
             ("pow_hps", Py.JInt 20)]).
Proof. vm_compute. reflexivity. Qed.

(** ** The digest *)

Section Digest.

Import Py Spec.

Lemma leb_trans (a b c : string) :
  String.leb a b = true -> String.leb b c = true -> String.leb a c = true.
Proof.
  unfold String.leb. revert b c.
  induction a as [|x a IH]; intros b c Hab Hbc.
  - destruct c; reflexivity.
  - destruct b as [|y b]; [discriminate|].
    destruct c as [|z c]; [discriminate|].
    cbn [String.compare] in *. unfold Ascii.compare in *.
    destruct (N.compare_spec (N_of_ascii x) (N_of_ascii y)) as [Exy|Lxy|Gxy];
      [|destruct (N.compare_spec (N_of_ascii y) (N_of_ascii z)) as [Eyz|Lyz|Gyz]
       |discriminate].
    + rewrite Exy.
      destruct (N.compare (N_of_ascii y) (N_of_ascii z));
        [apply (IH b c); assumption|reflexivity|discriminate].
    + rewrite <- Eyz. rewrite (proj2 (N.compare_lt_iff _ _) Lxy). reflexivity.
    + rewrite (proj2 (N.compare_lt_iff _ _) (N.lt_trans _ _ _ Lxy Lyz)). reflexivity.
    + discriminate.
Qed.

Lemma leb_false_flip (a b : string) :
  String.leb a b = false -> String.leb b a = true.
Proof.
  intro H. destruct (String.leb_total a b) as [E|E]; [congruence|exact E].
Qed.

Context {V : Type}.

Lemma insert_item_comm (x y : string * V) (l : list (string * V)) :
  fst x <> fst y ->
  Json.insert_item x (Json.insert_item y l) = Json.insert_item y (Json.insert_item x l).
Proof.
  intro Hne.
  induction l as [|z l IH]; cbn [Json.insert_item].
  - destruct (String.leb (fst x) (fst y)) eqn:Exy;
      destruct (String.leb (fst y) (fst x)) eqn:Eyx; try reflexivity.
    + exfalso. apply Hne. apply String.leb_antisym; assumption.
    + apply leb_false_flip in Exy. congruence.
  - destruct (String.leb (fst x) (fst z)) eqn:Exz;
      destruct (String.leb (fst y) (fst z)) eqn:Eyz; cbn [Json.insert_item];
      rewrite ?Exz, ?Eyz.
    + destruct (String.leb (fst x) (fst y)) eqn:Exy;
        destruct (String.leb (fst y) (fst x)) eqn:Eyx; try reflexivity.
      * exfalso. apply Hne. apply String.leb_antisym; assumption.
      * apply leb_false_flip in Exy. congruence.
    + assert (Eyx : String.leb (fst y) (fst x) = false).
      { destruct (String.leb (fst y) (fst x)) eqn:E; [|reflexivity].
        rewrite (leb_trans _ _ _ E Exz) in Eyz. discriminate. }
      rewrite Eyx. reflexivity.
    + assert (Exy : String.leb (fst x) (fst y) = false).
      { destruct (String.leb (fst x) (fst y)) eqn:E; [|reflexivity].
        rewrite (leb_trans _ _ _ E Eyz) in Exz. discriminate. }
      rewrite Exy. reflexivity.
    + rewrite IH. reflexivity.
Qed.

Lemma sort_items_cons (x : string * V) (l : list (string * V)) :
  Json.sort_items (x :: l) = Json.insert_item x (Json.sort_items l).
Proof. reflexivity. Qed.

Lemma sort_items_Permutation (l1 l2 : list (string * V)) :
  Permutation l1 l2 -> NoDup (map fst l1) ->
  Json.sort_items l1 = Json.sort_items l2.
Proof.
  induction 1 as [|x l l' HP IH|x y l|l l' l'' HP1 IH1 HP2 IH2]; intro Hnd.
  - reflexivity.
  - rewrite !sort_items_cons, IH; [reflexivity|]. inversion Hnd; assumption.
  - rewrite !sort_items_cons. apply insert_item_comm.
    inversion Hnd as [|? ? Hin _]. intro E. apply Hin. left. symmetry. exact E.
  - rewrite IH1 by assumption. apply IH2.
    apply (Permutation_NoDup (Permutation_map fst HP1)). exact Hnd.
Qed.

Lemma insert_item_Permutation (x : string * V) (l : list (string * V)) :
  Permutation (Json.insert_item x l) (x :: l).
Proof.
  induction l as [|y l IH]; cbn [Json.insert_item]; [reflexivity|].
  destruct (String.leb (fst x) (fst y)); [reflexivity|].
  rewrite IH. apply perm_swap.
Qed.

Lemma sort_items_keeps (l : list (string * V)) : Permutation (Json.sort_items l) l.
Proof.
  induction l as [|x l IH]; [reflexivity|].
  rewrite sort_items_cons, insert_item_Permutation. apply perm_skip. exact IH.
Qed.

Lemma insert_item_Sorted (x : string * V) (l : list (string * V)) :
  Sorted key_le l -> Sorted key_le (Json.insert_item x l).
Proof.
  induction l as [|y l IH]; intro Hs; cbn [Json.insert_item].
  - repeat constructor.
  - destruct (String.leb (fst x) (fst y)) eqn:E.
    + constructor; [exact Hs|]. constructor. exact E.
    + inversion Hs as [|? ? Hl Hhd]; subst.
      constructor; [apply IH; exact Hl|].
      destruct l as [|z l]; cbn [Json.insert_item].
      * constructor. apply leb_false_flip. exact E.
      * destruct (String.leb (fst x) (fst z)).
        -- constructor. apply leb_false_flip. exact E.
        -- inversion Hhd; subst. constructor. assumption.
Qed.

Lemma sort_items_Sorted (l : list (string * V)) : Sorted key_le (Json.sort_items l).
Proof.
  induction l as [|x l IH]; [constructor|].
  rewrite sort_items_cons. apply insert_item_Sorted. exact IH.
Qed.

End Digest.

Section DigestOfResults.

Import Py Spec.

Lemma set_fresh {V : Type} (d : list (string * V)) (k : string) (v : V) :
  ~ In k (map fst d) -> set d k v = d ++ [(k, v)].
Proof.
  induction d as [|[k' w] d IH]; intro Hk; cbn [set app]; [reflexivity|].
  destruct (String.eqb_spec k' k) as [->|_].
  - exfalso. apply Hk. left. reflexivity.
  - rewrite IH; [reflexivity|]. intro Hin. apply Hk. right. exact Hin.
Qed.

Lemma rewards_fold (results : list (string * dict)) :
  forall acc : dict,
    NoDup (map fst acc ++ map fst results) ->
    fold_left
      (fun rewards ki =>
         let '(key, info) := ki in
         if truthy (JDict info)
         then set rewards key (get info "reward_final" (JStr "0"))
         else rewards)
      results acc
    = acc ++ successful_rewards results.
Proof.
  unfold successful_rewards.
  induction results as [|[key info] results IH]; intros acc Hnd;
    cbn [fold_left filter map snd fst].
  - rewrite app_nil_r. reflexivity.
  - cbn [map fst] in Hnd.
    destruct (truthy (JDict info)) eqn:Et.
    + rewrite set_fresh.
      * rewrite IH.
        -- cbn [map fst snd]. rewrite <- app_assoc. reflexivity.
        -- rewrite map_app, <- app_assoc. exact Hnd.
      * intro Hin. apply NoDup_remove_2 in Hnd. apply Hnd.
        apply in_or_app. left. exact Hin.
    + apply IH. apply NoDup_remove_1 in Hnd. exact Hnd.
Qed.

Lemma rewards_of_successful (results : list (string * dict)) :
  NoDup (map fst results) ->
  Main.rewards_of results = successful_rewards results.
Proof.
  intro Hnd. unfold Main.rewards_of. rewrite rewards_fold; [reflexivity|exact Hnd].
Qed.

Lemma successful_rewards_keys (results : list (string * dict)) :
  NoDup (map fst results) -> NoDup (map fst (successful_rewards results)).
Proof.
  unfold successful_rewards. rewrite map_map. cbn [fst].
  induction results as [|[k info] results IH]; intro Hnd; cbn [filter map fst snd];
    [constructor|].
  inversion Hnd as [|? ? Hin Hrest]; subst.
  destruct (truthy (JDict info)); [|apply IH; exact Hrest].
  cbn [map fst]. constructor; [|apply IH; exact Hrest].
  intro H. apply Hin. clear - H.
  induction results as [|[k' i'] results IH]; cbn [filter map fst snd] in *; [exact H|].
  destruct (truthy (JDict i')); [destruct H as [H|H]; [left; exact H|]|];
    right; apply IH; exact H.
Qed.

Lemma successful_rewards_Permutation (r1 r2 : list (string * dict)) :
  Permutation r1 r2 -> Permutation (successful_rewards r1) (successful_rewards r2).
Proof.
  intro HP. unfold successful_rewards. apply Permutation_map.
  induction HP as [|x l l' HP IH|x y l|l l' l'' HP1 IH1 HP2 IH2]; cbn [filter].
  - constructor.
  - match goal with |- context [if ?c then _ else _] => destruct c end;
      [apply perm_skip|]; exact IH.
  - repeat match goal with |- context [if ?c then _ else _] => destruct c end;
      try reflexivity. apply perm_swap.
  - exact (perm_trans IH1 IH2).
Qed.

Lemma canonical_text_Permutation (d1 d2 : dict) :
  NoDup (map fst d1) -> Permutation d1 d2 -> canonical_text d1 = canonical_text d2.
Proof.
  intros Hnd HP. unfold canonical_text, Json.object_text.
  rewrite (sort_items_Permutation
             (map (fun kv => (fst kv, Json.dumps (snd kv))) d1)
             (map (fun kv => (fst kv, Json.dumps (snd kv))) d2)).
  - reflexivity.
  - apply Permutation_map. exact HP.
  - rewrite map_map. cbn [fst]. exact Hnd.
Qed.

Lemma dumps_dict (d : dict) : Json.dumps (JDict d) = canonical_text d.
Proof.
  unfold canonical_text. cbn [Json.dumps]. f_equal.
  apply map_ext. intros [k v]. reflexivity.
Qed.

Lemma hash_of_results (results : list (string * dict)) :
  NoDup (map fst results) -> results <> [] ->
  Main.generate_checkin_hash results
  = take 16 (SHA256.hexdigest (encode (canonical_text (successful_rewards results)))).
Proof.
  intros Hnd Hne. unfold Main.generate_checkin_hash.
  destruct results as [|r results]; [contradiction|].
  rewrite dumps_dict, rewards_of_successful by exact Hnd. reflexivity.
Qed.

Lemma hex_digit_is_hex (z : Z) : 0 <= z < 16 -> is_hex (hex_digit z) = true.
Proof.
  intro H.
  assert (C : z = 0 \/ z = 1 \/ z = 2 \/ z = 3 \/ z = 4 \/ z = 5 \/ z = 6 \/ z = 7
              \/ z = 8 \/ z = 9 \/ z = 10 \/ z = 11 \/ z = 12 \/ z = 13 \/ z = 14
              \/ z = 15) by lia.
  repeat (destruct C as [->|C]; [reflexivity|]). subst. reflexivity.
Qed.

Lemma take_hex (l : list byte) :
  forall n : nat,
    all_hex (take n (hex l)) = true
    /\ ((n <= 2 * List.length l)%nat -> String.length (take n (hex l)) = n).
Proof.
  assert (R : forall x : byte, 0 <= Z_of_byte x < 256).
  { intro x. unfold Z_of_byte. pose proof (Byte.to_N_bounded x). lia. }
  induction l as [|x l IH]; intro n.
  - destruct n; cbn; split; intros; (reflexivity || lia).
  - destruct n as [|[|n]]; cbn [hex take all_hex String.length List.length].
    + split; intros; reflexivity.
    + rewrite hex_digit_is_hex by (specialize (R x); split;
        [apply Z.div_pos|apply Z.div_lt_upper_bound]; lia).
      split; intros; reflexivity.
    + rewrite !hex_digit_is_hex;
        [|specialize (R x); apply Z.mod_pos_bound; lia
         |specialize (R x); split;
          [apply Z.div_pos|apply Z.div_lt_upper_bound]; lia].
      destruct (IH n) as [H1 H2]. cbn [andb]. split; [exact H1|].
      intro Hn. rewrite H2 by lia. reflexivity.
Qed.

Lemma hash_length (results : list (string * dict)) :
  NoDup (map fst results) -> results <> [] ->
  String.length (Main.generate_checkin_hash results) = 16%nat.
Proof.
  intros Hnd Hne. rewrite hash_of_results by assumption.
  unfold SHA256.hexdigest. apply take_hex. rewrite digest_length. lia.
Qed.

End DigestOfResults.

(** C8, as the code has it. For every results map that is not empty, the
    digest is the first 16 hexadecimal characters of the SHA-256 of the
    canonical text of its rewards: the [reward_final] of every account with a
    result, under the account's name, members in the lexicographic order of
    their keys, a single comma between members and a single colon after a key.
    It is a function of these rewards alone (two maps whose rewards agree up to
    order have the same digest), so permuting the entries of the map leaves it
    unchanged. (The digest of the empty map is the empty string.) *)
Theorem generate_checkin_hash_canonical :
  forall results : list (string * Py.dict),
    NoDup (map fst results) ->
    results <> [] ->
    Main.generate_checkin_hash results
    = Py.take 16 (SHA256.hexdigest
                    (Py.encode (Spec.canonical_text (Spec.successful_rewards results))))
    /\ String.length (Main.generate_checkin_hash results) = 16%nat
    /\ Spec.all_hex (Main.generate_checkin_hash results) = true
    /\ (forall members : list (string * string),
          Sorted Spec.key_le (Json.sort_items members)
          /\ Permutation (Json.sort_items members) members
          /\ Json.object_text members
             = ("{" ++ String.concat "," (map Json.member (Json.sort_items members))
                ++ "}")%string)
    /\ (forall results' : list (string * Py.dict),
          NoDup (map fst results') ->
          results' <> [] ->
          Permutation (Spec.successful_rewards results')
            (Spec.successful_rewards results) ->
          Main.generate_checkin_hash results' = Main.generate_checkin_hash results)
    /\ (forall results' : list (string * Py.dict),
          Permutation results' results ->
          Main.generate_checkin_hash results' = Main.generate_checkin_hash results).
Proof.
  intros results Hnd Hne.
  assert (Same : forall results' : list (string * Py.dict),
             NoDup (map fst results') -> results' <> [] ->
             Permutation (Spec.successful_rewards results')
               (Spec.successful_rewards results) ->
             Main.generate_checkin_hash results' = Main.generate_checkin_hash results).
  { intros results' Hnd' Hne' HP.
    rewrite !hash_of_results by assumption.
    rewrite (canonical_text_Permutation _ _ (successful_rewards_keys _ Hnd') HP).
    reflexivity. }
  pose proof (hash_of_results results Hnd Hne) as E.
  split; [exact E|].
  split; [|split; [|split; [|split; [exact Same|]]]].
  - apply hash_length; assumption.
  - rewrite E. unfold SHA256.hexdigest. apply take_hex.
  - intro members. split; [apply sort_items_Sorted|].
    split; [apply sort_items_keeps|reflexivity].
  - intros results' HP. apply Same.
    + apply (Permutation_NoDup (Permutation_map fst (Permutation_sym HP))). exact Hnd.
    + intros ->. apply Permutation_nil in HP. exact (Hne HP).
    + apply successful_rewards_Permutation. exact HP.
Qed.

(** The digest of two accounts, whichever was processed first. *)
Lemma generate_checkin_hash_canonical_witness :
  Main.generate_checkin_hash Examples.two_results = "9170a043b9207974"
  /\ Main.generate_checkin_hash Examples.two_results_swapped = "9170a043b9207974"
  /\ Spec.canonical_text (Spec.successful_rewards Examples.two_results_swapped)
     = ("{" ++ Json.dquote ++ "account_1" ++ Json.dquote ++ ":"
        ++ Json.dquote ++ "5" ++ Json.dquote ++ ","
        ++ Json.dquote ++ "account_2" ++ Json.dquote ++ ":"
        ++ Json.dquote ++ "9" ++ Json.dquote ++ "}")%string.
Proof.
  assert (Hnd : NoDup (map fst Examples.two_results)).
  { repeat constructor; cbn; intuition discriminate. }
  assert (Hne : Examples.two_results <> []) by discriminate.
  destruct (generate_checkin_hash_canonical Examples.two_results Hnd Hne)
    as [_ [_ [_ [_ [_ H]]]]].
  split; [vm_compute; reflexivity|].
  split; [|vm_compute; reflexivity].
  rewrite (H Examples.two_results_swapped) by apply perm_swap.
  vm_compute. reflexivity.
Defined.

(** C8, as stated, fails at the empty results map: its digest is the empty
    string, not a string of 16 hexadecimal characters; and a map that holds
    one account with an empty result has the same rewards (none) and another
    digest. *)
Lemma generate_checkin_hash_empty :
  Main.generate_checkin_hash [] = ""
  /\ String.length (Main.generate_checkin_hash []) = 0%nat
  /\ Spec.successful_rewards [("account_1", [])] = Spec.successful_rewards []
  /\ Main.generate_checkin_hash [("account_1", [])] = "44136fa355b3678a".
Proof. repeat split. Qed.

(** ** The account loop *)

Section AccountLoop.

Import Py Spec.

Variable fuel : nat.
Variable worlds : nat -> CheckIn.World.
Variable tier : Z.

Lemma str_of_N_inj (n m : N) : str_of_N n = str_of_N m -> n = m.
Proof.
  unfold str_of_N. intro H.
  assert (NN : forall k : N, N.to_uint k <> Decimal.Nil).
  { intros k E. pose proof (DecimalN.Unsigned.of_to k) as T.
    rewrite E in T. cbn in T. subst k. discriminate. }
  pose proof (NilZero.usu _ (NN n)) as Un.
  pose proof (NilZero.usu _ (NN m)) as Um.
  rewrite H, Um in Un. injection Un as E.
  rewrite <- (DecimalN.Unsigned.of_to n), <- (DecimalN.Unsigned.of_to m), E.
  reflexivity.
Qed.

Lemma account_name_of_inj (i j : nat) :
  Main.account_name_of i = Main.account_name_of j -> i = j.
Proof.
  unfold Main.account_name_of. cbn [String.append]. intro H.
  injection H as H. apply str_of_N_inj in H. lia.
Qed.

Lemma successes_keys (vs : list verdict) :
  forall (i : nat) (k : string),
    In k (map fst (successes i vs)) ->
    exists j, (i <= j)%nat /\ k = Main.account_name_of j.
Proof.
  induction vs as [|v vs IH]; intros i k Hin; [destruct Hin|].
  destruct v; cbn [successes map fst] in Hin;
    try (destruct (IH _ _ Hin) as [j [Hj ->]]; exists j; split; [lia|reflexivity]).
  destruct Hin as [<-|Hin].
  - exists i. split; [lia|reflexivity].
  - destruct (IH _ _ Hin) as [j [Hj ->]]. exists j. split; [lia|reflexivity].
Qed.

Lemma filter_entries_push (st : Main.state) (l : Main.line) :
  filter is_entry (Main.notification_content (Main.push st l))
  = filter is_entry (Main.notification_content st)
    ++ (if is_entry l then [l] else []).
Proof.
  unfold Main.push. cbn [Main.notification_content].
  rewrite filter_app. cbn [filter]. destruct (is_entry l); reflexivity.
Qed.

(** One turn of the loop, from the verdict on its account. *)
Lemma turn_verdict (st : Main.state) (i : nat) (sid : string) (v : verdict) :
  verdict_of fuel (worlds i) tier (Main.account_name_of i) sid = Some v ->
  exists st',
    Main.turn fuel worlds tier st i sid = Some st'
    /\ Main.success_count st'
       = Main.success_count st + (if is_success v then 1 else 0)
    /\ filter is_entry (Main.notification_content st')
       = filter is_entry (Main.notification_content st)
         ++ [entry (Main.account_name_of i) v]
    /\ Main.current_info st'
       = match v with
         | Succeeded result =>
             set (Main.current_info st) (Main.account_name_of i) result
         | _ => Main.current_info st
         end.
Proof.
  intro Hv. unfold Main.turn.
  set (st0 := match Main.notification_content st with
              | [] => st
              | _ => Main.push st Main.Separator
              end).
  assert (E0 : Main.success_count st0 = Main.success_count st
               /\ filter is_entry (Main.notification_content st0)
                  = filter is_entry (Main.notification_content st)
               /\ Main.current_info st0 = Main.current_info st).
  { subst st0. destruct (Main.notification_content st) eqn:En.
    - rewrite En. repeat split.
    - rewrite filter_entries_push, En. cbn [is_entry]. rewrite app_nil_r.
      repeat split. }
  destruct E0 as [Ec [Ef Ei]]. rewrite <- Ec, <- Ef, <- Ei. clearbody st0.
  unfold verdict_of in Hv. unfold Main.attempt.
  destruct (CheckIn.proxy_resolve_error (worlds i)) as [msg|].
  - injection Hv as <-. eexists. split; [reflexivity|].
    rewrite filter_entries_push. cbn. repeat split. lia.
  - destruct (CheckIn.execute fuel (worlds i) (Main.account_name_of i) sid tier)
      as [[trace [[|] result|msg]]|]; [| | |discriminate]; injection Hv as <-.
    + cbn [entry is_success].
      destruct (truthy (get result "already_signed" JNull));
        (eexists; split; [reflexivity|]);
        rewrite filter_entries_push; cbn; repeat split.
    + eexists. split; [reflexivity|].
      rewrite filter_entries_push. cbn. repeat split. lia.
    + eexists. split; [reflexivity|].
      rewrite filter_entries_push. cbn. repeat split. lia.
Qed.

Lemma turn_ends (st : Main.state) (i : nat) (sid : string) (st' : Main.state) :
  Main.turn fuel worlds tier st i sid = Some st' ->
  exists v, verdict_of fuel (worlds i) tier (Main.account_name_of i) sid = Some v.
Proof.
  unfold Main.turn, Main.attempt, verdict_of.
  destruct (CheckIn.proxy_resolve_error (worlds i)); [eexists; reflexivity|].
  destruct (CheckIn.execute fuel (worlds i) (Main.account_name_of i) sid tier)
    as [[trace [[|] result|msg]]|]; intro H;
    [eexists; reflexivity..|discriminate].
Qed.

Lemma accounts_loop_verdicts (sids : list string) :
  forall (i : nat) (st : Main.state) (vs : list verdict),
    verdicts fuel worlds tier i sids = Some vs ->
    (forall k, In k (map fst (Main.current_info st)) ->
               exists j, (j < i)%nat /\ k = Main.account_name_of j) ->
    exists st',
      Main.accounts_loop fuel worlds tier st i sids = Some st'
      /\ Main.success_count st'
         = Main.success_count st + Z.of_nat (List.length (filter is_success vs))
      /\ filter is_entry (Main.notification_content st')
         = filter is_entry (Main.notification_content st) ++ entries i vs
      /\ Main.current_info st' = Main.current_info st ++ successes i vs.
Proof.
  induction sids as [|sid sids IH]; intros i st vs Hvs Hold;
    cbn [verdicts Main.accounts_loop] in *.
  - injection Hvs as <-. exists st. cbn. rewrite !app_nil_r. repeat split. lia.
  - destruct (verdict_of fuel (worlds i) tier (Main.account_name_of i) sid)
      as [v|] eqn:Ev; [|discriminate].
    destruct (verdicts fuel worlds tier (S i) sids) as [vs'|] eqn:Evs; [|discriminate].
    injection Hvs as <-.
    destruct (turn_verdict st i sid v Ev) as [st1 [Ht [Hc [Hf Hi]]]].
    rewrite Ht.
    assert (Hfresh : ~ In (Main.account_name_of i) (map fst (Main.current_info st))).
    { intro Hin. destruct (Hold _ Hin) as [j [Hj E]].
      apply account_name_of_inj in E. lia. }
    assert (Hi' : Main.current_info st1
                  = Main.current_info st
                    ++ (match v with
                        | Succeeded result => [(Main.account_name_of i, result)]
                        | _ => []
                        end)).
    { rewrite Hi. destruct v; rewrite ?app_nil_r; try reflexivity.
      apply set_fresh. exact Hfresh. }
    destruct (IH (S i) st1 vs' Evs) as [st' [Hl [Hc' [Hf' Hi'']]]].
    { intros k Hin. rewrite Hi', map_app in Hin. apply in_app_or in Hin.
      destruct Hin as [Hin|Hin].
      - destruct (Hold _ Hin) as [j [Hj ->]]. exists j. split; [lia|reflexivity].
      - destruct v; cbn in Hin; try contradiction.
        destruct Hin as [<-|[]]. exists i. split; [lia|reflexivity]. }
    exists st'. split; [exact Hl|]. split; [|split].
    + rewrite Hc', Hc. destruct v; cbn [filter is_success List.length]; lia.
    + rewrite Hf', Hf, <- app_assoc. reflexivity.
    + rewrite Hi'', Hi', <- app_assoc. destruct v; reflexivity.
Qed.

Lemma accounts_loop_ends (sids : list string) :
  forall (i : nat) (st st' : Main.state),
    Main.accounts_loop fuel worlds tier st i sids = Some st' ->
    exists vs, verdicts fuel worlds tier i sids = Some vs.
Proof.
  induction sids as [|sid sids IH]; intros i st st' H;
    cbn [verdicts Main.accounts_loop] in *; [eexists; reflexivity|].
  destruct (Main.turn fuel worlds tier st i sid) as [st1|] eqn:Et; [|discriminate].
  destruct (turn_ends _ _ _ _ Et) as [v ->].
  destruct (IH _ _ _ H) as [vs ->]. eexists. reflexivity.
Qed.

Lemma entries_length (vs : list verdict) :
  forall i, List.length (entries i vs) = List.length vs.
Proof. induction vs as [|v vs IH]; intro i; cbn; [|rewrite IH]; reflexivity. Qed.

Lemma verdicts_length (sids : list string) :
  forall i vs, verdicts fuel worlds tier i sids = Some vs ->
               List.length vs = List.length sids.
Proof.
  induction sids as [|sid sids IH]; intros i vs H; cbn [verdicts] in H.
  - injection H as <-. reflexivity.
  - destruct (verdict_of _ _ _ _ _); [|discriminate].
    destruct (verdicts fuel worlds tier (S i) sids) eqn:E; [|discriminate].
    injection H as <-. cbn. f_equal. exact (IH _ _ E).
Qed.

Lemma successes_length (vs : list verdict) :
  forall i, List.length (successes i vs) = List.length (filter is_success vs).
Proof.
  induction vs as [|v vs IH]; intro i; [reflexivity|].
  destruct v; cbn; rewrite IH; reflexivity.
Qed.

End AccountLoop.

Lemma verdicts_nth (fuel : nat) (worlds : nat -> CheckIn.World) (tier : Z)
    (sids : list string) :
  forall (k : nat) (vs : list Spec.verdict),
    Spec.verdicts fuel worlds tier k sids = Some vs ->
    forall (i : nat) (sid : string),
      nth_error sids i = Some sid ->
      exists v : Spec.verdict,
        Spec.verdict_of fuel (worlds (k + i)%nat) tier
          (Main.account_name_of (k + i)) sid = Some v
        /\ nth_error (Spec.entries k vs) i
           = Some (Spec.entry (Main.account_name_of (k + i)) v).
Proof.
  induction sids as [|s sids IH]; intros k vs Hvs [|i] sid Hn;
    cbn [nth_error Spec.verdicts] in *; try discriminate;
    destruct (Spec.verdict_of fuel (worlds k) tier (Main.account_name_of k) s)
      as [v|] eqn:Ev; try discriminate;
    destruct (Spec.verdicts fuel worlds tier (S k) sids) as [vs'|] eqn:Evs;
    try discriminate;
    injection Hvs as <-.
  - injection Hn as <-. rewrite Nat.add_0_r. exists v. split; [exact Ev|reflexivity].
  - destruct (IH (S k) vs' Evs i sid Hn) as [v' [Hv' Hn']].
    replace (S k + i)%nat with (k + S i)%nat in Hv', Hn' by lia.
    exists v'. split; [exact Hv'|]. cbn [Spec.entries nth_error]. exact Hn'.
Qed.

Section Blocked.

Import Py Spec.

(** An account that is asked for more than 256 bits is searched for ever. *)
Lemma execute_blocked (w : CheckIn.World) (fuel : nat) (account_name sid : string)
    (tier : Z) (me user data : dict) (prefix : string)
    (challenge_id difficulty : json) (bits : Z) :
  CheckIn.session_error w = None ->
  CheckIn.send w (CheckIn.session_of w account_name sid) CheckIn.GetMe
  = CheckIn.Resolved (JDict me) ->
  lookup "user" me = Some (JDict user) ->
  truthy (get me "signedInToday" JNull) = false ->
  CheckIn.send w (CheckIn.session_of w account_name sid)
    (CheckIn.GetChallenge tier (CheckIn.benchmark_hps w))
  = CheckIn.Resolved (JDict data) ->
  lookup "challenge" data = Some (JStr prefix) ->
  encode_error (prefix ++ ":")%string = None ->
  lookup "challengeId" data = Some challenge_id ->
  lookup "difficulty" data = Some difficulty ->
  as_int difficulty = Some bits ->
  256 < bits ->
  CheckIn.execute fuel w account_name sid tier = None.
Proof.
  intros Hs Hme Hu Hn Hch Hp Henc Hi Hd Hb Hbig.
  unfold CheckIn.execute. rewrite Hs.
  assert (Eme : CheckIn._check_me w (CheckIn.session_of w account_name sid) = Some me).
  { unfold CheckIn._check_me. rewrite Hme. unfold has_key. rewrite Hu, Hn.
    destruct me; [discriminate|reflexivity]. }
  assert (Ec : CheckIn._get_challenge w (CheckIn.session_of w account_name sid) tier
                 (CheckIn.benchmark_hps w) = Some data).
  { unfold CheckIn._get_challenge. rewrite Hch. unfold has_key. rewrite Hp, Hi, Hd.
    destruct data; [discriminate|reflexivity]. }
  unfold CheckIn.protocol. rewrite Eme, Hn, Ec.
  unfold get. rewrite Hp, Hd. unfold CheckIn.solve. rewrite Hb.
  unfold Pow.calculate_nonce. rewrite Henc, search_in_vain; [reflexivity|].
  intro n. apply no_solution_above_256. exact Hbig.
Qed.

Lemma accounts_loop_blocked (fuel : nat) (worlds : nat -> CheckIn.World) (tier : Z)
    (sids : list string) :
  forall (k i : nat) (sid : string) (st : Main.state),
    nth_error sids k = Some sid ->
    CheckIn.proxy_resolve_error (worlds (i + k)%nat) = None ->
    CheckIn.execute fuel (worlds (i + k)%nat) (Main.account_name_of (i + k)) sid tier
    = None ->
    Main.accounts_loop fuel worlds tier st i sids = None.
Proof.
  induction sids as [|s sids IH]; intros [|k] i sid st Hn Hp He;
    cbn [nth_error] in Hn; try discriminate; cbn [Main.accounts_loop].
  - injection Hn as ->. rewrite Nat.add_0_r in Hp, He.
    unfold Main.turn, Main.attempt. rewrite Hp, He. reflexivity.
  - destruct (Main.turn fuel worlds tier st i s) as [st'|]; [|reflexivity].
    apply (IH k (S i) sid); [exact Hn| |];
      replace (S i + k)%nat with (i + S k)%nat by lia; assumption.
Qed.

End Blocked.

(** C9, as the code has it. For every ordered sequence of accounts whose runs
    end: the loop ends; every account leaves exactly one entry, in the order
    of the accounts, and that entry is the one of the verdict on the account
    itself, which is computed from the account's own world, name and sid (an
    exception that leaves [execute] or the constructor, and a returned
    failure, are entries like any other, and the loop goes on to the next
    account); the success count is the number of verdicts that are not
    failures, and it is the number of results kept for the digest.
    Conversely, when the loop ends, every run has ended: an account whose run
    does not end keeps the loop from ending, and every account after it from
    being processed. *)
Theorem accounts_loop_isolates :
  forall (fuel : nat) (worlds : nat -> CheckIn.World) (tier : Z)
         (sids : list string),
    (forall vs : list Spec.verdict,
        Spec.verdicts fuel worlds tier 0 sids = Some vs ->
        exists st : Main.state,
          Main.accounts_loop fuel worlds tier Main.initial 0 sids = Some st
          /\ filter Spec.is_entry (Main.notification_content st) = Spec.entries 0 vs
          /\ List.length (filter Spec.is_entry (Main.notification_content st))
             = List.length sids
          /\ (forall (i : nat) (sid : string),
                nth_error sids i = Some sid ->
                exists v : Spec.verdict,
                  Spec.verdict_of fuel (worlds i) tier (Main.account_name_of i) sid
                  = Some v
                  /\ nth_error (filter Spec.is_entry (Main.notification_content st)) i
                     = Some (Spec.entry (Main.account_name_of i) v))
          /\ Main.success_count st
             = Z.of_nat (List.length (filter Spec.is_success vs))
          /\ Main.current_info st = Spec.successes 0 vs
          /\ Z.of_nat (List.length (Main.current_info st)) = Main.success_count st)
    /\ (forall st : Main.state,
          Main.accounts_loop fuel worlds tier Main.initial 0 sids = Some st ->
          exists vs, Spec.verdicts fuel worlds tier 0 sids = Some vs)
    /\ (forall (k : nat) (sid : string),
          nth_error sids k = Some sid ->
          Spec.verdict_of fuel (worlds k) tier (Main.account_name_of k) sid = None ->
          Main.accounts_loop fuel worlds tier Main.initial 0 sids = None).
Proof.
  intros fuel worlds tier sids. split; [|split].
  - intros vs Hvs.
    destruct (accounts_loop_verdicts fuel worlds tier sids 0 Main.initial vs Hvs)
      as [st [Hl [Hc [Hf Hi]]]]; [intros k []|].
    cbn in Hc, Hf, Hi.
    exists st. split; [exact Hl|]. split; [exact Hf|]. split; [|split; [|split; [|split]]].
    + rewrite Hf, entries_length. exact (verdicts_length _ _ _ _ _ _ Hvs).
    + rewrite Hf. intros i sid Hn.
      exact (verdicts_nth fuel worlds tier sids 0 vs Hvs i sid Hn).
    + exact Hc.
    + exact Hi.
    + rewrite Hi, successes_length, Hc. reflexivity.
  - intros st H. exact (accounts_loop_ends _ _ _ _ _ _ _ H).
  - intros k sid Hn Hv.
    destruct (Main.accounts_loop fuel worlds tier Main.initial 0 sids) as [st|] eqn:El;
      [|reflexivity].
    destruct (accounts_loop_ends _ _ _ _ _ _ _ El) as [vs Hvs].
    destruct (verdicts_nth fuel worlds tier sids 0 vs Hvs k sid Hn) as [v [Hv' _]].
    cbn [Nat.add] in Hv'. rewrite Hv in Hv'. discriminate.
Qed.

(** Three accounts of which the second raises: the first and the third keep
    their results, and two successes are counted. *)
Lemma accounts_loop_isolates_witness :
  exists st : Main.state,
    Main.accounts_loop 8 Examples.three_worlds 4 Main.initial 0
      ["sid-1"; "sid-2"; "sid-3"] = Some st
    /\ Main.success_count st = 2
    /\ filter Spec.is_entry (Main.notification_content st)
       = [Main.AlreadySignedLine "account_1" (Py.JStr "5") (Py.JStr "");
          Main.ExceptionLine "account_2" "Failed to initialise session";
          Main.RewardLine "account_3" (Py.JStr "9") (Py.JStr "gold")
            (Py.JInt 3) (Py.JInt 20)]
    /\ map fst (Main.current_info st) = ["account_1"; "account_3"].
Proof.
  destruct (accounts_loop_isolates 8 Examples.three_worlds 4
              ["sid-1"; "sid-2"; "sid-3"]) as [H _].
  destruct (H [Spec.Succeeded
                 [("reward_final", Py.JStr "5"); ("tier_name", Py.JStr "");
                  ("already_signed", Py.JBool true)];
               Spec.Crashed "Failed to initialise session";
               Spec.Succeeded
                 [("reward_final", Py.JStr "9"); ("reward_base", Py.JStr "0");
                  ("multiplier", Py.JStr "1"); ("tier_name", Py.JStr "gold");
                  ("notes", Py.JStr ""); ("pow_elapsed", Py.JInt 3);
                  ("pow_hps", Py.JInt 20)]])
    as [st [Hl [Hf [_ [_ [Hc [Hi _]]]]]]]; [vm_compute; reflexivity|].
  exists st. split; [exact Hl|]. split; [rewrite Hc; reflexivity|].
  split; [rewrite Hf; reflexivity|rewrite Hi; reflexivity].
Defined.

(** C9, as stated, fails: of three accounts, the second is asked for 300
    leading zero bits. Its search has no end, so the loop has none, whatever
    the number of steps it is given, and the third account, which would have
    succeeded, produces no result. *)
Lemma accounts_loop_blocked_by_sibling :
  (exists result : Py.dict,
      Spec.verdict_of 8 (Examples.blocked_worlds 2) 4 (Main.account_name_of 2) "sid-3"
      = Some (Spec.Succeeded result))
  /\ (forall fuel : nat,
         Spec.verdict_of fuel (Examples.blocked_worlds 1) 4 (Main.account_name_of 1)
           "sid-2" = None)
  /\ (forall fuel : nat,
         Main.accounts_loop fuel Examples.blocked_worlds 4 Main.initial 0
           ["sid-1"; "sid-2"; "sid-3"] = None).
Proof.
  assert (Hex : forall fuel : nat,
             CheckIn.execute fuel (Examples.blocked_worlds 1) (Main.account_name_of 1)
               "sid-2" 4 = None).
  { intro fuel.
    exact (execute_blocked (Examples.blocked_worlds 1) fuel (Main.account_name_of 1)
             "sid-2" 4
             [("user", Py.JDict [("name", Py.JStr "ann")]);
              ("signedInToday", Py.JBool false)]
             [("name", Py.JStr "ann")]
             [("challenge", Py.JStr "c0ffee"); ("challengeId", Py.JStr "id-1");
              ("difficulty", Py.JInt 300)]
             "c0ffee" (Py.JStr "id-1") (Py.JInt 300) 300
             eq_refl eq_refl eq_refl eq_refl eq_refl eq_refl eq_refl eq_refl eq_refl
             eq_refl eq_refl). }
  split; [eexists; vm_compute; reflexivity|]. split.
  - intro fuel. unfold Spec.verdict_of. rewrite Hex. reflexivity.
  - intro fuel.
    exact (accounts_loop_blocked fuel Examples.blocked_worlds 4
             ["sid-1"; "sid-2"; "sid-3"] 1 0 "sid-2" Main.initial eq_refl eq_refl
             (Hex fuel)).
Qed.

(** ** The digest file *)

Section DigestFile.

Import Py Spec.

Lemma successes_NoDup (vs : list verdict) :
  forall i, NoDup (map fst (successes i vs)).
Proof.
  induction vs as [|v vs IH]; intro i; [constructor|].
  destruct v; cbn [successes map fst]; try apply IH.
  constructor; [|apply IH].
  intro Hin. destruct (successes_keys _ _ _ Hin) as [j [Hj E]].
  apply account_name_of_inj in E. lia.
Qed.

(** C10. For every run of [main] that ends: when no account has succeeded, the
    results map is empty, its digest is the empty string, [save_balance_hash]
    is not called and the digest file holds what it held before; the digest
    file is written only when at least one account has succeeded, and then
    with the 16 characters of the digest of the results. The digest of the
    empty results map is the empty string. *)
Theorem main_digest_file :
  forall (fuel : nat) (worlds : nat -> CheckIn.World) (tier : Z)
         (push_error : option string) (file : Main.digest_file)
         (sids : list string) (r : Main.run),
    Main.main fuel worlds tier push_error file sids = Some r ->
    Main.generate_checkin_hash [] = ""
    /\ Main.current_hash r = Main.generate_checkin_hash (Main.current_info (Main.final r))
    /\ (Main.success_count (Main.final r) = 0 ->
        Main.current_info (Main.final r) = []
        /\ Main.current_hash r = ""
        /\ Main.saved r = None
        /\ Main.stored r = file)
    /\ (forall value : string,
          Main.saved r = Some value ->
          0 < Main.success_count (Main.final r)
          /\ value = Main.current_hash r
          /\ String.length value = 16%nat
          /\ Main.stored r = Some value)
    /\ (Main.saved r = None -> Main.stored r = file).
Proof.
  intros fuel worlds tier push_error file sids r H.
  split; [reflexivity|].
  unfold Main.main in H. destruct sids as [|sid sids].
  { injection H as <-. cbn [Main.final Main.current_hash Main.stored Main.saved
                             Main.initial Main.success_count Main.current_info].
    split; [reflexivity|]. split; [intros _; repeat split|].
    split; [intros value C; discriminate|reflexivity]. }
  destruct (Main.accounts_loop fuel worlds tier Main.initial 0 (sid :: sids))
    as [st|] eqn:El; [|discriminate].
  destruct (accounts_loop_ends _ _ _ _ _ _ _ El) as [vs Hvs].
  destruct (accounts_loop_verdicts fuel worlds tier (sid :: sids) 0 Main.initial vs Hvs)
    as [st' [El' [Hc [_ Hi]]]]; [intros k []|].
  rewrite El in El'. injection El' as <-. cbn in Hc, Hi.
  assert (Hn : Z.of_nat (List.length (Main.current_info st)) = Main.success_count st)
    by (rewrite Hi, successes_length, Hc; reflexivity).
  assert (Hempty : Main.current_info st = [] ->
                   Main.generate_checkin_hash (Main.current_info st) = "")
    by (intros ->; reflexivity).
  assert (Hlen : Main.current_info st <> [] ->
                 String.length (Main.generate_checkin_hash (Main.current_info st))
                 = 16%nat).
  { intro Hne. apply hash_length; [rewrite Hi; apply successes_NoDup|exact Hne]. }
  set (h := Main.generate_checkin_hash (Main.current_info st)) in *.
  assert (Hzero : Main.success_count st = 0 -> Main.current_info st = []).
  { intro Z0. rewrite Z0 in Hn. destruct (Main.current_info st); [reflexivity|].
    cbn in Hn. lia. }
  destruct (if _ && _ then push_error else None) as [msg|];
    injection H as <-; cbn [Main.final Main.current_hash Main.stored Main.saved].
  - split; [reflexivity|]. split; [|split; [intros value C; discriminate|reflexivity]].
    intro Z0. specialize (Hzero Z0). split; [exact Hzero|].
    split; [exact (Hempty Hzero)|split; reflexivity].
  - split; [reflexivity|]. split; [|split].
    + intro Z0. specialize (Hzero Z0). split; [exact Hzero|].
      split; [exact (Hempty Hzero)|]. rewrite (Hempty Hzero). split; reflexivity.
    + intros value Hv. destruct (String.eqb_spec h "") as [E|E]; [discriminate|].
      injection Hv as <-.
      assert (Hne : Main.current_info st <> []).
      { intro E0. apply E. exact (Hempty E0). }
      split; [|split; [reflexivity|split; [exact (Hlen Hne)|reflexivity]]].
      destruct (Main.current_info st); [contradiction|]. cbn in Hn. lia.
    + destruct (String.eqb h ""); [reflexivity|discriminate].
Qed.

End DigestFile.

(** A run in which every account fails does not write the digest file; a run
    with a success overwrites it. *)
Lemma main_digest_file_witness :
  (exists r : Main.run,
      Main.main 0 Examples.down_worlds 4 None (Some "9170a043b9207974")
        ["sid-1"; "sid-2"] = Some r
      /\ Main.success_count (Main.final r) = 0
      /\ Main.current_hash r = ""
      /\ Main.saved r = None
      /\ Main.stored r = Some "9170a043b9207974"
      /\ Main.ended r = Main.Exit 1)
  /\ (exists r : Main.run,
         Main.main 8 Examples.three_worlds 4 None (Some "0000000000000000")
           ["sid-1"; "sid-2"; "sid-3"] = Some r
         /\ Main.success_count (Main.final r) = 2
         /\ Main.saved r = Some (Main.current_hash r)
         /\ String.length (Main.current_hash r) = 16%nat
         /\ Main.ended r = Main.Exit 0).
Proof.
  split.
  - eexists. split; [vm_compute; reflexivity|].
    match goal with
    | |- context [Main.success_count (Main.final ?r)] =>
        destruct (main_digest_file 0 Examples.down_worlds 4 None
                    (Some "9170a043b9207974") ["sid-1"; "sid-2"] r)
          as [_ [_ [H _]]]; [vm_compute; reflexivity|]
    end.
    split; [reflexivity|].
    destruct (H eq_refl) as [_ [Hh [Hs Hf]]].
    split; [exact Hh|]. split; [exact Hs|]. split; [exact Hf|reflexivity].
  - eexists. split; [vm_compute; reflexivity|].
    match goal with
    | |- context [Main.success_count (Main.final ?r)] =>
        destruct (main_digest_file 8 Examples.three_worlds 4 None
                    (Some "0000000000000000") ["sid-1"; "sid-2"; "sid-3"] r)
          as [_ [_ [_ [H _]]]]; [vm_compute; reflexivity|]
    end.
    split; [reflexivity|].
    destruct (H _ eq_refl) as [_ [Hv [Hl _]]].
    split; [reflexivity|]. split; [exact Hl|reflexivity].
Defined.

(** ** Harvest loops *)

Section Harvest.

Import Py Cdk Spec.

Lemma calls_app (c : call) (a b : list event) :
  calls c (a ++ b) = (calls c a + calls c b)%nat.
Proof. unfold calls. rewrite filter_app, length_app. reflexivity. Qed.





Lemma reward_codes_app (a b : list event) :
  reward_codes (a ++ b) = reward_codes a ++ reward_codes b.
Proof. unfold reward_codes. apply flat_map_app. Qed.

(** Closing the session adds no code and no attempt. *)
Lemma closing_adds (close_error : option string) (body : list event) (s : stop) :
  reward_codes (closing close_error (body, s)) = reward_codes body
  /\ forall c, c <> Close -> calls c (closing close_error (body, s)) = calls c body.
Proof.
  unfold closing.
  destruct close_error as [msg|]; [|destruct s as [|msg]];
    rewrite reward_codes_app; cbn [reward_codes flat_map app]; rewrite app_nil_r;
    (split; [reflexivity|]); intros c Hc; rewrite calls_app;
    destruct c; try contradiction; cbn; lia.
Qed.

(** The daily check-in yields at most the one code its request is answered
    with, and spins no wheel. *)
Lemma checkin_part_quota (site : WheelSite) :
  (List.length (reward_codes (fst (checkin_part site)))
   <= calls Checkin (fst (checkin_part site)))%nat
  /\ calls Wheel (fst (checkin_part site)) = 0%nat.
Proof.
  unfold checkin_part.
  destruct (checkin_status_reply site) as [msg|status status_data]; [cbn; lia|].
  destruct (if status =? 200
            then if truthy status_data
                 then match status_data with
                      | JDict d => inl (truthy (get d "checked" JNull))
                      | _ => inr (no_attribute status_data "get")
                      end
                 else inl false
            else inl false) as [[|]|msg]; try (cbn; lia).
  destruct (checkin_reply site) as [msg|status' json_data]; [cbn; lia|].
  destruct ((status' =? 200) || (status' =? 400))%bool; [|cbn; lia].
  destruct json_data as [|b0|z0|s0|l0|d]; try (cbn; lia).
  destruct (truthy (get d "success" JNull)); [|cbn; lia].
  destruct (truthy (get d "code" (JStr ""))) eqn:Ecode; [|cbn; lia].
  cbn [fst reward_codes flat_map app]. rewrite Ecode. cbn. lia.
Qed.

(** C6. When the status request leaves no attempt ([remaining <= 0]), neither
    loop sends an attempt and neither produces a reward code. The rotating
    wheel yields nothing. The lucky draw yields one item: a success whose code
    is the empty string, the mark that nothing is to be topped up and no
    reward code. So it is for the generators as a whole: the lucky draw sends
    no draw and yields no reward code; the wheel generator spins no wheel, and
    yields no reward code but the one its daily check-in may be answered
    with, before the wheel is looked at. *)
Theorem harvest_nothing_left :
  (forall (fuel : nat) (site : WheelSite) (remaining : Z),
      wheel_check site = inl remaining -> remaining <= 0 ->
      exists events : list event,
        wheel_part fuel site = Some (events, Done)
        /\ events = [Call WheelStatus]
        /\ produced events = []
        /\ calls Wheel events = 0%nat)
  /\ (forall (fuel : nat) (site : DrawSite) (remaining : Z),
         draw_check site = inl remaining -> remaining <= 0 ->
         exists events : list event,
           draw_part fuel site = Some (events, Done)
           /\ events = [Call DrawStatus; Yield (Code (JStr ""))]
           /\ reward_codes events = []
           /\ calls Draw events = 0%nat)
  /\ (forall (fuel : nat) (site : WheelSite) (remaining : Z),
         wheel_check site = inl remaining -> remaining <= 0 ->
         exists events : list event,
           get_runawaytime_cdk fuel true site = Some events
           /\ calls Wheel events = 0%nat
           /\ (List.length (reward_codes events) <= calls Checkin events)%nat)
  /\ (forall (fuel : nat) (site : DrawSite) (remaining : Z),
         draw_check site = inl remaining -> remaining <= 0 ->
         exists events : list event,
           get_b4u_cdk fuel true site = Some events
           /\ calls Draw events = 0%nat
           /\ reward_codes events = []).
Proof.
  assert (W : forall (fuel : nat) (site : WheelSite) (remaining : Z),
             wheel_check site = inl remaining -> remaining <= 0 ->
             wheel_part fuel site = Some ([Call WheelStatus], Done)).
  { intros fuel site remaining Hc Hz. unfold wheel_part. rewrite Hc.
    comparison_is (remaining <=? 0) true. reflexivity. }
  assert (D : forall (fuel : nat) (site : DrawSite) (remaining : Z),
             draw_check site = inl remaining -> remaining <= 0 ->
             draw_part fuel site
             = Some ([Call DrawStatus; Yield (Code (JStr ""))], Done)).
  { intros fuel site remaining Hc Hz. unfold draw_part. rewrite Hc.
    comparison_is (remaining <=? 0) true. reflexivity. }
  split; [|split; [|split]].
  - intros fuel site remaining Hc Hz. eexists. split; [exact (W _ _ _ Hc Hz)|].
    repeat split.
  - intros fuel site remaining Hc Hz. eexists. split; [exact (D _ _ _ Hc Hz)|].
    repeat split.
  - intros fuel site remaining Hc Hz.
    unfold get_runawaytime_cdk. cbn [negb].
    destruct (wheel_session_error site) as [msg|];
      [eexists; split; [reflexivity|cbn; lia]|].
    pose proof (checkin_part_quota site) as [Hq Hw].
    destruct (checkin_part site) as [first [|msg]]; cbn [fst] in Hq, Hw.
    + rewrite (W _ _ _ Hc Hz). cbn [after].
      eexists. split; [reflexivity|].
      destruct (closing_adds (wheel_close_error site) (first ++ [Call WheelStatus]) Done)
        as [Hr Hk].
      rewrite Hr, (Hk Wheel), (Hk Checkin) by discriminate.
      rewrite reward_codes_app, !calls_app. cbn. rewrite app_nil_r. lia.
    + eexists. split; [reflexivity|].
      destruct (closing_adds (wheel_close_error site) first (Fault msg)) as [Hr Hk].
      rewrite Hr, (Hk Wheel), (Hk Checkin) by discriminate. lia.
  - intros fuel site remaining Hc Hz.
    unfold get_b4u_cdk. cbn [negb].
    destruct (clearance site) as [msg|[cf_cookies browser_headers]];
      [eexists; split; [reflexivity|split; reflexivity]|].
    destruct (match cf_cookies with
              | Some c => has_key "cf_clearance" c
              | None => false
              end);
      [|eexists; split; [reflexivity|split; reflexivity]].
    destruct (draw_session_error site) as [msg|];
      [eexists; split; [reflexivity|split; reflexivity]|].
    rewrite (D _ _ _ Hc Hz).
    eexists. split; [reflexivity|].
    destruct (closing_adds (draw_close_error site)
                [Call DrawStatus; Yield (Code (JStr ""))] Done) as [Hr Hk].
    change (Call Clearance
              :: closing (draw_close_error site)
                   ([Call DrawStatus; Yield (Code (JStr ""))], Done))
      with ([Call Clearance]
              ++ closing (draw_close_error site)
                   ([Call DrawStatus; Yield (Code (JStr ""))], Done)).
    rewrite calls_app, reward_codes_app, Hr, (Hk Draw) by discriminate.
    split; reflexivity.
Qed.

(** Both generators on a status that leaves nothing. *)
Lemma harvest_nothing_left_witness :
  wheel_part 0 (Examples.wheel_site 0 Examples.wheel_replies_AB)
  = Some ([Call WheelStatus], Done)
  /\ draw_part 0 (Examples.draw_site (-1) Examples.draw_replies_AB)
     = Some ([Call DrawStatus; Yield (Code (JStr ""))], Done).
Proof.
  destruct harvest_nothing_left as [W [D _]]. split.
  - destruct (W 0%nat (Examples.wheel_site 0 Examples.wheel_replies_AB) 0 eq_refl
                ltac:(lia)) as [events [H [-> _]]].
    exact H.
  - destruct (D 0%nat (Examples.draw_site (-1) Examples.draw_replies_AB) (-1) eq_refl
                ltac:(lia)) as [events [H [-> _]]].
    exact H.
Defined.

End Harvest.

Section HarvestEnds.

Import Py Cdk Spec.

















End HarvestEnds.




(** * Further properties of the code *)

(** ** The solver: difficulty as a numeric target, edges, monotonicity *)

Section Target.

Import Py Pow Spec.

Lemma Z_of_byte_range (x : byte) : 0 <= Z_of_byte x < 256.
Proof. unfold Z_of_byte. pose proof (Byte.to_N_bounded x). lia. Qed.

Lemma be_value_range (b : list byte) :
  0 <= be_value b < 2 ^ (8 * Z.of_nat (List.length b)).
Proof.
  induction b as [|x rest IH]; cbn [be_value List.length].
  - cbn. lia.
  - pose proof (Z_of_byte_range x).
    replace (8 * Z.of_nat (S (List.length rest)))
      with (8 + 8 * Z.of_nat (List.length rest)) by lia.
    rewrite Z.pow_add_r by lia. change (2 ^ 8) with 256. nia.
Qed.

Lemma byte_between (x : byte) :
  Z_of_byte x <> 0 ->
  2 ^ (7 - Z.of_nat (clear_bits_below 8 (Z_of_byte x))) <= Z_of_byte x
  /\ Z_of_byte x < 2 ^ (8 - Z.of_nat (clear_bits_below 8 (Z_of_byte x))).
Proof.
  destruct x; intro H; try (exfalso; apply H; reflexivity);
    (split; [apply Z.leb_le | apply Z.ltb_lt]; vm_compute; reflexivity).
Qed.

Lemma clear_bits_below_le (n : nat) (z : Z) : (clear_bits_below n z <= n)%nat.
Proof.
  induction n as [|n IH]; cbn [clear_bits_below]; [lia|].
  destruct (Z.testbit z (Z.of_nat n)); lia.
Qed.

Lemma zero_bytes_le (b : list byte) : (zero_bytes b <= List.length b)%nat.
Proof.
  induction b as [|x rest IH]; cbn [zero_bytes List.length]; [lia|].
  destruct (Z_of_byte x =? 0); lia.
Qed.

Lemma first_set_bit_all_zero (b : list byte) :
  (List.length b <= zero_bytes b)%nat -> first_set_bit b = 0.
Proof.
  unfold first_set_bit.
  induction b as [|x rest IH]; cbn [zero_bytes first_nonzero List.length];
    [reflexivity|].
  destruct (Z_of_byte x =? 0); intro; [apply IH|]; lia.
Qed.

Lemma first_set_bit_range (b : list byte) : 0 <= first_set_bit b <= 8.
Proof.
  unfold first_set_bit. destruct (first_nonzero b) as [x|]; [|lia].
  pose proof (clear_bits_below_le 8 (Z_of_byte x)). lia.
Qed.

(** The scan of a sequence of at most 32 bytes. *)
Lemma count_short (b : list byte) :
  (List.length b <= 32)%nat ->
  count_leading_zero_bits b = 8 * Z.of_nat (zero_bytes b) + first_set_bit b.
Proof.
  intro Hlen. unfold count_leading_zero_bits.
  rewrite count_from_scan by (try lia; reflexivity).
  pose proof (zero_bytes_le b).
  destruct (Z.ltb_spec (0 + 8 * Z.of_nat (zero_bytes b)) 256); [lia|].
  rewrite first_set_bit_all_zero by lia. lia.
Qed.

Lemma count_nonneg (b : list byte) : 0 <= count_leading_zero_bits b.
Proof.
  unfold count_leading_zero_bits.
  rewrite count_from_scan by (try lia; reflexivity).
  pose proof (first_set_bit_range b).
  destruct (_ <? _); lia.
Qed.

Lemma scan_target (b : list byte) :
  0 <= 8 * Z.of_nat (zero_bytes b) + first_set_bit b <= 8 * Z.of_nat (List.length b)
  /\ be_value b
     < 2 ^ (8 * Z.of_nat (List.length b)
            - (8 * Z.of_nat (zero_bytes b) + first_set_bit b))
  /\ (8 * Z.of_nat (zero_bytes b) + first_set_bit b < 8 * Z.of_nat (List.length b) ->
      2 ^ (8 * Z.of_nat (List.length b)
           - (8 * Z.of_nat (zero_bytes b) + first_set_bit b) - 1)
      <= be_value b).
Proof.
  unfold first_set_bit.
  induction b as [|x rest IH]; cbn [zero_bytes first_nonzero be_value List.length].
  - cbn. lia.
  - destruct (Z.eqb_spec (Z_of_byte x) 0) as [Hz|Hnz].
    + rewrite Hz, Z.mul_0_l, Z.add_0_l.
      replace (8 * Z.of_nat (S (List.length rest))
               - (8 * Z.of_nat (S (zero_bytes rest))
                  + match first_nonzero rest with
                    | Some x0 => Z.of_nat (clear_bits_below 8 (Z_of_byte x0))
                    | None => 0
                    end))
        with (8 * Z.of_nat (List.length rest)
              - (8 * Z.of_nat (zero_bytes rest)
                 + match first_nonzero rest with
                   | Some x0 => Z.of_nat (clear_bits_below 8 (Z_of_byte x0))
                   | None => 0
                   end)) by lia.
      destruct IH as [I1 [I2 I3]]. split; [lia|]. split; [exact I2|].
      intro H. apply I3. lia.
    + pose proof (byte_between x Hnz) as [Lo Hi].
      pose proof (clear_bits_below_le 8 (Z_of_byte x)) as Hj.
      pose proof (be_value_range rest) as Hr.
      set (j := Z.of_nat (clear_bits_below 8 (Z_of_byte x))) in *.
      set (n := Z.of_nat (List.length rest)) in *.
      assert (Hn : 0 <= n) by (subst n; lia).
      assert (P : 0 < 2 ^ (8 * n)) by (apply Z.pow_pos_nonneg; lia).
      assert (Hj7 : j <= 7).
      { destruct (Z.eq_dec j 8) as [E|]; [|lia].
        rewrite E in Hi. change (2 ^ (8 - 8)) with 1 in Hi.
        pose proof (Z_of_byte_range x). lia. }
      split; [lia|]. split.
      * replace (8 * Z.of_nat (S (List.length rest)) - (8 * Z.of_nat 0 + j))
          with ((8 - j) + 8 * n) by lia.
        rewrite Z.pow_add_r by lia.
        assert ((Z_of_byte x + 1) * 2 ^ (8 * n) <= 2 ^ (8 - j) * 2 ^ (8 * n))
          by (apply Z.mul_le_mono_nonneg_r; lia).
        lia.
      * intros _.
        replace (8 * Z.of_nat (S (List.length rest)) - (8 * Z.of_nat 0 + j) - 1)
          with ((7 - j) + 8 * n) by lia.
        rewrite Z.pow_add_r by lia.
        assert (2 ^ (7 - j) * 2 ^ (8 * n) <= Z_of_byte x * 2 ^ (8 * n))
          by (apply Z.mul_le_mono_nonneg_r; lia).
        lia.
Qed.

Lemma search_nowhere (challenge : string) (difficulty : Z) (clock : Clock) :
  256 < difficulty ->
  forall (fuel : nat) (n : N),
    search fuel clock (encode (challenge ++ ":")%string) difficulty n = None.
Proof.
  intros Hd. induction fuel as [|f IH]; intro n; [reflexivity|].
  rewrite search_unfold.
  destruct (Z.leb_spec difficulty (count_leading_zero_bits (pow_digest challenge n)))
    as [Hyes|Hno]; [|apply IH].
  exfalso. exact (no_solution_above_256 challenge difficulty n Hd Hyes).
Qed.

Lemma search_within (challenge : string) (difficulty : Z) (clock : Clock) :
  forall (fuel : nat) (n : N) (r : SolveResult),
    search fuel clock (encode (challenge ++ ":")%string) difficulty n = Some r ->
    (N.to_nat (nonce r - n) < fuel)%nat.
Proof.
  induction fuel as [|f IH]; intros n r H; [discriminate|].
  rewrite search_unfold in H.
  destruct (difficulty <=? count_leading_zero_bits (pow_digest challenge n)).
  - injection H as <-. cbn [Spec.found nonce]. lia.
  - pose proof (search_sound _ _ _ _ _ _ H) as [_ [Hle _]].
    apply IH in H. lia.
Qed.

End Target.

(** X1. The difficulty test is a numeric target: for every byte sequence of at
    most 32 bytes (a SHA-256 digest has 32) and every [d] between 0 and its
    number of bits, the sequence has at least [d] leading zero bits according
    to [count_leading_zero_bits] exactly when its value as a big-endian
    integer is below 2 to the power (number of bits - d). *)
Theorem count_leading_zero_bits_target :
  forall (b : list byte) (d : Z),
    (List.length b <= 32)%nat ->
    0 <= d <= 8 * Z.of_nat (List.length b) ->
    (d <= Pow.count_leading_zero_bits b
     <-> Spec.be_value b < 2 ^ (8 * Z.of_nat (List.length b) - d)).
Proof.
  intros b d Hlen Hd. rewrite (count_short b Hlen).
  destruct (scan_target b) as [Hc [Hlt Hge]].
  set (c := 8 * Z.of_nat (Spec.zero_bytes b) + Spec.first_set_bit b) in *.
  set (w := 8 * Z.of_nat (List.length b)) in *.
  split.
  - intro Hdc. eapply Z.lt_le_trans; [exact Hlt|].
    apply Z.pow_le_mono_r; lia.
  - intro Hv. destruct (Z.le_gt_cases d c) as [|Hgt]; [assumption|].
    exfalso. assert (Hcw : c < w) by lia. specialize (Hge Hcw).
    assert (2 ^ (w - d) <= 2 ^ (w - c - 1)) by (apply Z.pow_le_mono_r; lia).
    lia.
Qed.

(** A 32-byte value with 27 leading zero bits lies below 2^229 and not below
    2^228. *)
Lemma count_leading_zero_bits_target_witness :
  Spec.be_value (repeat x00 3 ++ x1f :: repeat xff 28) < 2 ^ 229
  /\ 2 ^ 228 <= Spec.be_value (repeat x00 3 ++ x1f :: repeat xff 28).
Proof.
  split.
  - apply (proj1 (count_leading_zero_bits_target
                    (repeat x00 3 ++ x1f :: repeat xff 28) 27
                    ltac:(cbn; lia) ltac:(cbn; lia))).
    vm_compute. discriminate.
  - vm_compute. discriminate.
Defined.

(** X2. The edges of the solver. A difficulty of zero or less is met by the
    first hash: the solver returns nonce 0 at once, whatever the challenge
    (that can be encoded). A difficulty above 256 is met by no hash, a digest
    having 256 bits: the solver does not return, whatever the number of steps
    it is given. *)
Theorem calculate_nonce_edges :
  forall (challenge : string) (clock : Pow.Clock),
    Py.encode_error (challenge ++ ":")%string = None ->
    (forall (difficulty : Z) (fuel : nat),
        difficulty <= 0 ->
        Pow.calculate_nonce (S fuel) clock challenge difficulty
        = Some (Pow.Solved (Spec.found challenge clock 0)))
    /\ (forall (difficulty : Z) (fuel : nat),
           256 < difficulty ->
           Pow.calculate_nonce fuel clock challenge difficulty = None).
Proof.
  intros challenge clock Henc. split.
  - intros difficulty fuel Hd. apply calculate_nonce_solved. split; [exact Henc|].
    rewrite search_unfold.
    pose proof (count_nonneg (Spec.pow_digest challenge 0)).
    comparison_is
      (difficulty <=? Pow.count_leading_zero_bits (Spec.pow_digest challenge 0)) true.
    reflexivity.
  - intros difficulty fuel Hd. apply calculate_nonce_goes_on. split; [exact Henc|].
    apply search_nowhere. exact Hd.
Qed.

(** The solver on the puzzles [("c0ffee", -3)] and [("c0ffee", 300)]. *)
Lemma calculate_nonce_edges_witness :
  Pow.nonce (Spec.found "c0ffee" (fun _ => (3, 20)) 0) = 0%N
  /\ Pow.calculate_nonce 1 (fun _ => (3, 20)) "c0ffee" (-3)
     = Some (Pow.Solved (Spec.found "c0ffee" (fun _ => (3, 20)) 0))
  /\ Pow.calculate_nonce 50 (fun _ => (3, 20)) "c0ffee" 300 = None.
Proof.
  destruct (calculate_nonce_edges "c0ffee" (fun _ => (3, 20)) eq_refl) as [Lo Hi].
  split; [reflexivity|]. split.
  - apply Lo. lia.
  - apply Hi. lia.
Defined.

(** X3. A harder puzzle never has a smaller answer: when the solver returns on
    a challenge at difficulty [d2], it returns on the same challenge at every
    lower difficulty [d1] within the same number of steps, with a nonce that is
    not greater. *)
Theorem calculate_nonce_monotone :
  forall (challenge : string) (d1 d2 : Z) (clock : Pow.Clock) (fuel : nat)
         (r2 : Pow.SolveResult),
    d1 <= d2 ->
    Pow.calculate_nonce fuel clock challenge d2 = Some (Pow.Solved r2) ->
    exists r1 : Pow.SolveResult,
      Pow.calculate_nonce fuel clock challenge d1 = Some (Pow.Solved r1)
      /\ (Pow.nonce r1 <= Pow.nonce r2)%N.
Proof.
  intros challenge d1 d2 clock fuel r2 Hd H2.
  apply calculate_nonce_solved in H2. destruct H2 as [Henc H2].
  pose proof (search_within _ _ _ _ _ _ H2) as Hf.
  pose proof (search_sound _ _ _ _ _ _ H2) as [_ [_ [Hs2 _]]].
  assert (Hs1 : Spec.solves challenge d1 (Pow.nonce r2))
    by (unfold Spec.solves in *; lia).
  destruct (Pow.search fuel clock (Py.encode (challenge ++ ":")%string) d1 0)
    as [r1|] eqn:E1.
  - exists r1. split; [apply calculate_nonce_solved; split; assumption|].
    pose proof (search_sound _ _ _ _ _ _ E1) as [_ [_ [_ Hmin]]].
    destruct (N.le_gt_cases (Pow.nonce r1) (Pow.nonce r2)) as [|Hgt]; [assumption|].
    exfalso. apply (Hmin (Pow.nonce r2)); [lia|exact Hs1].
  - exfalso. apply (search_miss _ _ _ _ _ E1 (Pow.nonce r2)); [lia|lia|exact Hs1].
Qed.

(** The puzzle on ["c0ffee"] at difficulties 3 and 6. *)
Lemma calculate_nonce_monotone_witness :
  exists r1 : Pow.SolveResult,
    Pow.calculate_nonce 8 (fun _ => (3, 20)) "c0ffee" 3 = Some (Pow.Solved r1)
    /\ (Pow.nonce r1 <= 7)%N.
Proof.
  exact (calculate_nonce_monotone "c0ffee" 3 6 (fun _ => (3, 20)) 8
           (Spec.found "c0ffee" (fun _ => (3, 20)) 7)
           ltac:(lia) ltac:(vm_compute; reflexivity)).
Defined.

(** ** The benchmark *)

(** X4. [benchmark_hps] returns the median of its three rounds: it never
    fails, its result is the rate of one of the rounds, and a single round
    that went wrong cannot move it out of the range of the other two
    (whenever two of the three rates lie between [lo] and [hi], so does the
    result). *)
Theorem benchmark_hps_median :
  forall rate : nat -> Z,
    exists m : Z,
      Pow.benchmark_hps rate = Some m
      /\ (m = rate 0%nat \/ m = rate 1%nat \/ m = rate 2%nat)
      /\ forall (lo hi : Z) (i j : nat),
           (i < 3)%nat -> (j < 3)%nat -> i <> j ->
           lo <= rate i <= hi -> lo <= rate j <= hi ->
           lo <= m <= hi.
Proof.
  intro rate. unfold Pow.benchmark_hps, Pow.median, Pow.BENCH_ROUNDS, Pow.sorted.
  cbn [seq map fold_right Pow.insert_sample].
  destruct (Z.leb_spec (rate 1%nat) (rate 2%nat));
    cbn [Pow.insert_sample];
    repeat match goal with
           | |- context [if ?a <=? ?b then _ else _] =>
               destruct (Z.leb_spec a b); cbn [Pow.insert_sample]
           end;
    cbn; (eexists; split; [reflexivity|]); (split; [tauto|]);
    intros lo hi [|[|[|i]]] [|[|[|j]]]; lia.
Qed.

(** ** The protocol client: order of the steps, what a result holds *)

Section Steps.

Import Py CheckIn.

Lemma check_me_some (w : World) (s : Session) (data : dict) :
  _check_me w s = Some data ->
  send w s GetMe = Resolved (JDict data)
  /\ (exists user, lookup "user" data = Some (JDict user))
  /\ (truthy (get data "signedInToday" JNull) = true ->
      exists today, get data "todaySignin" (JDict []) = JDict today).
Proof.
  unfold _check_me. intro H.
  destruct (send w s GetMe) as [msg|[|b0|z0|s0|l0|d]]; try discriminate.
  destruct (truthy (JDict d) && has_key "user" d); [|discriminate].
  destruct (lookup "user" d) as [[|b0|z0|s0|l0|user]|] eqn:Eu; try discriminate.
  destruct (truthy (get d "signedInToday" JNull)) eqn:Es.
  - destruct (get d "todaySignin" (JDict [])) as [|b0|z0|s0|l0|today] eqn:Et;
      try discriminate.
    injection H as <-. rewrite Es, Et. repeat split; eauto.
  - injection H as <-. rewrite Es. repeat split; eauto. discriminate.
Qed.

Lemma get_challenge_some (w : World) (s : Session) (tier hps : Z) (data : dict) :
  _get_challenge w s tier hps = Some data ->
  send w s (GetChallenge tier hps) = Resolved (JDict data)
  /\ has_key "challenge" data = true
  /\ has_key "challengeId" data = true
  /\ has_key "difficulty" data = true.
Proof.
  unfold _get_challenge. intro H.
  destruct (send w s (GetChallenge tier hps)) as [msg|[|b0|z0|s0|l0|d]]; try discriminate.
  destruct (truthy (JDict d)); [|discriminate]. cbn [andb] in H.
  destruct (has_key "challenge" d) eqn:E1; [|discriminate].
  destruct (has_key "challengeId" d) eqn:E2; [|discriminate].
  destruct (has_key "difficulty" d) eqn:E3; [|discriminate].
  injection H as <-. repeat split; assumption.
Qed.

Lemma submit_some (w : World) (s : Session) (challenge_id : json) (n : N)
    (tier : Z) (data : dict) :
  _submit w s challenge_id n tier = Some data ->
  send w s (PostSubmit challenge_id n tier) = Resolved (JDict data)
  /\ has_key "rewardFinal" data = true.
Proof.
  unfold _submit. intro H.
  destruct (send w s (PostSubmit challenge_id n tier)) as [msg|[|b0|z0|s0|l0|d]];
    try discriminate.
  destruct (truthy (JDict d)); [|discriminate]. cbn [andb] in H.
  destruct (has_key "rewardFinal" d) eqn:E1; [|discriminate].
  injection H as <-. split; [reflexivity|assumption].
Qed.

Lemma protocol_course (fuel : nat) (w : World) (s : Session) (tier : Z)
    (trace : list event) (out : outcome) :
  protocol fuel w s tier = Some (trace, out) -> Spec.course fuel w s tier trace out.
Proof.
  unfold protocol. intro H.
  destruct (_check_me w s) as [me|] eqn:Eme;
    [|injection H as <- <-; apply Spec.NoUser; exact Eme].
  destruct (truthy (get me "signedInToday" JNull)) eqn:Es.
  - destruct (check_me_some _ _ _ Eme) as [_ [_ Ht]].
    destruct (Ht Es) as [today Et]. rewrite Et in H.
    injection H as <- <-. exact (Spec.Signed fuel w s tier me today Eme Es Et).
  - destruct (_get_challenge w s tier (benchmark_hps w)) as [data|] eqn:Ec;
      [|injection H as <- <-; exact (Spec.NoChallenge fuel w s tier me Eme Es Ec)].
    destruct (solve fuel (clock w) (get data "challenge" JNull)
                (get data "difficulty" JNull)) as [[r|msg]|] eqn:Ev; [| |discriminate].
    + destruct (_submit w s (get data "challengeId" JNull) (Pow.nonce r) tier)
        as [submit_data|] eqn:Eu; injection H as <- <-.
      * exact (Spec.Rewarded fuel w s tier me data r submit_data Eme Es Ec Ev Eu).
      * exact (Spec.Refused fuel w s tier me data r Eme Es Ec Ev Eu).
    + injection H as <- <-.
      exact (Spec.BadChallenge fuel w s tier me data msg Eme Es Ec Ev).
Qed.

(** What a search that returns was called with. *)
Lemma solve_solved (fuel : nat) (c : Pow.Clock) (challenge difficulty : json)
    (r : Pow.SolveResult) :
  solve fuel c challenge difficulty = Some (Pow.Solved r) ->
  exists (prefix : string) (bits : Z),
    challenge = JStr prefix
    /\ as_int difficulty = Some bits
    /\ encode_error (prefix ++ ":")%string = None
    /\ Pow.search fuel c (encode (prefix ++ ":")%string) bits 0 = Some r.
Proof.
  unfold solve. intro H.
  destruct challenge as [|b0|z0|prefix|l0|d0]; try discriminate.
  destruct (as_int difficulty) as [bits|].
  - apply calculate_nonce_solved in H. destruct H as [He Hs].
    exists prefix, bits. repeat split; assumption.
  - destruct (encode_error (prefix ++ ":")%string); discriminate.
Qed.

(** What a search that raises was called with, and the message it leaves. *)
Lemma solve_threw (fuel : nat) (c : Pow.Clock) (challenge difficulty : json)
    (msg : string) :
  solve fuel c challenge difficulty = Some (Pow.Threw msg) ->
  ((forall prefix, challenge <> JStr prefix) /\ msg = concat_error challenge)
  \/ (exists prefix,
         challenge = JStr prefix
         /\ encode_error (prefix ++ ":")%string = Some msg)
  \/ (exists prefix,
         challenge = JStr prefix
         /\ encode_error (prefix ++ ":")%string = None
         /\ as_int difficulty = None
         /\ msg = not_supported ">=" "int" (type_name difficulty)).
Proof.
  unfold solve. intro H.
  destruct challenge as [|b0|z0|prefix|l0|d0];
    try (injection H as <-; left; split; [intros p C; discriminate|reflexivity]).
  right. destruct (as_int difficulty) as [bits|] eqn:Eb.
  - apply calculate_nonce_threw in H. left. exists prefix. split; [reflexivity|exact H].
  - destruct (encode_error (prefix ++ ":")%string) as [m|] eqn:Ee; injection H as <-.
    + left. exists prefix. split; [reflexivity|exact Ee].
    + right. exists prefix. repeat split; assumption.
Qed.

(** What [execute] makes of a run of the protocol. *)
Lemma execute_course (fuel : nat) (w : World) (account_name sid : string) (tier : Z)
    (trace : list event) (out : outcome) :
  execute fuel w account_name sid tier = Some (trace, out) ->
  (exists msg,
      session_error w = Some msg
      /\ trace = [AcquireSession; OpenSession (session_of w account_name sid)]
      /\ out = Raised msg)
  \/ (exists body result,
         session_error w = None
         /\ Spec.course fuel w (session_of w account_name sid) tier body result
         /\ trace = AcquireSession :: OpenSession (session_of w account_name sid)
                      :: body ++ [CloseSession]
         /\ out = match close_error w with
                  | Some msg => Raised msg
                  | None => result
                  end).
Proof.
  unfold execute. intro H.
  destruct (session_error w) as [msg|].
  - injection H as <- <-. left. eauto.
  - destruct (protocol fuel w (session_of w account_name sid) tier)
      as [[body result]|] eqn:P; [|discriminate].
    injection H as <- <-. right. exists body, result.
    split; [reflexivity|]. split; [exact (protocol_course _ _ _ _ _ _ P)|].
    split; reflexivity.
Qed.

End Steps.

Section StepsOfExecute.

Import Py CheckIn.

Lemma get_has_key (key : string) (d : dict) (default : json) :
  has_key key d = true -> lookup key d = Some (get d key default).
Proof. unfold has_key, get. destruct (lookup key d); [reflexivity|discriminate]. Qed.

Lemma lookup_set {V : Type} (d : list (string * V)) (key k : string) (v : V) :
  lookup k (set d key v) = if String.eqb key k then Some v else lookup k d.
Proof.
  induction d as [|[k' w] d IH]; cbn [set lookup].
  - destruct (String.eqb key k); reflexivity.
  - destruct (String.eqb_spec k' key) as [->|Hne]; cbn [lookup].
    + destruct (String.eqb key k); reflexivity.
    + rewrite IH. destruct (String.eqb_spec k' k) as [->|]; [|reflexivity].
      destruct (String.eqb_spec key k) as [->|]; [contradiction|reflexivity].
Qed.

Lemma lookup_app {V : Type} (a b : list (string * V)) (k : string) :
  lookup k (a ++ b)
  = match lookup k a with
    | Some v => Some v
    | None => lookup k b
    end.
Proof.
  induction a as [|[k' w] a IH]; cbn [app lookup]; [reflexivity|].
  destruct (String.eqb k' k); [reflexivity|exact IH].
Qed.

Lemma lookup_fold_set (c : list (string * string)) :
  forall (jar : list (string * string)) (k : string),
    lookup k (fold_left (fun j nv => set j (fst nv) (snd nv)) c jar)
    = match lookup k (rev c) with
      | Some v => Some v
      | None => lookup k jar
      end.
Proof.
  induction c as [|[k' v'] c IH]; intros jar k; cbn [fold_left rev fst snd].
  - reflexivity.
  - rewrite IH, lookup_app, lookup_set. cbn [lookup].
    destruct (lookup k (rev c)); [reflexivity|].
    destruct (String.eqb k' k); reflexivity.
Qed.

End StepsOfExecute.

(** X5. The steps of a check-in come in the order of the protocol, each at
    most once. Every run of [execute] that ends either stops at an exception
    of the session constructor, before any request, or consists of opening the
    session, a beginning of the sequence status request, benchmark, challenge
    request, nonce search, submission (of 1, 3, 4 or 5 steps), and closing the
    session, in this order: nothing is solved before the status is known,
    nothing is submitted before a nonce is found, and the session is closed
    last, whatever the outcome. *)
Theorem execute_in_order :
  forall (w : CheckIn.World) (fuel : nat) (account_name sid : string) (tier : Z)
         (trace : list CheckIn.event) (out : CheckIn.outcome),
    CheckIn.execute fuel w account_name sid tier = Some (trace, out) ->
    (exists msg : string,
        CheckIn.session_error w = Some msg
        /\ trace = [CheckIn.AcquireSession;
                    CheckIn.OpenSession (CheckIn.session_of w account_name sid)]
        /\ out = CheckIn.Raised msg)
    \/ (exists (k : nat) (challenge difficulty challenge_id : Py.json) (nonce : N),
           In k [1; 3; 4; 5]%nat
           /\ trace
              = CheckIn.AcquireSession
                  :: CheckIn.OpenSession (CheckIn.session_of w account_name sid)
                  :: firstn k (Spec.steps tier (CheckIn.benchmark_hps w)
                                 challenge difficulty challenge_id nonce)
                  ++ [CheckIn.CloseSession]).
Proof.
  intros w fuel account_name sid tier trace out H.
  destruct (execute_course _ _ _ _ _ _ _ H)
    as [[msg [Hs [Ht Ho]]]|[body [result [Hs [Hc [Ht Ho]]]]]].
  - left. exists msg. repeat split; assumption.
  - right. subst trace. destruct Hc.
    + exists 1%nat, Py.JNull, Py.JNull, Py.JNull, 0%N. split; [cbn; tauto|reflexivity].
    + exists 1%nat, Py.JNull, Py.JNull, Py.JNull, 0%N. split; [cbn; tauto|reflexivity].
    + exists 3%nat, Py.JNull, Py.JNull, Py.JNull, 0%N. split; [cbn; tauto|reflexivity].
    + exists 4%nat, (Py.get data "challenge" Py.JNull),
        (Py.get data "difficulty" Py.JNull), Py.JNull, 0%N.
      split; [cbn; tauto|reflexivity].
    + exists 5%nat, (Py.get data "challenge" Py.JNull),
        (Py.get data "difficulty" Py.JNull),
        (Py.get data "challengeId" Py.JNull), (Pow.nonce r).
      split; [cbn; tauto|reflexivity].
    + exists 5%nat, (Py.get data "challenge" Py.JNull),
        (Py.get data "difficulty" Py.JNull),
        (Py.get data "challengeId" Py.JNull), (Pow.nonce r).
      split; [cbn; tauto|reflexivity].
Qed.

(** The run of an account that has to solve a puzzle takes all five steps. *)
Lemma execute_in_order_witness :
  exists (k : nat) (challenge difficulty challenge_id : Py.json) (nonce : N),
    In k [1; 3; 4; 5]%nat
    /\ [CheckIn.AcquireSession;
        CheckIn.OpenSession (CheckIn.mkSession "chrome" [("sid", "sid-1")] []);
        CheckIn.Sent CheckIn.GetMe;
        CheckIn.Benchmark;
        CheckIn.Sent (CheckIn.GetChallenge 4 250000);
        CheckIn.Solve (Py.JStr "c0ffee") (Py.JInt 5);
        CheckIn.Sent (CheckIn.PostSubmit (Py.JStr "id-1") 7 4);
        CheckIn.CloseSession]
       = CheckIn.AcquireSession
           :: CheckIn.OpenSession
                (CheckIn.session_of (Examples.world (None, None) Examples.fresh_server)
                   "account_1" "sid-1")
           :: firstn k (Spec.steps 4
                          (CheckIn.benchmark_hps
                             (Examples.world (None, None) Examples.fresh_server))
                          challenge difficulty challenge_id nonce)
           ++ [CheckIn.CloseSession].
Proof.
  destruct (execute_in_order (Examples.world (None, None) Examples.fresh_server)
              8 "account_1" "sid-1" 4 _ _ ltac:(vm_compute; reflexivity))
    as [[msg [Hs _]]|H]; [discriminate Hs|exact H].
Defined.

(** X6. What is submitted is the answer to what was asked. Whenever a run of
    [execute] sends a submission, the challenge request of that run was
    answered by an object with a string [challenge], a numeric [difficulty]
    and a [challengeId]; the submission carries that [challengeId], the tier
    the caller chose, and the smallest nonce whose SHA-256 with that
    challenge has at least [difficulty] leading zero bits. *)
Theorem execute_submits_least :
  forall (w : CheckIn.World) (fuel : nat) (account_name sid : string) (tier : Z)
         (trace : list CheckIn.event) (out : CheckIn.outcome)
         (challenge_id : Py.json) (nonce : N) (t : Z),
    CheckIn.execute fuel w account_name sid tier = Some (trace, out) ->
    In (CheckIn.Sent (CheckIn.PostSubmit challenge_id nonce t)) trace ->
    exists (data : Py.dict) (prefix : string) (difficulty : Py.json) (bits : Z),
      CheckIn.send w (CheckIn.session_of w account_name sid)
        (CheckIn.GetChallenge tier (CheckIn.benchmark_hps w))
      = CheckIn.Resolved (Py.JDict data)
      /\ Py.lookup "challenge" data = Some (Py.JStr prefix)
      /\ Py.lookup "difficulty" data = Some difficulty
      /\ Py.as_int difficulty = Some bits
      /\ Py.lookup "challengeId" data = Some challenge_id
      /\ t = tier
      /\ Spec.least_solution prefix bits nonce.
Proof.
  intros w fuel account_name sid tier trace out challenge_id nonce t H Hin.
  destruct (execute_course _ _ _ _ _ _ _ H)
    as [[msg [Hs [Ht Ho]]]|[body [result [Hs [Hc [Ht Ho]]]]]]; subst trace.
  { cbn in Hin. intuition discriminate. }
  assert (Hbody : In (CheckIn.Sent (CheckIn.PostSubmit challenge_id nonce t)) body).
  { destruct Hin as [Hin|[Hin|Hin]]; try discriminate.
    apply in_app_or in Hin. destruct Hin as [Hin|[Hin|[]]]; [exact Hin|discriminate]. }
  clear Hin Ho.
  assert (Full : forall (data : Py.dict) (r : Pow.SolveResult),
             CheckIn._get_challenge w (CheckIn.session_of w account_name sid) tier
               (CheckIn.benchmark_hps w) = Some data ->
             CheckIn.solve fuel (CheckIn.clock w) (Py.get data "challenge" Py.JNull)
               (Py.get data "difficulty" Py.JNull) = Some (Pow.Solved r) ->
             In (CheckIn.Sent (CheckIn.PostSubmit challenge_id nonce t))
               (Spec.steps tier (CheckIn.benchmark_hps w)
                  (Py.get data "challenge" Py.JNull)
                  (Py.get data "difficulty" Py.JNull)
                  (Py.get data "challengeId" Py.JNull) (Pow.nonce r)) ->
             exists (data : Py.dict) (prefix : string) (difficulty : Py.json) (bits : Z),
               CheckIn.send w (CheckIn.session_of w account_name sid)
                 (CheckIn.GetChallenge tier (CheckIn.benchmark_hps w))
               = CheckIn.Resolved (Py.JDict data)
               /\ Py.lookup "challenge" data = Some (Py.JStr prefix)
               /\ Py.lookup "difficulty" data = Some difficulty
               /\ Py.as_int difficulty = Some bits
               /\ Py.lookup "challengeId" data = Some challenge_id
               /\ t = tier
               /\ Spec.least_solution prefix bits nonce).
  { intros data r Ec Ev Hstep.
    destruct (solve_solved _ _ _ _ _ Ev) as [prefix [bits [Ep [Eb [_ Er]]]]].
    destruct (get_challenge_some _ _ _ _ _ Ec) as [Hsend [K1 [K2 K3]]].
    cbn in Hstep.
    destruct Hstep as [E|[E|[E|[E|[E|[]]]]]]; try discriminate.
    injection E as <- <- <-.
    exists data, prefix, (Py.get data "difficulty" Py.JNull), bits.
    split; [exact Hsend|].
    split; [rewrite (get_has_key _ _ Py.JNull K1); f_equal; exact Ep|].
    split; [exact (get_has_key _ _ Py.JNull K3)|].
    split; [exact Eb|].
    split; [exact (get_has_key _ _ Py.JNull K2)|].
    split; [reflexivity|].
    destruct (search_sound _ _ _ _ _ _ Er) as [_ [_ [Hsol Hmin]]].
    split; [exact Hsol|]. intros m Hm. apply Hmin. lia. }
  destruct Hc; try (cbn in Hbody; intuition discriminate); eauto.
Qed.

(** The submission of the account that solves [("c0ffee", 5)] carries the
    nonce 7, the smallest one. *)
Lemma execute_submits_least_witness :
  exists (data : Py.dict) (prefix : string) (difficulty : Py.json) (bits : Z),
    CheckIn.send (Examples.world (None, None) Examples.fresh_server)
      (CheckIn.session_of (Examples.world (None, None) Examples.fresh_server)
         "account_1" "sid-1")
      (CheckIn.GetChallenge 4
         (CheckIn.benchmark_hps (Examples.world (None, None) Examples.fresh_server)))
    = CheckIn.Resolved (Py.JDict data)
    /\ Py.lookup "challenge" data = Some (Py.JStr prefix)
    /\ Py.lookup "difficulty" data = Some difficulty
    /\ Py.as_int difficulty = Some bits
    /\ Py.lookup "challengeId" data = Some (Py.JStr "id-1")
    /\ 4 = 4
    /\ Spec.least_solution prefix bits 7.
Proof.
  exact (execute_submits_least (Examples.world (None, None) Examples.fresh_server)
           8 "account_1" "sid-1" 4 _ _ (Py.JStr "id-1") 7%N 4
           ltac:(vm_compute; reflexivity)
           ltac:(cbn; tauto)).
Defined.

(** X7. A success is the server's word. Whenever [execute] returns a success,
    either the status response said that the account has signed in today
    (then nothing but the status request was sent, and the result holds the
    reward of today's sign-in, ["0"] when the response names none), or a
    submission was sent and answered by an object with a [rewardFinal], and
    the [reward_final] of the result is that value. In both cases the result
    has a [reward_final] entry. *)
Theorem execute_success_confirmed :
  forall (w : CheckIn.World) (fuel : nat) (account_name sid : string) (tier : Z)
         (trace : list CheckIn.event) (result : Py.dict),
    CheckIn.execute fuel w account_name sid tier
    = Some (trace, CheckIn.Returned true result) ->
    (exists me today : Py.dict,
        CheckIn.send w (CheckIn.session_of w account_name sid) CheckIn.GetMe
        = CheckIn.Resolved (Py.JDict me)
        /\ Py.truthy (Py.get me "signedInToday" Py.JNull) = true
        /\ Py.get me "todaySignin" (Py.JDict []) = Py.JDict today
        /\ (forall r : CheckIn.request, In (CheckIn.Sent r) trace -> r = CheckIn.GetMe)
        /\ Py.lookup "reward_final" result
           = Some (Py.get today "reward_final" (Py.JStr "0"))
        /\ Py.lookup "already_signed" result = Some (Py.JBool true))
    \/ (exists (challenge_id : Py.json) (nonce : N) (submit_data : Py.dict)
               (reward : Py.json),
           In (CheckIn.Sent (CheckIn.PostSubmit challenge_id nonce tier)) trace
           /\ CheckIn.send w (CheckIn.session_of w account_name sid)
                (CheckIn.PostSubmit challenge_id nonce tier)
              = CheckIn.Resolved (Py.JDict submit_data)
           /\ Py.lookup "rewardFinal" submit_data = Some reward
           /\ Py.lookup "reward_final" result = Some reward
           /\ Py.lookup "already_signed" result = None).
Proof.
  intros w fuel account_name sid tier trace result H.
  destruct (execute_course _ _ _ _ _ _ _ H)
    as [[msg [Hs [Ht Ho]]]|[body [out [Hs [Hc [Ht Ho]]]]]]; [discriminate|].
  destruct (CheckIn.close_error w); [discriminate|]. subst trace out.
  inversion Hc as [ | me today Eme Es Et | | | | me data r submit_data
                                                    Eme Es Ec Ev Eu ]; subst.
  - left. exists me, today.
    destruct (check_me_some _ _ _ Eme) as [Hsend _].
    split; [exact Hsend|]. split; [exact Es|]. split; [exact Et|].
    split; [|split; reflexivity].
    intros r Hin. cbn in Hin.
    destruct Hin as [E|[E|[E|[E|[]]]]]; try discriminate.
    injection E as <-. reflexivity.
  - right. destruct (submit_some _ _ _ _ _ _ Eu) as [Hsend Hk].
    exists (Py.get data "challengeId" Py.JNull), (Pow.nonce r), submit_data,
      (Py.get submit_data "rewardFinal" (Py.JStr "0")).
    split; [cbn; tauto|]. split; [exact Hsend|].
    split; [exact (get_has_key _ _ _ Hk)|]. split; reflexivity.
Qed.

(** The account that solves [("c0ffee", 5)] is rewarded with what the submit
    response says. *)
Lemma execute_success_confirmed_witness :
  exists (challenge_id : Py.json) (nonce : N) (submit_data : Py.dict),
    CheckIn.send (Examples.world (None, None) Examples.fresh_server)
      (CheckIn.session_of (Examples.world (None, None) Examples.fresh_server)
         "account_1" "sid-1")
      (CheckIn.PostSubmit challenge_id nonce 4)
    = CheckIn.Resolved (Py.JDict submit_data)
    /\ Py.lookup "rewardFinal" submit_data = Some (Py.JStr "9").
Proof.
  destruct (execute_success_confirmed
              (Examples.world (None, None) Examples.fresh_server)
              8 "account_1" "sid-1" 4 _ _ ltac:(vm_compute; reflexivity))
    as [[me [today [_ [_ [_ [_ [_ Ha]]]]]]]
       |[challenge_id [nonce [submit_data [reward [_ [Hsend [Hr [Hf _]]]]]]]]].
  - discriminate Ha.
  - exists challenge_id, nonce, submit_data. split; [exact Hsend|].
    rewrite Hr, <- Hf. reflexivity.
Defined.

(** X8. A failure names the step it stopped at. Whenever [execute] returns a
    failure, the result is a single [error] entry, and its text tells how far
    the flow got: the user data could not be fetched (nothing but the status
    request was sent), the challenge could not be fetched (status, benchmark
    and challenge request), the search raised (it was entered and nothing was
    submitted), or the submission was not accepted (all five steps). The text
    of a search that raised ends with the message of the interpreter: that of
    the [TypeError] of [challenge + ":"] when the challenge is not a string,
    that of the [UnicodeEncodeError] when it is a string that cannot be
    encoded, that of the [TypeError] of [leading >= difficulty] when the
    difficulty is not a number. *)
Theorem execute_failure_names_step :
  forall (w : CheckIn.World) (fuel : nat) (account_name sid : string) (tier : Z)
         (trace : list CheckIn.event) (result : Py.dict),
    CheckIn.execute fuel w account_name sid tier
    = Some (trace, CheckIn.Returned false result) ->
    exists (text : string) (k : nat) (challenge difficulty challenge_id : Py.json)
           (nonce : N),
      result = [("error", Py.JStr text)]
      /\ trace
         = CheckIn.AcquireSession
             :: CheckIn.OpenSession (CheckIn.session_of w account_name sid)
             :: firstn k (Spec.steps tier (CheckIn.benchmark_hps w)
                            challenge difficulty challenge_id nonce)
             ++ [CheckIn.CloseSession]
      /\ ((k = 1%nat /\ text = "获取用户信息失败，可能 cf_clearance 无效")
          \/ (k = 3%nat /\ text = "获取挑战失败")
          \/ (k = 4%nat
              /\ exists msg : string,
                   text = ("签到流程异常: " ++ msg)%string
                   /\ (((forall prefix : string, challenge <> Py.JStr prefix)
                        /\ msg = Py.concat_error challenge)
                       \/ (exists prefix : string,
                              challenge = Py.JStr prefix
                              /\ Py.encode_error (prefix ++ ":")%string = Some msg)
                       \/ (exists prefix : string,
                              challenge = Py.JStr prefix
                              /\ Py.encode_error (prefix ++ ":")%string = None
                              /\ Py.as_int difficulty = None
                              /\ msg = Py.not_supported ">=" "int"
                                         (Py.type_name difficulty))))
          \/ (k = 5%nat /\ text = "提交签到失败")).
Proof.
  intros w fuel account_name sid tier trace result H.
  destruct (execute_course _ _ _ _ _ _ _ H)
    as [[msg [Hs [Ht Ho]]]|[body [out [Hs [Hc [Ht Ho]]]]]]; [discriminate|].
  destruct (CheckIn.close_error w); [discriminate|]. subst trace out.
  inversion Hc as [ Eme | | me Eme Es Ec | me data msg Eme Es Ec Ev
                  | me data r Eme Es Ec Ev Eu | ]; subst.
  - exists "获取用户信息失败，可能 cf_clearance 无效", 1%nat, Py.JNull, Py.JNull, Py.JNull, 0%N.
    split; [reflexivity|]. split; [reflexivity|tauto].
  - exists "获取挑战失败", 3%nat, Py.JNull, Py.JNull, Py.JNull, 0%N.
    split; [reflexivity|]. split; [reflexivity|tauto].
  - exists ("签到流程异常: " ++ msg)%string, 4%nat, (Py.get data "challenge" Py.JNull),
      (Py.get data "difficulty" Py.JNull), Py.JNull, 0%N.
    split; [reflexivity|]. split; [reflexivity|].
    right. right. left. split; [reflexivity|]. exists msg. split; [reflexivity|].
    exact (solve_threw _ _ _ _ _ Ev).
  - exists "提交签到失败", 5%nat, (Py.get data "challenge" Py.JNull),
      (Py.get data "difficulty" Py.JNull),
      (Py.get data "challengeId" Py.JNull), (Pow.nonce r).
    split; [reflexivity|]. split; [reflexivity|tauto].
Qed.

(** Behind a server that is down the failure is the one of the status step;
    behind one that sends a number for a challenge, the one of the search. *)
Lemma execute_failure_names_step_witness :
  exists (text : string) (k : nat),
    CheckIn.execute 0 (Examples.world (None, None) Examples.down_server)
      "account_1" "sid-1" 4
    = Some ([CheckIn.AcquireSession;
             CheckIn.OpenSession (CheckIn.mkSession "chrome" [("sid", "sid-1")] []);
             CheckIn.Sent CheckIn.GetMe; CheckIn.CloseSession],
            CheckIn.Returned false [("error", Py.JStr text)])
    /\ k = 1%nat
    /\ CheckIn.execute 0
         (Examples.world (None, None) (Examples.odd_server (Py.JInt 7) (Py.JInt 5)))
         "account_1" "sid-1" 4
       = Some ([CheckIn.AcquireSession;
                CheckIn.OpenSession (CheckIn.mkSession "chrome" [("sid", "sid-1")] []);
                CheckIn.Sent CheckIn.GetMe; CheckIn.Benchmark;
                CheckIn.Sent (CheckIn.GetChallenge 4 250000);
                CheckIn.Solve (Py.JInt 7) (Py.JInt 5); CheckIn.CloseSession],
               CheckIn.Returned false
                 [("error",
                   Py.JStr "签到流程异常: unsupported operand type(s) for +: 'int' and 'str'")]).
Proof.
  destruct (execute_failure_names_step
              (Examples.world (None, None) Examples.down_server)
              0 "account_1" "sid-1" 4 _ _ ltac:(vm_compute; reflexivity))
    as [text [k [c [d [i [n [Hr [Ht Hk]]]]]]]].
  injection Hr as <-. exists "获取用户信息失败，可能 cf_clearance 无效", 1%nat.
  split; [reflexivity|]. split; reflexivity.
Defined.

(** X9. What the cookie jar of a session holds. For every name, the session
    [_build_session] makes carries under that name the value the clearance
    cookies give it (the last one, should a name come twice), and under the
    name [sid] the caller's sid unless the clearance cookies hold a cookie of
    that name, which then replaces it; it carries no other cookie. Its headers
    are the browser headers, and none without them. *)
Theorem build_session_cookies :
  forall (w : CheckIn.World) (sid : string)
         (cf_cookies browser_headers : option (list (string * string)))
         (name : string),
    Py.lookup name
      (CheckIn.cookies (CheckIn._build_session w sid cf_cookies browser_headers))
    = match Py.lookup name (rev (match cf_cookies with Some c => c | None => [] end)) with
      | Some value => Some value
      | None => if String.eqb "sid" name then Some sid else None
      end
    /\ Py.lookup name
         (CheckIn.headers (CheckIn._build_session w sid cf_cookies browser_headers))
       = Py.lookup name
           (rev (match browser_headers with Some h => h | None => [] end)).
Proof.
  intros w sid cf_cookies browser_headers name.
  unfold CheckIn._build_session. cbn [CheckIn.cookies CheckIn.headers]. split.
  - destruct cf_cookies as [c|]; [rewrite lookup_fold_set|]; reflexivity.
  - destruct browser_headers as [h|]; [|reflexivity].
    rewrite lookup_fold_set. destruct (Py.lookup name (rev h)); reflexivity.
Qed.

(** ** The orchestrator: what a run shows, notifies, stores and exits with *)

Section Orchestrator.

Import Py Spec.

(** The result of a successful verdict has a reward. *)
Lemma verdict_rewarded (fuel : nat) (w : CheckIn.World) (tier : Z)
    (account_name sid : string) (result : dict) :
  verdict_of fuel w tier account_name sid = Some (Succeeded result) ->
  exists reward, lookup "reward_final" result = Some reward.
Proof.
  unfold verdict_of. intro H.
  destruct (CheckIn.proxy_resolve_error w); [discriminate|].
  destruct (CheckIn.execute fuel w account_name sid tier)
    as [[trace [[|] res|msg]]|] eqn:E; try discriminate.
  injection H as ->.
  destruct (execute_course _ _ _ _ _ _ _ E)
    as [[msg [Hs [Ht Ho]]]|[body [out [Hs [Hc [Ht Ho]]]]]]; [discriminate|].
  destruct (CheckIn.close_error w); [discriminate|]. subst out.
  inversion Hc; subst; eexists; reflexivity.
Qed.

Lemma successes_rewarded (fuel : nat) (worlds : nat -> CheckIn.World) (tier : Z)
    (sids : list string) :
  forall (i : nat) (vs : list verdict),
    verdicts fuel worlds tier i sids = Some vs ->
    Forall (fun ki => exists reward, lookup "reward_final" (snd ki) = Some reward)
      (successes i vs).
Proof.
  induction sids as [|s sids IH]; intros i vs H; cbn [verdicts] in H.
  - injection H as <-. constructor.
  - destruct (verdict_of fuel (worlds i) tier (Main.account_name_of i) s)
      as [v|] eqn:Ev; [|discriminate].
    destruct (verdicts fuel worlds tier (S i) sids) as [vs'|] eqn:Evs; [|discriminate].
    injection H as <-. specialize (IH _ _ Evs).
    destruct v; cbn [successes]; try exact IH.
    constructor; [|exact IH]. exact (verdict_rewarded _ _ _ _ _ _ Ev).
Qed.

Lemma successful_rewards_all (results : list (string * dict)) :
  Forall (fun ki => exists reward, lookup "reward_final" (snd ki) = Some reward) results ->
  successful_rewards results
  = map (fun ki => (fst ki, get (snd ki) "reward_final" (JStr "0"))) results.
Proof.
  unfold successful_rewards. intro H. f_equal.
  induction H as [|[k info] results [reward Hr] _ IH]; cbn [filter]; [reflexivity|].
  cbn [snd] in *. destruct info; [discriminate|]. cbn [truthy]. f_equal. exact IH.
Qed.

(** What a run of [main] over accounts leaves, in terms of the verdicts. *)
Lemma main_ends (fuel : nat) (worlds : nat -> CheckIn.World) (tier : Z)
    (push_error : option string) (file : Main.digest_file) (sids : list string)
    (r : Main.run) :
  Main.main fuel worlds tier push_error file sids = Some r ->
  sids <> [] ->
  exists vs : list verdict,
    verdicts fuel worlds tier 0 sids = Some vs
    /\ Main.accounts_loop fuel worlds tier Main.initial 0 sids = Some (Main.final r)
    /\ Main.success_count (Main.final r)
       = Z.of_nat (List.length (filter is_success vs))
    /\ filter is_entry (Main.notification_content (Main.final r)) = entries 0 vs
    /\ Main.current_info (Main.final r) = successes 0 vs
    /\ Main.total_count r = Z.of_nat (List.length sids)
    /\ Main.current_hash r = Main.generate_checkin_hash (Main.current_info (Main.final r)).
Proof.
  intros H Hne. unfold Main.main in H.
  destruct sids as [|sid sids]; [contradiction|].
  destruct (Main.accounts_loop fuel worlds tier Main.initial 0 (sid :: sids))
    as [st|] eqn:El; [|discriminate].
  destruct (accounts_loop_ends _ _ _ _ _ _ _ El) as [vs Hvs].
  destruct (accounts_loop_verdicts fuel worlds tier (sid :: sids) 0 Main.initial vs Hvs)
    as [st' [El' [Hc [Hf Hi]]]]; [intros k []|].
  rewrite El in El'. injection El' as <-. cbn in Hc, Hf, Hi.
  exists vs.
  destruct (if _ && _ then push_error else None) as [msg|];
    injection H as <-; cbn [Main.final Main.total_count Main.current_hash];
    repeat split; assumption.
Qed.

Lemma turn_content (fuel : nat) (worlds : nat -> CheckIn.World) (tier : Z)
    (st : Main.state) (i : nat) (sid : string) (v : verdict) :
  verdict_of fuel (worlds i) tier (Main.account_name_of i) sid = Some v ->
  exists st',
    Main.turn fuel worlds tier st i sid = Some st'
    /\ Main.notification_content st'
       = Main.notification_content st
         ++ (match Main.notification_content st with
             | [] => []
             | _ => [Main.Separator]
             end)
         ++ [entry (Main.account_name_of i) v].
Proof.
  intro Hv. unfold Main.turn.
  set (st0 := match Main.notification_content st with
              | [] => st
              | _ => Main.push st Main.Separator
              end).
  assert (E0 : Main.notification_content st0
               = Main.notification_content st
                 ++ (match Main.notification_content st with
                     | [] => []
                     | _ => [Main.Separator]
                     end)).
  { subst st0. destruct (Main.notification_content st) eqn:En.
    - rewrite En. reflexivity.
    - unfold Main.push. cbn [Main.notification_content]. rewrite En. reflexivity. }
  rewrite app_assoc, <- E0. clearbody st0.
  unfold verdict_of in Hv. unfold Main.attempt.
  destruct (CheckIn.proxy_resolve_error (worlds i)) as [msg|].
  - injection Hv as <-. eexists. split; reflexivity.
  - destruct (CheckIn.execute fuel (worlds i) (Main.account_name_of i) sid tier)
      as [[trace [[|] result|msg]]|]; [| | |discriminate]; injection Hv as <-.
    + cbn [entry].
      destruct (truthy (get result "already_signed" JNull));
        (eexists; split; reflexivity).
    + eexists. split; reflexivity.
    + eexists. split; reflexivity.
Qed.

Lemma accounts_loop_content (fuel : nat) (worlds : nat -> CheckIn.World) (tier : Z)
    (sids : list string) :
  forall (i : nat) (st st' : Main.state) (vs : list verdict),
    verdicts fuel worlds tier i sids = Some vs ->
    Main.accounts_loop fuel worlds tier st i sids = Some st' ->
    Main.notification_content st'
    = match Main.notification_content st with
      | [] => separated (entries i vs)
      | before =>
          before ++ flat_map (fun e => [Main.Separator; e]) (entries i vs)
      end.
Proof.
  assert (Sep : forall es e,
             separated (e :: es) = e :: flat_map (fun x => [Main.Separator; x]) es).
  { induction es as [|x es IH]; intro e; [reflexivity|].
    change (separated (e :: x :: es)) with (e :: Main.Separator :: separated (x :: es)).
    rewrite IH. reflexivity. }
  induction sids as [|s sids IH]; intros i st st' vs Hvs Hl;
    cbn [verdicts Main.accounts_loop] in *.
  - injection Hvs as <-. injection Hl as <-. cbn.
    destruct (Main.notification_content st); [reflexivity|].
    rewrite app_nil_r. reflexivity.
  - destruct (verdict_of fuel (worlds i) tier (Main.account_name_of i) s)
      as [v|] eqn:Ev; [|discriminate].
    destruct (verdicts fuel worlds tier (S i) sids) as [vs'|] eqn:Evs; [|discriminate].
    injection Hvs as <-.
    destruct (turn_content fuel worlds tier st i s v Ev) as [st1 [Ht Hc]].
    rewrite Ht in Hl. rewrite (IH _ _ _ _ Evs Hl), Hc. cbn [entries].
    destruct (Main.notification_content st) as [|l ls].
    + cbn [app]. rewrite Sep. reflexivity.
    + cbn [flat_map].
      destruct ((l :: ls) ++ [Main.Separator] ++ [entry (Main.account_name_of i) v])
        eqn:E; [destruct ls; discriminate|].
      rewrite <- E, <- !app_assoc. reflexivity.
Qed.

End Orchestrator.

Section Gate.

Import Py Spec.

(** How a run of [main] over accounts ends, by whether a notification is due
    and whether the notifier raises. *)
Lemma main_gate (fuel : nat) (worlds : nat -> CheckIn.World) (tier : Z)
    (push_error : option string) (file : Main.digest_file) (sids : list string)
    (r : Main.run) :
  Main.main fuel worlds tier push_error file sids = Some r ->
  sids <> [] ->
  (exists msg,
      due file (Main.current_hash r) = true
      /\ push_error = Some msg
      /\ Main.ended r = Main.Escaped msg
      /\ Main.pushed r = None
      /\ Main.saved r = None
      /\ Main.stored r = file)
  \/ ((due file (Main.current_hash r) = false \/ push_error = None)
      /\ Main.pushed r
         = (if due file (Main.current_hash r)
            then Some (title (Main.success_count (Main.final r)) (Main.total_count r))
            else None)
      /\ Main.saved r
         = (if String.eqb (Main.current_hash r) "" then None
            else Some (Main.current_hash r))
      /\ Main.stored r
         = (if String.eqb (Main.current_hash r) "" then file
            else Some (Main.current_hash r))
      /\ Main.ended r
         = Main.Exit (if 0 <? Main.success_count (Main.final r) then 0 else 1)).
Proof.
  intros H Hne. unfold Main.main in H.
  destruct sids as [|sid sids]; [contradiction|].
  destruct (Main.accounts_loop fuel worlds tier Main.initial 0 (sid :: sids))
    as [st|] eqn:El; [|discriminate].
  destruct (accounts_loop_ends _ _ _ _ _ _ _ El) as [vs Hvs].
  destruct (accounts_loop_verdicts fuel worlds tier (sid :: sids) 0 Main.initial vs Hvs)
    as [st' [El' [_ [Hf _]]]]; [intros k []|].
  rewrite El in El'. injection El' as <-. cbn in Hf.
  assert (Hcontent : Main.notification_content st <> []).
  { intro E. rewrite E in Hf. cbn in Hf.
    pose proof (verdicts_length _ _ _ _ _ _ Hvs) as Hlen.
    destruct vs; [discriminate Hlen|discriminate Hf]. }
  unfold Main.load_balance_hash in H.
  change (match file with
          | Some l =>
              if String.eqb l ""
              then true
              else negb (String.eqb (Main.generate_checkin_hash (Main.current_info st)) l)
          | None => true
          end)
    with (due file (Main.generate_checkin_hash (Main.current_info st))) in H.
  destruct (Main.notification_content st) as [|l ls]; [contradiction|].
  rewrite andb_true_r in H.
  destruct (due file (Main.generate_checkin_hash (Main.current_info st))) eqn:Ed.
  - destruct push_error as [msg|]; injection H as <-;
      cbn [Main.final Main.current_hash Main.pushed Main.saved Main.stored
           Main.ended Main.total_count]; rewrite Ed.
    + left. exists msg. repeat split.
    + right. split; [right; reflexivity|]. repeat split.
  - injection H as <-.
    cbn [Main.final Main.current_hash Main.pushed Main.saved Main.stored
         Main.ended Main.total_count]; rewrite Ed.
    right. split; [left; reflexivity|]. repeat split.
Qed.

Lemma existsb_filter {A : Type} (f : A -> bool) (l : list A) :
  existsb f l = true <-> (0 < List.length (filter f l))%nat.
Proof.
  induction l as [|x l IH]; cbn [existsb filter List.length].
  - split; [discriminate|lia].
  - destruct (f x); cbn [orb List.length]; [split; [lia|reflexivity]|exact IH].
Qed.

(** The results kept by a run, when there are any, have a digest of 16
    characters, which is taken from their rewards. *)
Lemma kept_results (fuel : nat) (worlds : nat -> CheckIn.World) (tier : Z)
    (push_error : option string) (file : Main.digest_file) (sids : list string)
    (r : Main.run) :
  Main.main fuel worlds tier push_error file sids = Some r ->
  NoDup (map fst (Main.current_info (Main.final r)))
  /\ Forall (fun ki => exists reward, lookup "reward_final" (snd ki) = Some reward)
       (Main.current_info (Main.final r))
  /\ Z.of_nat (List.length (Main.current_info (Main.final r)))
     = Main.success_count (Main.final r)
  /\ Main.current_hash r
     = Main.generate_checkin_hash (Main.current_info (Main.final r)).
Proof.
  intro H. destruct sids as [|sid sids].
  - injection H as <-. cbn. repeat split; constructor.
  - destruct (main_ends _ _ _ _ _ _ _ H ltac:(discriminate))
      as [vs [Hvs [_ [Hc [_ [Hi [_ Hh]]]]]]].
    rewrite Hi. split; [apply successes_NoDup|].
    split; [exact (successes_rewarded _ _ _ _ _ _ Hvs)|].
    split; [rewrite successes_length, Hc; reflexivity|].
    rewrite <- Hi. exact Hh.
Qed.

End Gate.



(** X11. The digest covers every account that succeeded. In every run of
    [main] that ends, the results kept for the digest number as many as the
    successes counted, every one of them holds a [reward_final], none is
    dropped by the test [if info], and the rewards the digest is taken from
    are, in the order of the accounts, the name of each successful account
    with the [reward_final] of its result. *)
Theorem main_digest_covers_successes :
  forall (fuel : nat) (worlds : nat -> CheckIn.World) (tier : Z)
         (push_error : option string) (file : Main.digest_file) (sids : list string)
         (r : Main.run),
    Main.main fuel worlds tier push_error file sids = Some r ->
    Main.rewards_of (Main.current_info (Main.final r))
    = map (fun ki => (fst ki, Py.get (snd ki) "reward_final" (Py.JStr "0")))
        (Main.current_info (Main.final r))
    /\ Z.of_nat (List.length (Main.rewards_of (Main.current_info (Main.final r))))
       = Main.success_count (Main.final r)
    /\ (forall (name : string) (result : Py.dict),
          In (name, result) (Main.current_info (Main.final r)) ->
          exists reward : Py.json,
            Py.lookup "reward_final" result = Some reward
            /\ In (name, reward) (Main.rewards_of (Main.current_info (Main.final r)))).
Proof.
  intros fuel worlds tier push_error file sids r H.
  destruct (kept_results _ _ _ _ _ _ _ H) as [Hnd [Hall [Hlen _]]].
  assert (E : Main.rewards_of (Main.current_info (Main.final r))
              = map (fun ki => (fst ki, Py.get (snd ki) "reward_final" (Py.JStr "0")))
                  (Main.current_info (Main.final r))).
  { rewrite rewards_of_successful by exact Hnd. apply successful_rewards_all. exact Hall. }
  split; [exact E|]. split; [rewrite E, length_map; exact Hlen|].
  intros name result Hin. rewrite Forall_forall in Hall.
  destruct (Hall _ Hin) as [reward Hr]. exists reward. split; [exact Hr|].
  rewrite E. apply in_map_iff. exists (name, result). split; [|exact Hin].
  cbn [fst snd]. unfold Py.get. cbn [snd] in Hr. rewrite Hr. reflexivity.
Qed.

(** Three accounts of which two succeed: two rewards go into the digest. *)
Lemma main_digest_covers_successes_witness :
  exists r : Main.run,
    Main.main 8 Examples.three_worlds 4 None None ["sid-1"; "sid-2"; "sid-3"] = Some r
    /\ Main.rewards_of (Main.current_info (Main.final r))
       = [("account_1", Py.JStr "5"); ("account_3", Py.JStr "9")]
    /\ Main.success_count (Main.final r) = 2.
Proof.
  eexists. split; [vm_compute; reflexivity|].
  match goal with
  | |- context [Main.current_info (Main.final ?r)] =>
      destruct (main_digest_covers_successes 8 Examples.three_worlds 4 None None
                  ["sid-1"; "sid-2"; "sid-3"] r ltac:(vm_compute; reflexivity))
        as [E [L _]]
  end.
  split; [rewrite E; reflexivity|rewrite <- L; reflexivity].
Defined.

(** X12. When a notification goes out. In every run of [main] over at least
    one account in which the notifier does not raise, a notification is sent
    exactly when no digest is stored, or the stored digest is empty or differs
    from the current one (there is always something to send: every account
    leaves an entry); it is titled as a success when every account succeeded
    and as an alarm otherwise. A run in which every account fails always sends
    the alarm, whatever digest is stored. *)
Theorem main_notifies :
  forall (fuel : nat) (worlds : nat -> CheckIn.World) (tier : Z)
         (file : Main.digest_file) (sids : list string) (r : Main.run),
    sids <> [] ->
    Main.main fuel worlds tier None file sids = Some r ->
    Main.pushed r
    = (if Spec.due file (Main.current_hash r)
       then Some (Spec.title (Main.success_count (Main.final r))
                    (Z.of_nat (List.length sids)))
       else None)
    /\ (Main.pushed r = None
        <-> exists last_hash : string,
              file = Some last_hash
              /\ String.eqb last_hash "" = false
              /\ Main.current_hash r = last_hash)
    /\ (Main.success_count (Main.final r) = 0 ->
        Main.pushed r = Some "qaq.al 签到告警").
Proof.
  intros fuel worlds tier file sids r Hne H.
  destruct (main_ends _ _ _ _ _ _ _ H Hne) as [vs [_ [_ [_ [_ [_ [Ht _]]]]]]].
  destruct (kept_results _ _ _ _ _ _ _ H) as [_ [_ [Hlen Hh]]].
  destruct (main_gate _ _ _ _ _ _ _ H Hne)
    as [[msg [_ [C _]]]|[_ [Hp _]]]; [discriminate|].
  rewrite Ht in Hp.
  split; [exact Hp|]. split.
  - rewrite Hp. unfold Spec.due. destruct file as [l|].
    + destruct (String.eqb l "") eqn:El.
      * split; [discriminate|]. intros [l' [E [C _]]]. injection E as <-. congruence.
      * destruct (String.eqb_spec (Main.current_hash r) l) as [E|E]; cbn [negb].
        -- split; [|reflexivity]. intros _. exists l. repeat split; assumption.
        -- split; [discriminate|]. intros [l' [E' [_ C]]]. injection E' as <-.
           contradiction.
    + split; [discriminate|]. intros [l' [E _]]. discriminate.
  - intro Hz. rewrite Hp, Hz.
    assert (Hempty : Main.current_hash r = "").
    { rewrite Hh. rewrite Hz in Hlen.
      destruct (Main.current_info (Main.final r)); [reflexivity|]. cbn in Hlen. lia. }
    rewrite Hempty. unfold Spec.due, Spec.title.
    assert (Hpos : (0 =? Z.of_nat (List.length sids)) = false).
    { apply Z.eqb_neq. destruct sids; [contradiction|]. cbn [List.length]. lia. }
    rewrite Hpos.
    destruct file as [l|]; [|reflexivity].
    destruct (String.eqb_spec l "") as [|Hl]; [reflexivity|].
    destruct (String.eqb_spec "" l) as [E|_]; [symmetry in E; contradiction|reflexivity].
Qed.

(** Behind a server that is down the alarm goes out although a digest is
    stored. *)
Lemma main_notifies_witness :
  exists r : Main.run,
    Main.main 0 Examples.down_worlds 4 None (Some "9170a043b9207974")
      ["sid-1"; "sid-2"] = Some r
    /\ Main.pushed r = Some "qaq.al 签到告警".
Proof.
  eexists. split; [vm_compute; reflexivity|].
  match goal with
  | |- Main.pushed ?r = _ =>
      destruct (main_notifies 0 Examples.down_worlds 4 (Some "9170a043b9207974")
                  ["sid-1"; "sid-2"] r ltac:(discriminate)
                  ltac:(vm_compute; reflexivity)) as [_ [_ A]]
  end.
  apply A. reflexivity.
Defined.

(** X13. A run that repeats the rewards of the run before is silent. When a
    run of [main] has ended with exit code 0, and the next run, started on the
    digest file the first one left, ends with the same rewards (the same
    accounts succeed, with the same [reward_final], whatever else their
    results hold and in whatever order), the second run sends no notification,
    leaves the digest file as it is and ends with exit code 0. *)
Theorem main_second_run_silent :
  forall (fuel1 fuel2 : nat) (worlds1 worlds2 : nat -> CheckIn.World)
         (tier1 tier2 : Z) (push_error1 push_error2 : option string)
         (file : Main.digest_file) (sids1 sids2 : list string) (r1 r2 : Main.run),
    Main.main fuel1 worlds1 tier1 push_error1 file sids1 = Some r1 ->
    Main.ended r1 = Main.Exit 0 ->
    Main.main fuel2 worlds2 tier2 push_error2 (Main.stored r1) sids2 = Some r2 ->
    Permutation (Spec.successful_rewards (Main.current_info (Main.final r2)))
      (Spec.successful_rewards (Main.current_info (Main.final r1))) ->
    Main.pushed r2 = None
    /\ Main.stored r2 = Main.stored r1
    /\ Main.ended r2 = Main.Exit 0.
Proof.
  intros fuel1 fuel2 worlds1 worlds2 tier1 tier2 push_error1 push_error2 file
         sids1 sids2 r1 r2 H1 Hexit H2 HP.
  destruct (kept_results _ _ _ _ _ _ _ H1) as [Hnd1 [Hall1 [Hlen1 Hh1]]].
  destruct (kept_results _ _ _ _ _ _ _ H2) as [Hnd2 [Hall2 [Hlen2 Hh2]]].
  assert (Hne1 : sids1 <> []).
  { intros ->. injection H1 as <-. discriminate Hexit. }
  destruct (main_gate _ _ _ _ _ _ _ H1 Hne1)
    as [[msg [_ [_ [C _]]]]|[_ [_ [_ [Hst1 He1]]]]]; [congruence|].
  assert (Hpos1 : 0 < Main.success_count (Main.final r1)).
  { rewrite He1 in Hexit.
    destruct (Z.ltb_spec 0 (Main.success_count (Main.final r1))); [assumption|discriminate]. }
  assert (Hinfo1 : Main.current_info (Main.final r1) <> []).
  { intro E. rewrite E in Hlen1. cbn in Hlen1. lia. }
  assert (Hinfo2 : Main.current_info (Main.final r2) <> []).
  { intro E. rewrite E in HP. cbn in HP. apply Permutation_nil in HP.
    rewrite (successful_rewards_all _ Hall1) in HP.
    destruct (Main.current_info (Main.final r1)); [contradiction|discriminate]. }
  assert (Hsame : Main.current_hash r2 = Main.current_hash r1).
  { rewrite Hh1, Hh2, !hash_of_results by assumption.
    rewrite (canonical_text_Permutation _ _ (successful_rewards_keys _ Hnd2) HP).
    reflexivity. }
  assert (Hfull : String.eqb (Main.current_hash r1) "" = false).
  { apply String.eqb_neq. intro E.
    pose proof (hash_length _ Hnd1 Hinfo1) as L. rewrite <- Hh1, E in L. discriminate. }
  rewrite Hfull in Hst1.
  assert (Hne2 : sids2 <> []).
  { intros ->. injection H2 as <-. apply Hinfo2. reflexivity. }
  assert (Hdue : Spec.due (Main.stored r1) (Main.current_hash r2) = false).
  { rewrite Hst1, Hsame. unfold Spec.due. rewrite Hfull, String.eqb_refl. reflexivity. }
  destruct (main_gate _ _ _ _ _ _ _ H2 Hne2)
    as [[msg [C _]]|[_ [Hp2 [_ [Hst2 He2]]]]]; [congruence|].
  rewrite Hdue in Hp2. rewrite Hsame, Hfull in Hst2.
  split; [exact Hp2|]. split; [congruence|].
  rewrite He2.
  assert (0 < Main.success_count (Main.final r2)).
  { rewrite <- Hlen2. destruct (Main.current_info (Main.final r2)); [contradiction|].
    cbn [List.length]. lia. }
  comparison_is (0 <? Main.success_count (Main.final r2)) true. reflexivity.
Qed.

(** The run of three accounts, twice in a row. *)
Lemma main_second_run_silent_witness :
  exists r1 r2 : Main.run,
    Main.main 8 Examples.three_worlds 4 None None ["sid-1"; "sid-2"; "sid-3"] = Some r1
    /\ Main.main 8 Examples.three_worlds 4 None (Main.stored r1)
         ["sid-1"; "sid-2"; "sid-3"] = Some r2
    /\ Main.pushed r1 = Some "qaq.al 签到告警"
    /\ Main.pushed r2 = None
    /\ Main.stored r2 = Main.stored r1.
Proof.
  eexists. eexists. split; [vm_compute; reflexivity|].
  split; [vm_compute; reflexivity|]. split; [reflexivity|].
  match goal with
  | |- Main.pushed ?r2 = None /\ Main.stored ?r2 = Main.stored ?r1 =>
      destruct (main_second_run_silent 8 8 Examples.three_worlds Examples.three_worlds
                  4 4 None None None ["sid-1"; "sid-2"; "sid-3"]
                  ["sid-1"; "sid-2"; "sid-3"] r1 r2
                  ltac:(vm_compute; reflexivity) ltac:(reflexivity)
                  ltac:(vm_compute; reflexivity) ltac:(reflexivity))
        as [A [B _]]
  end.
  split; [exact A|exact B].
Defined.

(** X14. The exit status of the program. With a notifier that does not raise,
    [run_main] ends with status 0 or 1, and with 0 exactly when no account is
    configured ([main] then returns 1, which [run_main] drops) or at least one
    account succeeded; a run in which every account fails ends with 1. *)
Theorem run_main_status :
  forall (fuel : nat) (worlds : nat -> CheckIn.World) (tier : Z)
         (file : Main.digest_file) (sids : list string) (code : Z),
    Main.run_main fuel worlds tier None file sids = Some code ->
    (code = 0 \/ code = 1)
    /\ (code = 0
        <-> sids = []
            \/ exists vs : list Spec.verdict,
                 Spec.verdicts fuel worlds tier 0 sids = Some vs
                 /\ existsb Spec.is_success vs = true).
Proof.
  intros fuel worlds tier file sids code H. unfold Main.run_main in H.
  destruct (Main.main fuel worlds tier None file sids) as [r|] eqn:E; [|discriminate].
  injection H as <-.
  destruct sids as [|sid sids].
  - injection E as <-. cbn. split; [left; reflexivity|]. split; [left|]; reflexivity.
  - destruct (main_ends _ _ _ _ _ _ _ E ltac:(discriminate))
      as [vs [Hvs [_ [Hc _]]]].
    destruct (main_gate _ _ _ _ _ _ _ E ltac:(discriminate))
      as [[msg [_ [C _]]]|[_ [_ [_ [_ He]]]]]; [discriminate|].
    rewrite He, Hc.
    destruct (Z.ltb_spec 0 (Z.of_nat (List.length (filter Spec.is_success vs))))
      as [Hpos|Hzero].
    + split; [left; reflexivity|]. split; [|reflexivity].
      intros _. right. exists vs. split; [exact Hvs|]. apply existsb_filter. lia.
    + split; [right; reflexivity|]. split; [discriminate|].
      intros [C|[vs' [Hvs' Hex]]]; [discriminate|].
      rewrite Hvs in Hvs'. injection Hvs' as <-.
      apply existsb_filter in Hex. lia.
Qed.

(** Without accounts the status is 0; behind a server that is down it is 1. *)
Lemma run_main_status_witness :
  Main.run_main 0 Examples.down_worlds 4 None None [] = Some 0
  /\ Main.run_main 0 Examples.down_worlds 4 None None ["sid-1"; "sid-2"] = Some 1
  /\ (1 = 0 \/ 1 = 1).
Proof.
  split; [reflexivity|]. split; [reflexivity|].
  exact (proj1 (run_main_status 0 Examples.down_worlds 4 None ["sid-1"; "sid-2"] 1
                  ltac:(vm_compute; reflexivity))).
Defined.

(** X15. A notifier that fails costs the digest. When a notification is due
    and [notify.push_message] raises, the exception leaves [main] before the
    digest is saved and before [sys.exit]: the digest file is left as it was,
    although accounts may have succeeded, and the program ends with status 1.
    The next run therefore finds the old digest and notifies again. *)
Theorem main_notifier_failure :
  forall (fuel : nat) (worlds : nat -> CheckIn.World) (tier : Z) (msg : string)
         (file : Main.digest_file) (sids : list string) (r : Main.run),
    Main.main fuel worlds tier (Some msg) file sids = Some r ->
    sids <> [] ->
    Spec.due file (Main.current_hash r) = true ->
    Main.ended r = Main.Escaped msg
    /\ Main.pushed r = None
    /\ Main.saved r = None
    /\ Main.stored r = file
    /\ Main.run_main fuel worlds tier (Some msg) file sids = Some 1
    /\ Spec.due (Main.stored r) (Main.current_hash r) = true.
Proof.
  intros fuel worlds tier msg file sids r H Hne Hdue.
  destruct (main_gate _ _ _ _ _ _ _ H Hne)
    as [[msg' [_ [E [He [Hp [Hs Hst]]]]]]|[[C|C] _]]; try congruence.
  injection E as <-.
  split; [exact He|]. split; [exact Hp|]. split; [exact Hs|]. split; [exact Hst|].
  split; [unfold Main.run_main; rewrite H, He; reflexivity|].
  rewrite Hst. exact Hdue.
Qed.

(** Three accounts, two successes, and a notifier that is down. *)
Lemma main_notifier_failure_witness :
  exists r : Main.run,
    Main.main 8 Examples.three_worlds 4 (Some "smtp down") None
      ["sid-1"; "sid-2"; "sid-3"] = Some r
    /\ Main.success_count (Main.final r) = 2
    /\ Main.stored r = None
    /\ Main.run_main 8 Examples.three_worlds 4 (Some "smtp down") None
         ["sid-1"; "sid-2"; "sid-3"] = Some 1.
Proof.
  eexists. split; [vm_compute; reflexivity|]. split; [reflexivity|].
  match goal with
  | |- Main.stored ?r = None /\ _ =>
      destruct (main_notifier_failure 8 Examples.three_worlds 4 "smtp down" None
                  ["sid-1"; "sid-2"; "sid-3"] r
                  ltac:(vm_compute; reflexivity) ltac:(discriminate)
                  ltac:(reflexivity))
        as [_ [_ [_ [A [B _]]]]]
  end.
  split; [exact A|exact B].
Defined.

(** X16. The body of the notification. In every run of [main] that ends, the
    notification content is the entries of the accounts in their order, one
    per account, with exactly one separator line between two neighbours and
    none before the first or after the last. *)
Theorem main_separates_entries :
  forall (fuel : nat) (worlds : nat -> CheckIn.World) (tier : Z)
         (push_error : option string) (file : Main.digest_file) (sids : list string)
         (r : Main.run),
    Main.main fuel worlds tier push_error file sids = Some r ->
    exists vs : list Spec.verdict,
      Spec.verdicts fuel worlds tier 0 sids = Some vs
      /\ List.length vs = List.length sids
      /\ Main.notification_content (Main.final r)
         = Spec.separated (Spec.entries 0 vs).
Proof.
  intros fuel worlds tier push_error file sids r H.
  destruct sids as [|sid sids].
  - injection H as <-. exists []. repeat split.
  - destruct (main_ends _ _ _ _ _ _ _ H ltac:(discriminate))
      as [vs [Hvs [Hl _]]].
    exists vs. split; [exact Hvs|].
    split; [exact (verdicts_length _ _ _ _ _ _ Hvs)|].
    exact (accounts_loop_content _ _ _ _ _ _ _ _ Hvs Hl).
Qed.

(** The content of the run of three accounts. *)
Lemma main_separates_entries_witness :
  exists r : Main.run,
    Main.main 8 Examples.three_worlds 4 None None ["sid-1"; "sid-2"; "sid-3"] = Some r
    /\ Main.notification_content (Main.final r)
       = [Main.AlreadySignedLine "account_1" (Py.JStr "5") (Py.JStr "");
          Main.Separator;
          Main.ExceptionLine "account_2" "Failed to initialise session";
          Main.Separator;
          Main.RewardLine "account_3" (Py.JStr "9") (Py.JStr "gold")
            (Py.JInt 3) (Py.JInt 20)].
Proof.
  eexists. split; [vm_compute; reflexivity|].
  match goal with
  | |- Main.notification_content (Main.final ?r) = _ =>
      destruct (main_separates_entries 8 Examples.three_worlds 4 None None
                  ["sid-1"; "sid-2"; "sid-3"] r ltac:(vm_compute; reflexivity))
        as [vs [Hvs [_ E]]]
  end.
  rewrite E. vm_compute in Hvs. injection Hvs as <-. reflexivity.
Defined.

(** ** The reward generators: what they yield, and when they stop *)

Section Items.

Import Py Cdk Spec.

Lemma produced_app (a b : list event) : produced (a ++ b) = produced a ++ produced b.
Proof. unfold produced. apply flat_map_app. Qed.

Lemma produced_call (c : call) (l : list event) : produced (Call c :: l) = produced l.
Proof. reflexivity. Qed.

Lemma produced_yield (it : item) (l : list event) :
  produced (Yield it :: l) = it :: produced l.
Proof. reflexivity. Qed.

Lemma calls_call (c c' : call) (l : list event) :
  calls c (Call c' :: l) = ((if call_eqb c c' then 1 else 0) + calls c l)%nat.
Proof. unfold calls. cbn [filter]. destruct (call_eqb c c'); reflexivity. Qed.

Lemma calls_yield (c : call) (it : item) (l : list event) :
  calls c (Yield it :: l) = calls c l.
Proof. reflexivity. Qed.

(** Counts the calls and collects the items of a run that is spelled out. *)
Ltac count_run :=
  rewrite ?produced_app, ?calls_app, ?produced_call, ?produced_yield, ?calls_call,
    ?calls_yield;
  cbn [call_eqb Nat.add app].

(** A stretch of a run that yields nothing. *)
Ltac quiet_run H :=
  injection H as <- <-; exists []; cbn; repeat split; try constructor; lia.

Lemma wheel_loop_codes (site : WheelSite) :
  forall (fuel n : nat) (remaining : json) (events : list event) (s : stop),
    wheel_loop fuel site n remaining = Some (events, s) ->
    exists codes : list json,
      produced events = map Code codes
      /\ Forall (fun c => truthy c = true) codes
      /\ (List.length codes <= calls Wheel events)%nat
      /\ calls Close events = 0%nat.
Proof.
  induction fuel as [|f IH]; intros n remaining events s H; [discriminate|].
  cbn [wheel_loop] in H.
  destruct (as_int remaining) as [z|]; [|quiet_run H].
  destruct (z <=? 0); [quiet_run H|].
  destruct (wheel_reply site n) as [msg|status json_data]; [quiet_run H|].
  destruct ((status =? 200) || (status =? 400))%bool; [|quiet_run H].
  destruct json_data as [|b0|z0|s0|l0|d]; try quiet_run H.
  destruct (truthy (get d "success" JNull)); [|quiet_run H].
  destruct (truthy (get d "code" (JStr ""))) eqn:Ecode; [|quiet_run H].
  destruct (wheel_loop f site (S n) (get d "remaining" (JInt (z - 1))))
    as [[more s']|] eqn:El; [|discriminate].
  cbn [after] in H. injection H as <- <-.
  destruct (IH _ _ _ _ El) as [codes [Hp [Ht [Hn Hc]]]].
  exists (get d "code" (JStr "") :: codes).
  count_run. rewrite Hp.
  split; [reflexivity|]. split; [constructor; assumption|]. cbn [List.length]. split; lia.
Qed.

Lemma checkin_part_codes (site : WheelSite) (events : list event) (s : stop) :
  checkin_part site = (events, s) ->
  exists codes : list json,
    produced events = map Code codes
    /\ Forall (fun c => truthy c = true) codes
    /\ (List.length codes <= calls Checkin events)%nat
    /\ calls Close events = 0%nat
    /\ calls Wheel events = 0%nat.
Proof.
  unfold checkin_part. intro H.
  destruct (checkin_status_reply site) as [msg|status status_data]; [quiet_run H|].
  destruct (if status =? 200
            then if truthy status_data
                 then match status_data with
                      | JDict d => inl (truthy (get d "checked" JNull))
                      | _ => inr (no_attribute status_data "get")
                      end
                 else inl false
            else inl false) as [[|]|msg]; try quiet_run H.
  destruct (checkin_reply site) as [msg|status' json_data]; [quiet_run H|].
  destruct ((status' =? 200) || (status' =? 400))%bool; [|quiet_run H].
  destruct json_data as [|b0|z0|s0|l0|d]; try quiet_run H.
  destruct (truthy (get d "success" JNull)); [|quiet_run H].
  destruct (truthy (get d "code" (JStr ""))) eqn:Ecode; [|quiet_run H].
  injection H as <- <-. exists [get d "code" (JStr "")]. cbn.
  split; [reflexivity|]. split; [repeat constructor; assumption|]. repeat split; lia.
Qed.

Lemma wheel_part_codes (fuel : nat) (site : WheelSite) (events : list event)
    (s : stop) :
  wheel_part fuel site = Some (events, s) ->
  exists codes : list json,
    produced events = map Code codes
    /\ Forall (fun c => truthy c = true) codes
    /\ (List.length codes <= calls Wheel events)%nat
    /\ calls Close events = 0%nat.
Proof.
  unfold wheel_part. intro H.
  destruct (wheel_check site) as [remaining|msg]; [|quiet_run H].
  destruct (remaining <=? 0); [quiet_run H|].
  destruct (wheel_loop fuel site 0 (JInt remaining)) as [[more s']|] eqn:El;
    [|discriminate].
  cbn [after] in H. injection H as <- <-.
  destruct (wheel_loop_codes _ _ _ _ _ _ El) as [codes [Hp [Ht [Hn Hc]]]].
  exists codes. count_run. rewrite Hp.
  split; [reflexivity|]. split; [assumption|]. split; lia.
Qed.

(** The body of a run of the wheel generator that has a session, before the
    session is closed. *)
Lemma wheel_body (fuel : nat) (site : WheelSite) (events : list event) :
  wheel_session_error site = None ->
  get_runawaytime_cdk fuel true site = Some events ->
  exists (body : list event) (s : stop) (codes : list json),
    events = closing (wheel_close_error site) (body, s)
    /\ produced body = map Code codes
    /\ Forall (fun c => truthy c = true) codes
    /\ (List.length codes <= calls Checkin body + calls Wheel body)%nat
    /\ calls Close body = 0%nat.
Proof.
  unfold get_runawaytime_cdk. cbn [negb]. intros Hse H. rewrite Hse in H.
  destruct (checkin_part site) as [first s1] eqn:E1.
  destruct (checkin_part_codes _ _ _ E1) as [codes1 [Hp1 [Ht1 [Hn1 [Hc1 Hw1]]]]].
  destruct s1 as [|msg].
  - destruct (wheel_part fuel site) as [[more s2]|] eqn:E2; [|discriminate].
    cbn [after] in H. injection H as <-.
    destruct (wheel_part_codes _ _ _ _ E2) as [codes2 [Hp2 [Ht2 [Hn2 Hc2]]]].
    exists (first ++ more), s2, (codes1 ++ codes2).
    rewrite produced_app, !calls_app, Hp1, Hp2, map_app, length_app.
    split; [reflexivity|]. split; [reflexivity|].
    split; [apply Forall_app; split; assumption|]. split; lia.
  - injection H as <-. exists first, (Fault msg), codes1.
    split; [reflexivity|]. split; [assumption|]. split; [assumption|]. split; lia.
Qed.

Lemma closing_shape (close_error : option string) (body : list event) (s : stop) :
  exists tail : list event,
    closing close_error (body, s) = body ++ Call Close :: tail
    /\ (tail = [] \/ exists msg, tail = [Yield (Error (Cdk.Crashed msg))]).
Proof.
  unfold closing. destruct close_error as [msg|]; [|destruct s as [|msg]];
    eexists; (split; [reflexivity|]); eauto.
Qed.

Lemma scan_yields (lines : list line) :
  forall (remaining r' : Z) (yielded : list event),
    scan lines remaining = inl (yielded, r') ->
    yielded = []
    \/ (exists c, yielded = [Yield (Code c)] /\ truthy c = true)
    \/ (exists m, yielded = [Yield (Error (DrawRefused m))] /\ r' = 0).
Proof.
  induction lines as [|ln lines IH]; intros remaining r' yielded H; cbn [scan] in H.
  - injection H as <- <-. left. reflexivity.
  - destruct (tagged ln); [|exact (IH _ _ _ H)].
    destruct (loads ln) as [[|b0|z0|s0|l0|d]|];
      try (injection H as <- <-; left; reflexivity).
    + destruct (truthy (get d "success" JNull)).
      * destruct (get d "prize" (JDict [])); try discriminate.
        destruct (truthy (get d "redemptionCode" (JStr ""))) eqn:Ec;
          injection H as <- <-; [right; left; eauto|left; reflexivity].
      * injection H as <- <-. right. right. eauto.
    + destruct (int_of ln) as [[|q|q]|]; exact (IH _ _ _ H).
Qed.

Lemma closing_settled (tail : list event) :
  forallb closing_event tail = true -> settled tail = true.
Proof.
  induction tail as [|e tail IH]; [reflexivity|]. cbn [forallb]. intro H.
  apply andb_prop in H. destruct H as [He Ht].
  destruct e as [[]|[c|f]]; try discriminate; cbn [settled]; auto.
Qed.

Lemma draw_loop_items (site : DrawSite) :
  forall (fuel n : nat) (remaining : Z) (events : list event) (s : stop),
    draw_loop fuel site n remaining = Some (events, s) ->
    Forall (fun it => match it with
                      | Code c => truthy c = true
                      | Error _ => True
                      end) (produced events)
    /\ calls Close events = 0%nat
    /\ (forall tail, forallb closing_event tail = true ->
                     settled (events ++ tail) = true).
Proof.
  induction fuel as [|f IH]; intros n remaining events s H; [discriminate|].
  cbn [draw_loop] in H.
  assert (Stop : forall (f' : nat) (k : nat) (more : list event) (s' : stop),
             draw_loop f' site k 0 = Some (more, s') -> more = []).
  { intros [|f'] k more s' E; [discriminate|]. cbn in E. injection E as <- _.
    reflexivity. }
  destruct (remaining <=? 0).
  { injection H as <- <-. cbn. split; [constructor|]. split; [reflexivity|].
    exact closing_settled. }
  destruct (draw_reply site n) as [msg|status lines].
  { injection H as <- <-. cbn. split; [constructor|]. split; [reflexivity|].
    exact closing_settled. }
  destruct (status =? 200).
  - destruct (scan lines remaining) as [[yielded r']|msg] eqn:Es.
    + destruct (draw_loop f site (S n) r') as [[more s']|] eqn:El; [|discriminate].
      cbn [after] in H. injection H as <- <-.
      destruct (IH _ _ _ _ El) as [Hi [Hc Hs]].
      destruct (scan_yields _ _ _ _ Es) as [->|[[c [-> Hc']]|[m [-> ->]]]].
      * cbn. split; [exact Hi|]. split; [exact Hc|exact Hs].
      * cbn. split; [constructor; assumption|]. split; [exact Hc|exact Hs].
      * rewrite (Stop _ _ _ _ El). cbn.
        split; [repeat constructor|]. split; [reflexivity|]. auto.
    + injection H as <- <-. cbn. split; [constructor|]. split; [reflexivity|].
      exact closing_settled.
  - destruct (draw_loop f site (S n) 0) as [[more s']|] eqn:El; [|discriminate].
    cbn [after] in H. injection H as <- <-.
    rewrite (Stop _ _ _ _ El). cbn.
    split; [repeat constructor|]. split; [reflexivity|]. auto.
Qed.

Lemma settled_after (events : list event) :
  settled events = true ->
  forall (pre post : list event) (f : failure),
    events = pre ++ Yield (Error f) :: post ->
    forallb closing_event post = true.
Proof.
  intros Hs pre. revert events Hs.
  induction pre as [|e pre IH]; intros events Hs post f ->; cbn [app settled] in Hs.
  - exact Hs.
  - destruct e as [c|[c|f']]; try exact (IH _ Hs _ _ eq_refl).
    rewrite forallb_app in Hs. apply andb_prop in Hs. destruct Hs as [_ Hs].
    cbn [forallb] in Hs. apply andb_prop in Hs. exact (proj2 Hs).
Qed.

(** The body of a run of the lucky-draw generator that opened a session. *)
Lemma draw_body (fuel : nat) (site : DrawSite) (events : list event)
    (s : stop) :
  draw_part fuel site = Some (events, s) ->
  Forall (fun it => match it with
                    | Code c => truthy c = true \/ (c = JStr "" /\ calls Draw events = 0%nat)
                    | Error _ => True
                    end) (produced events)
  /\ calls Close events = 0%nat
  /\ (forall tail, forallb closing_event tail = true ->
                   settled (events ++ tail) = true).
Proof.
  unfold draw_part. intro H.
  destruct (draw_check site) as [remaining|msg].
  - destruct (remaining <=? 0).
    + injection H as <- <-. cbn. split; [repeat constructor; right; auto|].
      split; [reflexivity|]. exact closing_settled.
    + destruct (draw_loop fuel site 0 remaining) as [[more s']|] eqn:El; [|discriminate].
      cbn [after] in H. injection H as <- <-.
      destruct (draw_loop_items _ _ _ _ _ _ El) as [Hi [Hc Hs]].
      cbn. split; [|split; [exact Hc|exact Hs]].
      eapply Forall_impl; [|exact Hi]. intros [c|f]; auto.
  - injection H as <- <-. cbn. split; [constructor|]. split; [reflexivity|].
    exact closing_settled.
Qed.

End Items.

(** X17. What the wheel generator hands to its consumer. In every run of
    [get_runawaytime_cdk] that ends, the items yielded are codes followed by
    at most one failure, which is then the last item; every code is a value
    that is not empty (the consumer never tops up an empty code); and there
    are at most as many codes as check-in and spin requests were sent. *)
Theorem wheel_yields_codes :
  forall (fuel : nat) (get_cdk_cookies : bool) (site : Cdk.WheelSite)
         (events : list Cdk.event),
    Cdk.get_runawaytime_cdk fuel get_cdk_cookies site = Some events ->
    exists (codes : list Py.json) (tail : list Cdk.item),
      Cdk.produced events = map Cdk.Code codes ++ tail
      /\ Forall (fun c => Py.truthy c = true) codes
      /\ (tail = [] \/ exists f : Cdk.failure, tail = [Cdk.Error f])
      /\ (List.length codes
          <= Cdk.calls Cdk.Checkin events + Cdk.calls Cdk.Wheel events)%nat.
Proof.
  intros fuel get_cdk_cookies site events H.
  destruct get_cdk_cookies.
  - destruct (Cdk.wheel_session_error site) as [msg|] eqn:Hse.
    + unfold Cdk.get_runawaytime_cdk in H. cbn [negb] in H. rewrite Hse in H.
      injection H as <-. exists [], [Cdk.Error (Cdk.Crashed msg)].
      split; [reflexivity|]. split; [constructor|]. split; [right; eauto|cbn; lia].
    + destruct (wheel_body _ _ _ Hse H) as [body [s [codes [-> [Hp [Ht [Hn Hc]]]]]]].
      destruct (closing_shape (Cdk.wheel_close_error site) body s)
        as [tail [-> Htail]].
      exists codes, (Cdk.produced tail).
      rewrite produced_app, produced_call, !calls_app, !calls_call, Hp.
      cbn [Cdk.call_eqb].
      split; [reflexivity|]. split; [exact Ht|].
      split; [destruct Htail as [->|[msg ->]]; [left|right; eexists]; reflexivity|lia].
  - injection H as <-. exists [], [Cdk.Error Cdk.NoCookies].
    split; [reflexivity|]. split; [constructor|]. split; [right; eauto|cbn; lia].
Qed.

(** The wheel with two spins left, awarded [A] and [B]. *)
Lemma wheel_yields_codes_witness :
  exists (codes : list Py.json) (tail : list Cdk.item),
    Cdk.produced
      [Cdk.Call Cdk.CheckinStatus; Cdk.Call Cdk.WheelStatus;
       Cdk.Call Cdk.Wheel; Cdk.Yield (Cdk.Code (Py.JStr "A"));
       Cdk.Call Cdk.Wheel; Cdk.Yield (Cdk.Code (Py.JStr "B")); Cdk.Call Cdk.Close]
    = map Cdk.Code codes ++ tail
    /\ Forall (fun c => Py.truthy c = true) codes
    /\ (tail = [] \/ exists f : Cdk.failure, tail = [Cdk.Error f])
    /\ (List.length codes <= 0 + 2)%nat.
Proof.
  exact (wheel_yields_codes 3 true (Examples.wheel_site 2 Examples.wheel_replies_AB)
           _ eq_refl).
Defined.

Section Closing.

Import Py Cdk Spec.

Lemma closing_only (post : list event) :
  forallb closing_event post = true ->
  (forall c, c <> Close -> calls c post = 0%nat)
  /\ (forall it, In it (produced post) -> exists f, it = Error f).
Proof.
  induction post as [|e post IH]; cbn [forallb]; intro H.
  - split; [reflexivity|]. intros it [].
  - apply andb_prop in H. destruct H as [He Hp]. destruct (IH Hp) as [I1 I2].
    destruct e as [[]|[c|f]]; try discriminate.
    + split.
      * intros c Hc. rewrite calls_call, (I1 c Hc).
        destruct c; try reflexivity. contradiction.
      * exact I2.
    + split.
      * intros c Hc. rewrite calls_yield. exact (I1 c Hc).
      * intros it [<-|Hin]; [eauto|exact (I2 it Hin)].
Qed.

Lemma closing_tail (close_error : option string) (body : list event) (s : stop) :
  exists tail : list event,
    closing close_error (body, s) = body ++ tail
    /\ forallb closing_event tail = true
    /\ calls Close tail = 1%nat
    /\ (forall c, c <> Close -> calls c tail = 0%nat)
    /\ (forall it, In it (produced tail) -> exists f, it = Error f).
Proof.
  unfold closing. destruct close_error as [msg|]; [|destruct s as [|msg]];
    eexists; (split; [reflexivity|]); (split; [reflexivity|]);
    (split; [reflexivity|]);
    (split; [intros c Hc; destruct c; try reflexivity; contradiction|]);
    cbn; intros it Hin; intuition eauto.
Qed.

End Closing.

(** X18. A session that was opened is closed, on every path. In every run of
    [get_runawaytime_cdk] that found its cookies, and in every run of
    [get_b4u_cdk] that found its cookies and a [cf_clearance]: when the
    constructor of the session raises, the run yields that failure and
    nothing else, sends no request and closes nothing; otherwise, whether the
    body ends normally, by a [break] or by an exception, the session is closed
    exactly once, and no request is sent after that. *)
Theorem harvest_closes_session :
  (forall (fuel : nat) (site : Cdk.WheelSite) (events : list Cdk.event),
      Cdk.get_runawaytime_cdk fuel true site = Some events ->
      (forall msg : string,
          Cdk.wheel_session_error site = Some msg ->
          events = [Cdk.Yield (Cdk.Error (Cdk.Crashed msg))])
      /\ (Cdk.wheel_session_error site = None ->
          exists body tail : list Cdk.event,
            events = body ++ Cdk.Call Cdk.Close :: tail
            /\ Cdk.calls Cdk.Close body = 0%nat
            /\ forall c : Cdk.call, Cdk.calls c tail = 0%nat))
  /\ (forall (fuel : nat) (site : Cdk.DrawSite) (events : list Cdk.event)
             (cf_cookies : list (string * string))
             (browser_headers : option (list (string * string))),
         Cdk.clearance site = inr (Some cf_cookies, browser_headers) ->
         Py.has_key "cf_clearance" cf_cookies = true ->
         Cdk.get_b4u_cdk fuel true site = Some events ->
         (forall msg : string,
             Cdk.draw_session_error site = Some msg ->
             events = [Cdk.Call Cdk.Clearance; Cdk.Yield (Cdk.Error (Cdk.Crashed msg))])
         /\ (Cdk.draw_session_error site = None ->
             exists body tail : list Cdk.event,
               events = body ++ Cdk.Call Cdk.Close :: tail
               /\ Cdk.calls Cdk.Close body = 0%nat
               /\ forall c : Cdk.call, Cdk.calls c tail = 0%nat)).
Proof.
  split.
  - intros fuel site events H. split.
    + intros msg Hse. unfold Cdk.get_runawaytime_cdk in H. cbn [negb] in H.
      rewrite Hse in H. injection H as <-. reflexivity.
    + intro Hse.
      destruct (wheel_body _ _ _ Hse H) as [body [s [codes [-> [_ [_ [_ Hc]]]]]]].
      destruct (closing_shape (Cdk.wheel_close_error site) body s)
        as [tail [-> Htail]].
      exists body, tail. split; [reflexivity|]. split; [exact Hc|].
      intro c. destruct Htail as [->|[msg ->]]; reflexivity.
  - intros fuel site events cf_cookies browser_headers Hcl Hk H.
    unfold Cdk.get_b4u_cdk in H. cbn [negb] in H. rewrite Hcl, Hk in H. split.
    + intros msg Hse. rewrite Hse in H. injection H as <-. reflexivity.
    + intro Hse. rewrite Hse in H.
      destruct (Cdk.draw_part fuel site) as [[body s]|] eqn:E; [|discriminate].
      assert (Hev : events
                    = Cdk.Call Cdk.Clearance
                        :: Cdk.closing (Cdk.draw_close_error site) (body, s))
        by (injection H as <-; reflexivity).
      subst events. clear H.
      destruct (draw_body _ _ _ _ E) as [_ [Hc _]].
      destruct (closing_shape (Cdk.draw_close_error site) body s)
        as [tail [-> Htail]].
      exists (Cdk.Call Cdk.Clearance :: body), tail.
      split; [reflexivity|]. split; [rewrite calls_call; exact Hc|].
      intro c. destruct Htail as [->|[msg ->]]; reflexivity.
Qed.

(** The wheel and the lucky draw with two attempts left. *)
Lemma harvest_closes_session_witness :
  (exists body tail : list Cdk.event,
      [Cdk.Call Cdk.CheckinStatus; Cdk.Call Cdk.WheelStatus;
       Cdk.Call Cdk.Wheel; Cdk.Yield (Cdk.Code (Py.JStr "A"));
       Cdk.Call Cdk.Wheel; Cdk.Yield (Cdk.Code (Py.JStr "B")); Cdk.Call Cdk.Close]
      = body ++ Cdk.Call Cdk.Close :: tail
      /\ Cdk.calls Cdk.Close body = 0%nat
      /\ forall c : Cdk.call, Cdk.calls c tail = 0%nat)
  /\ (exists body tail : list Cdk.event,
         [Cdk.Call Cdk.Clearance; Cdk.Call Cdk.DrawStatus;
          Cdk.Call Cdk.Draw; Cdk.Yield (Cdk.Code (Py.JStr "A"));
          Cdk.Call Cdk.Draw; Cdk.Yield (Cdk.Code (Py.JStr "B")); Cdk.Call Cdk.Close]
         = body ++ Cdk.Call Cdk.Close :: tail
         /\ Cdk.calls Cdk.Close body = 0%nat
         /\ forall c : Cdk.call, Cdk.calls c tail = 0%nat).
Proof.
  destruct harvest_closes_session as [W D]. split.
  - exact (proj2 (W 3%nat (Examples.wheel_site 2 Examples.wheel_replies_AB) _ eq_refl)
             eq_refl).
  - exact (proj2 (D 3%nat (Examples.draw_site 2 Examples.draw_replies_AB) _
                    [("cf_clearance", "token")] None eq_refl eq_refl eq_refl)
             eq_refl).
Defined.

(** X19. What the lucky-draw generator hands to its consumer. In every run of
    [get_b4u_cdk] that ends, every code yielded is a value that is not empty,
    except the empty code that marks that nothing is to be topped up, which is
    yielded only in a run that sends no draw; and a failure ends the harvest:
    after a failure item no draw and no status request is sent and no code is
    yielded (only the session is closed, which may fail in turn). *)
Theorem draw_yields_then_stops :
  forall (fuel : nat) (get_cdk_cookies : bool) (site : Cdk.DrawSite)
         (events : list Cdk.event),
    Cdk.get_b4u_cdk fuel get_cdk_cookies site = Some events ->
    (forall c : Py.json,
        In (Cdk.Code c) (Cdk.produced events) ->
        Py.truthy c = true
        \/ (c = Py.JStr "" /\ Cdk.calls Cdk.Draw events = 0%nat))
    /\ (forall (pre post : list Cdk.event) (f : Cdk.failure),
           events = pre ++ Cdk.Yield (Cdk.Error f) :: post ->
           Cdk.calls Cdk.Draw post = 0%nat
           /\ Cdk.calls Cdk.DrawStatus post = 0%nat
           /\ forall it : Cdk.item,
                In it (Cdk.produced post) -> exists f' : Cdk.failure, it = Cdk.Error f').
Proof.
  intros fuel get_cdk_cookies site events H.
  assert (After : Spec.settled events = true ->
                  forall (pre post : list Cdk.event) (f : Cdk.failure),
                    events = pre ++ Cdk.Yield (Cdk.Error f) :: post ->
                    Cdk.calls Cdk.Draw post = 0%nat
                    /\ Cdk.calls Cdk.DrawStatus post = 0%nat
                    /\ forall it : Cdk.item,
                         In it (Cdk.produced post) ->
                         exists f' : Cdk.failure, it = Cdk.Error f').
  { intros Hs pre post f E.
    destruct (closing_only post (settled_after events Hs pre post f E)) as [C1 C2].
    split; [apply C1; discriminate|]. split; [apply C1; discriminate|exact C2]. }
  unfold Cdk.get_b4u_cdk in H.
  destruct (negb get_cdk_cookies).
  { injection H as <-. split; [|apply After; reflexivity].
    intros c [C|[]]. discriminate. }
  destruct (Cdk.clearance site) as [msg|[cf_cookies browser_headers]].
  { injection H as <-. split; [|apply After; reflexivity].
    intros c [C|[]]. discriminate. }
  destruct (match cf_cookies with
            | Some c => Py.has_key "cf_clearance" c
            | None => false
            end).
  2:{ injection H as <-. split; [|apply After; reflexivity].
      intros c [C|[]]. discriminate. }
  destruct (Cdk.draw_session_error site) as [msg|].
  { injection H as <-. split; [|apply After; reflexivity].
    intros c [C|[]]. discriminate. }
  destruct (Cdk.draw_part fuel site) as [[body s]|] eqn:E; [|discriminate].
  assert (Hev : events
                = Cdk.Call Cdk.Clearance
                    :: Cdk.closing (Cdk.draw_close_error site) (body, s))
    by (injection H as <-; reflexivity).
  subst events. clear H.
  destruct (draw_body _ _ _ _ E) as [Hi [_ Hs]].
  destruct (closing_tail (Cdk.draw_close_error site) body s)
    as [tail [Ecl [Ht [_ [Hn He]]]]].
  rewrite Ecl in *. clear Ecl.
  split.
  - intros c Hin. rewrite produced_call, produced_app in Hin.
    apply in_app_or in Hin. destruct Hin as [Hin|Hin].
    + rewrite Forall_forall in Hi. specialize (Hi _ Hin). cbn in Hi.
      destruct Hi as [Hi|[Hi Hd]]; [left; exact Hi|right].
      split; [exact Hi|]. rewrite calls_call, calls_app, Hd, Hn by discriminate.
      reflexivity.
    + destruct (He _ Hin) as [f' C]. discriminate.
  - apply After. cbn [Spec.settled]. apply Hs. exact Ht.
Qed.

(** A lucky draw that is refused on the second draw stops there. *)
Lemma draw_yields_then_stops_witness :
  Cdk.calls Cdk.Draw [Cdk.Call Cdk.Close] = 0%nat
  /\ Cdk.calls Cdk.DrawStatus [Cdk.Call Cdk.Close] = 0%nat
  /\ forall it : Cdk.item,
       In it (Cdk.produced [Cdk.Call Cdk.Close]) ->
       exists f' : Cdk.failure, it = Cdk.Error f'.
Proof.
  exact (proj2 (draw_yields_then_stops 4 true
                  (Examples.draw_site 3 Examples.draw_replies_refused) _ eq_refl)
           [Cdk.Call Cdk.Clearance; Cdk.Call Cdk.DrawStatus;
            Cdk.Call Cdk.Draw; Cdk.Yield (Cdk.Code (Py.JStr "A")); Cdk.Call Cdk.Draw]
           [Cdk.Call Cdk.Close]
           (Cdk.DrawRefused (Py.JStr "no luck")) eq_refl).
Defined.

(** ** The daily spin *)

Section SpinShape.

Import Py X666.

Lemma spin_part_shape (site : Site) :
  exists (items : list item) (s : Cdk.stop),
    spin_part site = (Call Spin :: map Yield items, s)
    /\ Spec.spin_ending site items s.
Proof.
  unfold spin_part.
  destruct (spin_reply site) as [msg|status json_data] eqn:Er;
    [exists [], (Cdk.Fault msg); split; [reflexivity|constructor]|].
  destruct ((status =? 200) || (status =? 400))%bool eqn:Est;
    [|exists [Error (SpinHttp status)], Cdk.Done; split; [reflexivity|constructor]].
  assert (Hst : status = 200 \/ status = 400).
  { apply orb_prop in Est. destruct Est as [E|E]; apply Z.eqb_eq in E; auto. }
  destruct json_data as [|b0|z0|s0|l0|d];
    try (eexists [], (Cdk.Fault _); split; [reflexivity|constructor]).
  - exists [], Cdk.Done. split; [reflexivity|]. exact (Spec.Silent site status Er Hst).
  - destruct (truthy (get d "success" JNull));
      [exists [Code (JStr "")], Cdk.Done; split; [reflexivity|constructor]|].
    destruct (get d "message" (get d "msg" (JStr ""))) as [|b0|z0|message|l0|d0];
      try (eexists [], (Cdk.Fault _); split; [reflexivity|constructor]).
    destruct (contains "already" (lower message) || contains "已签到" message)%bool;
      [exists [Code (JStr "")], Cdk.Done
      |exists [Error (SpinFailed message)], Cdk.Done];
      (split; [reflexivity|constructor]).
Qed.

Lemma session_part_shape (site : Site) :
  exists (spun : bool) (items : list item) (s : Cdk.stop),
    session_part site
    = (Call Status :: (if spun then [Call Spin] else []) ++ map Yield items, s)
    /\ Spec.spin_ending site items s
    /\ (spun = true ->
        exists d,
          status_reply site = Cdk.Http 200 (JDict d)
          /\ truthy (get d "success" JNull) = true
          /\ truthy (get d "can_spin" (JBool false)) = true)
    /\ (spun = false -> items <> [] \/ exists msg, s = Cdk.Fault msg).
Proof.
  assert (Quiet : forall items s,
             Spec.spin_ending site items s ->
             (items <> [] \/ exists msg, s = Cdk.Fault msg) ->
             exists (spun : bool) (items' : list item) (s' : Cdk.stop),
               (Call Status :: map Yield items, s)
               = (Call Status :: (if spun then [Call Spin] else []) ++ map Yield items',
                  s')
               /\ Spec.spin_ending site items' s'
               /\ (spun = true ->
                   exists d,
                     status_reply site = Cdk.Http 200 (JDict d)
                     /\ truthy (get d "success" JNull) = true
                     /\ truthy (get d "can_spin" (JBool false)) = true)
               /\ (spun = false -> items' <> [] \/ exists msg, s' = Cdk.Fault msg)).
  { intros items s He Hq. exists false, items, s.
    split; [reflexivity|]. split; [exact He|]. split; [discriminate|intros _; exact Hq]. }
  unfold session_part.
  destruct (status_reply site) as [msg|status status_data] eqn:Er;
    [apply (Quiet [] (Cdk.Fault msg)); [constructor|right; eauto]|].
  destruct (Z.eqb_spec status 200) as [->|Hne];
    [|apply (Quiet [Error (StatusHttp status)] Cdk.Done);
      [constructor|left; discriminate]].
  destruct (truthy status_data);
    [|apply (Quiet [Error (StatusFailed (JStr "Invalid response"))] Cdk.Done);
      [constructor|left; discriminate]].
  destruct status_data as [|b0|z0|s0|l0|d];
    try (eapply (Quiet [] (Cdk.Fault _)); [constructor|right; eauto]).
  destruct (truthy (get d "success" JNull)) eqn:Es;
    [|apply (Quiet [Error (StatusFailed (get d "message" (JStr "Unknown error")))]
                Cdk.Done); [constructor|left; discriminate]].
  destruct (truthy (get d "can_spin" (JBool false))) eqn:Ec.
  - destruct (spin_part_shape site) as [items [s [-> He]]].
    exists true, items, s. split; [reflexivity|]. split; [exact He|].
    split; [intros _; exists d; auto|discriminate].
  - destruct (get d "today_record" JNull) as [|b0|z0|s0|l0|today_record];
      try (eapply (Quiet [] (Cdk.Fault _)); [constructor|right; eauto]).
    destruct (as_int (get today_record "quota_amount" (JInt 0))) as [today_quota|];
      [destruct (division_overflows today_quota 500)|];
      [eapply (Quiet [] (Cdk.Fault _)); [constructor|right; eauto]
      |apply (Quiet [Code (JStr "")] Cdk.Done); [constructor|left; discriminate]
      |eapply (Quiet [] (Cdk.Fault _)); [constructor|right; eauto]].
Qed.

Lemma produced_yields (items : list item) : produced (map Yield items) = items.
Proof.
  induction items as [|it items IH]; [reflexivity|].
  change (produced (map Yield (it :: items))) with (it :: produced (map Yield items)).
  rewrite IH. reflexivity.
Qed.

Lemma calls_yields (c : call) (items : list item) : calls c (map Yield items) = 0%nat.
Proof. induction items as [|it items IH]; [reflexivity|exact IH]. Qed.

(** A run of the generator that reaches the session, spelled out. *)
Lemma session_run (site : Site) :
  exists (spun : bool) (items : list item) (s : Cdk.stop) (tail : list item),
    closing (close_error site) (session_part site)
    = Call Status :: (if spun then [Call Spin] else [])
        ++ map Yield items ++ Call Close :: map Yield tail
    /\ Spec.spin_ending site items s
    /\ (spun = true ->
        exists d,
          status_reply site = Cdk.Http 200 (JDict d)
          /\ truthy (get d "success" JNull) = true
          /\ truthy (get d "can_spin" (JBool false)) = true)
    /\ (spun = false -> items <> [] \/ exists msg, s = Cdk.Fault msg)
    /\ ((tail = [] /\ close_error site = None /\ s = Cdk.Done)
        \/ (exists msg, tail = [Error (Crashed msg)]
                        /\ (close_error site = None -> s = Cdk.Fault msg))).
Proof.
  destruct (session_part_shape site) as [spun [items [s [-> [He [Hs Hq]]]]]].
  unfold closing.
  destruct (close_error site) as [msg|];
    [exists spun, items, s, [Error (Crashed msg)]
    |destruct s as [|msg];
     [exists spun, items, Cdk.Done, []
     |exists spun, items, (Cdk.Fault msg), [Error (Crashed msg)]]];
    (split; [cbn [app]; rewrite <- !app_assoc; reflexivity|]);
    (split; [exact He|]); (split; [exact Hs|]); (split; [exact Hq|]).
  - right. exists msg. split; [reflexivity|discriminate].
  - left. auto.
  - right. exists msg. split; [reflexivity|reflexivity].
Qed.

End SpinShape.

Section SpinRun.

Import Py X666.

Lemma spin_calls_app (c : call) (a b : list event) :
  calls c (a ++ b) = (calls c a + calls c b)%nat.
Proof. unfold calls. rewrite filter_app, length_app. reflexivity. Qed.

Lemma spin_produced_app (a b : list event) :
  produced (a ++ b) = produced a ++ produced b.
Proof. unfold produced. apply flat_map_app. Qed.

(** The items and the requests of a run that reaches the session. *)
Lemma run_counts (login spun : bool) (items tail : list item) :
  produced ((if login then [Call Login] else [])
            ++ Call Status :: (if spun then [Call Spin] else [])
            ++ map Yield items ++ Call Close :: map Yield tail)
  = items ++ tail
  /\ forall c : call,
       calls c ((if login then [Call Login] else [])
                ++ Call Status :: (if spun then [Call Spin] else [])
                ++ map Yield items ++ Call Close :: map Yield tail)
       = match c with
         | Login => if login then 1%nat else 0%nat
         | Status => 1%nat
         | Spin => if spun then 1%nat else 0%nat
         | Close => 1%nat
         end.
Proof.
  split.
  - change (Call Status :: (if spun then [Call Spin] else [])
            ++ map Yield items ++ Call Close :: map Yield tail)
      with ([Call Status] ++ (if spun then [Call Spin] else [])
            ++ map Yield items ++ [Call Close] ++ map Yield tail).
    rewrite !spin_produced_app, !produced_yields.
    destruct login, spun; reflexivity.
  - intro c.
    change (Call Status :: (if spun then [Call Spin] else [])
            ++ map Yield items ++ Call Close :: map Yield tail)
      with ([Call Status] ++ (if spun then [Call Spin] else [])
            ++ map Yield items ++ [Call Close] ++ map Yield tail).
    rewrite !spin_calls_app, !calls_yields.
    destruct login, spun, c; reflexivity.
Qed.

(** The ways a run of [get_x666_cdk] goes: without a token, with a log-in
    that fails, with a session that cannot be made, with a session. *)
Lemma spin_run (site : Site) :
  (truthy (access_token site) = false /\ get_x666_cdk site = [Yield (Error NoToken)])
  \/ (truthy (access_token site) = false
      /\ get_x666_cdk site = [Call Login; Yield (Error LoginFailed)])
  \/ (exists (login : bool) (msg : string),
         truthy (access_token site) = negb login
         /\ get_x666_cdk site
            = (if login then [Call Login] else []) ++ [Yield (Error (Crashed msg))])
  \/ (exists login : bool,
         truthy (access_token site) = negb login
         /\ get_x666_cdk site
            = (if login then [Call Login] else [])
              ++ closing (close_error site) (session_part site)).
Proof.
  assert (With : forall login : bool,
             (exists msg : string,
                 (if login then [Call Login] else []) ++ with_session site
                 = (if login then [Call Login] else []) ++ [Yield (Error (Crashed msg))])
             \/ (if login then [Call Login] else []) ++ with_session site
                = (if login then [Call Login] else [])
                  ++ closing (close_error site) (session_part site)).
  { intro login. unfold with_session.
    destruct (session_error site) as [msg|]; [left; exists msg|right]; reflexivity. }
  unfold get_x666_cdk.
  destruct (truthy (access_token site)) eqn:Et.
  - right. right. destruct (With false) as [[msg E]|E]; [left; exists false, msg|right; exists false];
      (split; [reflexivity|exact E]).
  - destruct (linux_do site); [|left; split; reflexivity].
    destruct (user_token site) as [token|]; [|right; left; split; reflexivity].
    destruct (negb (String.eqb token "")); [|right; left; split; reflexivity].
    right. right. destruct (With true) as [[msg E]|E]; [left; exists true, msg|right; exists true];
      (split; [reflexivity|exact E]).
Qed.

End SpinRun.

(** X20. The spin is sent once, and only when the status allows it. In every
    run of [get_x666_cdk] the status request and the spin request are each
    sent at most once; the spin is sent only after a status response with
    code 200 whose body says [success] and [can_spin]; and the browser log-in
    is not attempted when an [access_token] is configured. *)
Theorem x666_spins_if_allowed :
  forall site : X666.Site,
    (X666.calls X666.Status (X666.get_x666_cdk site) <= 1)%nat
    /\ (X666.calls X666.Spin (X666.get_x666_cdk site) <= 1)%nat
    /\ (X666.calls X666.Spin (X666.get_x666_cdk site) = 1%nat ->
        exists d : Py.dict,
          X666.status_reply site = Cdk.Http 200 (Py.JDict d)
          /\ Py.truthy (Py.get d "success" Py.JNull) = true
          /\ Py.truthy (Py.get d "can_spin" (Py.JBool false)) = true)
    /\ (Py.truthy (X666.access_token site) = true ->
        X666.calls X666.Login (X666.get_x666_cdk site) = 0%nat).
Proof.
  intro site.
  destruct (spin_run site) as [[Ht ->]|[[Ht ->]|[[login [msg [Ht ->]]]|[login [Ht ->]]]]].
  - cbn. repeat split; try lia; congruence.
  - cbn. repeat split; try lia; congruence.
  - destruct login; cbn in *; repeat split; try lia; try congruence;
      intro Hy; rewrite Hy in Ht; discriminate.
  - destruct (session_run site) as [spun [items [s [tail [-> [_ [Hs _]]]]]]].
    destruct (run_counts login spun items tail) as [_ Hc].
    rewrite !Hc. split; [lia|]. split; [destruct spun; lia|].
    split.
    + intro H1. apply Hs. destruct spun; [reflexivity|discriminate].
    + intro Hy. rewrite Hy in Ht. destruct login; [discriminate|reflexivity].
Qed.

(** X21. One answer per run, and never a code. Every item [get_x666_cdk]
    yields is a success with the empty code (the reward is credited directly,
    nothing is to be topped up) or a failure. When closing the session does
    not raise, a run yields exactly one item, except when the spin request is
    answered with code 200 or 400 and no body: then the generator returns
    without yielding anything. *)
Theorem x666_one_answer :
  forall site : X666.Site,
    (forall it : X666.item,
        In it (X666.produced (X666.get_x666_cdk site)) ->
        it = X666.Code (Py.JStr "") \/ exists f : X666.failure, it = X666.Error f)
    /\ (X666.close_error site = None ->
        (exists it : X666.item, X666.produced (X666.get_x666_cdk site) = [it])
        \/ (X666.produced (X666.get_x666_cdk site) = []
            /\ X666.calls X666.Spin (X666.get_x666_cdk site) = 1%nat
            /\ exists status : Z,
                 X666.spin_reply site = Cdk.Http status Py.JNull
                 /\ (status = 200 \/ status = 400))).
Proof.
  intro site.
  destruct (spin_run site) as [[Ht ->]|[[Ht ->]|[[login [msg [Ht ->]]]|[login [Ht ->]]]]].
  - split; [intros it [<-|[]]; right; eauto|intros _; left; eexists; reflexivity].
  - split; [intros it [<-|[]]; right; eauto|intros _; left; eexists; reflexivity].
  - destruct login;
      (split; [intros it [<-|[]]; right; eauto|intros _; left; eexists; reflexivity]).
  - destruct (session_run site) as [spun [items [s [tail [-> [He [_ [Hq Htail]]]]]]]].
    destruct (run_counts login spun items tail) as [Hp Hc].
    rewrite Hp, Hc. split.
    + intros it Hin. apply in_app_or in Hin. destruct Hin as [Hin|Hin].
      * destruct He; cbn in Hin; try contradiction; destruct Hin as [<-|[]];
          [left; reflexivity|right; eauto].
      * destruct Htail as [[-> _]|[msg [-> _]]]; cbn in Hin; [contradiction|].
        destruct Hin as [<-|[]]. right. eauto.
    + intro Hclose.
      destruct Htail as [[-> [_ ->]]|[msg [-> Hs]]].
      * rewrite app_nil_r.
        inversion He as [| f | | status Hr Hst]; subst;
          try (left; eexists; reflexivity).
        right. split; [reflexivity|].
        destruct spun.
        -- split; [reflexivity|]. exists status. split; assumption.
        -- exfalso. destruct (Hq eq_refl) as [C|[m C]]; [apply C; reflexivity|discriminate].
      * specialize (Hs Hclose). subst s.
        inversion He; subst. left. eexists. reflexivity.
Qed.

(** A spin that the site answers without a body yields nothing; one that it
    credits yields the empty code; one that it has seen already counts as a
    success. *)
Lemma x666_one_answer_witness :
  X666.get_x666_cdk (Examples.spin_site Py.JNull)
  = [X666.Call X666.Status; X666.Call X666.Spin; X666.Call X666.Close]
  /\ X666.get_x666_cdk
       (Examples.spin_site (Py.JDict [("success", Py.JBool true);
                                      ("message", Py.JStr "150")]))
     = [X666.Call X666.Status; X666.Call X666.Spin;
        X666.Yield (X666.Code (Py.JStr "")); X666.Call X666.Close]
  /\ X666.get_x666_cdk
       (Examples.spin_site (Py.JDict [("success", Py.JBool false);
                                      ("message", Py.JStr "You have Already spun")]))
     = [X666.Call X666.Status; X666.Call X666.Spin;
        X666.Yield (X666.Code (Py.JStr "")); X666.Call X666.Close]
  /\ ((exists it : X666.item,
          X666.produced (X666.get_x666_cdk (Examples.spin_site Py.JNull)) = [it])
      \/ (X666.produced (X666.get_x666_cdk (Examples.spin_site Py.JNull)) = []
          /\ X666.calls X666.Spin (X666.get_x666_cdk (Examples.spin_site Py.JNull))
             = 1%nat
          /\ exists status : Z,
               X666.spin_reply (Examples.spin_site Py.JNull)
               = Cdk.Http status Py.JNull
               /\ (status = 200 \/ status = 400))).
Proof.
  split; [reflexivity|]. split; [reflexivity|]. split; [reflexivity|].
  exact (proj2 (x666_one_answer (Examples.spin_site Py.JNull)) eq_refl).
Defined.

(** ** The account list *)

Section Text.

Import Py Spec.

Lemma without_prefix_app (p s r : string) :
  without_prefix p s = Some r <-> s = (p ++ r)%string.
Proof.
  revert s. induction p as [|a p IH]; intro s; cbn [without_prefix String.append].
  - split; [intro H; injection H as ->; reflexivity|intros ->; reflexivity].
  - destruct s as [|b s]; [split; discriminate|].
    destruct (Ascii.eqb_spec a b) as [->|Hne].
    + rewrite IH. split; [intros ->; reflexivity|intro H; injection H as ->; reflexivity].
    + split; [discriminate|]. intro H. injection H as E _. congruence.
Qed.

Lemma ahead_some (table : list string) (s r : string) :
  ahead table s = Some r -> exists w, In w table /\ s = (w ++ r)%string.
Proof.
  unfold ahead. induction table as [|w table IH]; cbn [fold_right]; [discriminate|].
  destruct (without_prefix w s) as [rest|] eqn:E.
  - intro H. injection H as <-. exists w. split; [left; reflexivity|].
    apply without_prefix_app. exact E.
  - intro H. destruct (IH H) as [w' [Hin Hs]]. exists w'. split; [right|]; assumption.
Qed.

Lemma ahead_none (table : list string) (s : string) :
  ahead table s = None <-> forall w, In w table -> without_prefix w s = None.
Proof.
  unfold ahead. induction table as [|w table IH]; cbn [fold_right].
  - split; [intros _ w []|reflexivity].
  - destruct (without_prefix w s) as [rest|] eqn:E.
    + split; [discriminate|]. intro H. rewrite (H w (or_introl eq_refl)) in E.
      discriminate.
    + rewrite IH. split.
      * intros H w' [<-|Hin]; [exact E|exact (H w' Hin)].
      * intros H w' Hin. apply H. right. exact Hin.
Qed.

Lemma length_append (a b : string) :
  String.length (a ++ b) = (String.length a + String.length b)%nat.
Proof. induction a as [|c a IH]; cbn; [|rewrite IH]; reflexivity. Qed.

Lemma append_assoc (a b c : string) : ((a ++ b) ++ c = a ++ b ++ c)%string.
Proof. induction a as [|x a IH]; cbn; [|rewrite IH]; reflexivity. Qed.

Lemma append_empty (a : string) : (a ++ "")%string = a.
Proof. induction a as [|x a IH]; cbn; [|rewrite IH]; reflexivity. Qed.

Lemma strip_loop_suffix (table : list string) :
  forall (fuel : nat) (s : string),
    exists a, s = (a ++ strip_loop table fuel s)%string.
Proof.
  induction fuel as [|f IH]; intro s; cbn [strip_loop]; [exists ""; reflexivity|].
  destruct (ahead table s) as [rest|] eqn:E; [|exists ""; reflexivity].
  destruct (ahead_some _ _ _ E) as [w [_ ->]].
  destruct (IH rest) as [a Ha]. exists (w ++ a)%string.
  rewrite append_assoc, <- Ha. reflexivity.
Qed.

Lemma strip_loop_done (table : list string) :
  Forall (fun w => w <> "") table ->
  forall (fuel : nat) (s : string),
    (String.length s <= fuel)%nat -> ahead table (strip_loop table fuel s) = None.
Proof.
  intros Hne. induction fuel as [|f IH]; intros s Hlen; cbn [strip_loop].
  - destruct s; [|cbn in Hlen; lia].
    apply ahead_none. intros w Hin. rewrite Forall_forall in Hne.
    specialize (Hne w Hin). destruct w; [contradiction|reflexivity].
  - destruct (ahead table s) as [rest|] eqn:E; [|exact E].
    destruct (ahead_some _ _ _ E) as [w [Hin ->]].
    apply IH. rewrite length_append in Hlen.
    rewrite Forall_forall in Hne. specialize (Hne w Hin).
    destruct w; [contradiction|]. cbn in Hlen. lia.
Qed.

Lemma strip_loop_fix (table : list string) (fuel : nat) (s : string) :
  ahead table s = None -> strip_loop table fuel s = s.
Proof. intro H. destruct fuel; cbn [strip_loop]; [|rewrite H]; reflexivity. Qed.

Lemma list_ascii_app (a b : string) :
  list_ascii_of_string (a ++ b)
  = list_ascii_of_string a ++ list_ascii_of_string b.
Proof. induction a as [|c a IH]; cbn; [|rewrite IH]; reflexivity. Qed.

Lemma string_of_app (a b : list ascii) :
  string_of_list_ascii (a ++ b)
  = (string_of_list_ascii a ++ string_of_list_ascii b)%string.
Proof. induction a as [|c a IH]; cbn; [|rewrite IH]; reflexivity. Qed.

Lemma reversed_app (a b : string) :
  reversed (a ++ b) = (reversed b ++ reversed a)%string.
Proof. unfold reversed. rewrite list_ascii_app, rev_app_distr, string_of_app. reflexivity. Qed.

Lemma reversed_reversed (s : string) : reversed (reversed s) = s.
Proof.
  unfold reversed.
  rewrite list_ascii_of_string_of_list_ascii, rev_involutive,
    string_of_list_ascii_of_string.
  reflexivity.
Qed.

Lemma reversed_length (s : string) : String.length (reversed s) = String.length s.
Proof.
  unfold reversed.
  assert (L : forall l, String.length (string_of_list_ascii l) = List.length l)
    by (induction l as [|c l IH]; cbn; [|rewrite IH]; reflexivity).
  assert (M : forall t, List.length (list_ascii_of_string t) = String.length t)
    by (induction t as [|c t IH]; cbn; [|rewrite IH]; reflexivity).
  rewrite L, length_rev, M. reflexivity.
Qed.

Lemma whitespace_nonempty : Forall (fun w => w <> "") whitespace.
Proof. vm_compute. repeat constructor; discriminate. Qed.

Lemma whitespace_reversed_nonempty :
  Forall (fun w => w <> "") (map reversed whitespace).
Proof. vm_compute. repeat constructor; discriminate. Qed.

(** [lstrip] leaves no white space in front and takes a prefix away. *)
Lemma lstrip_spec (s : string) :
  ahead whitespace (lstrip s) = None /\ exists a, s = (a ++ lstrip s)%string.
Proof.
  unfold lstrip. split.
  - apply strip_loop_done; [exact whitespace_nonempty|lia].
  - apply strip_loop_suffix.
Qed.

(** [rstrip] leaves no white space behind and takes a suffix away. *)
Lemma rstrip_spec (s : string) :
  ahead (map reversed whitespace) (reversed (rstrip s)) = None
  /\ exists b, s = (rstrip s ++ b)%string.
Proof.
  unfold rstrip. rewrite reversed_reversed. split.
  - apply strip_loop_done; [exact whitespace_reversed_nonempty|].
    rewrite reversed_length. lia.
  - destruct (strip_loop_suffix (map reversed whitespace) (String.length s) (reversed s))
      as [a Ha].
    exists (reversed a).
    rewrite <- reversed_app, <- Ha. symmetry. apply reversed_reversed.
Qed.

Lemma ahead_prefix (table : list string) (s b : string) :
  ahead table (s ++ b) = None -> ahead table s = None.
Proof.
  rewrite !ahead_none. intros H w Hin. specialize (H w Hin).
  destruct (without_prefix w s) as [r|] eqn:E; [|reflexivity].
  apply without_prefix_app in E. subst s.
  assert (C : without_prefix w ((w ++ r) ++ b) = Some (r ++ b)%string)
    by (apply without_prefix_app; apply append_assoc).
  congruence.
Qed.

Lemma strip_idempotent (s : string) : strip (strip s) = strip s.
Proof.
  unfold strip.
  destruct (lstrip_spec s) as [Hl _].
  destruct (rstrip_spec (lstrip s)) as [Hr [b Hb]].
  set (u := rstrip (lstrip s)) in *.
  assert (Hu : lstrip u = u).
  { unfold lstrip. apply strip_loop_fix. apply (ahead_prefix _ _ b).
    rewrite <- Hb. exact Hl. }
  rewrite Hu. unfold rstrip at 1. rewrite strip_loop_fix by exact Hr.
  apply reversed_reversed.
Qed.

Lemma has_char_app (c : ascii) (a b : string) :
  has_char c (a ++ b) = has_char c a || has_char c b.
Proof.
  induction a as [|x a IH]; cbn [String.append has_char]; [reflexivity|].
  rewrite IH, orb_assoc. reflexivity.
Qed.

Lemma strip_has_char (c : ascii) (s : string) :
  has_char c s = false -> has_char c (strip s) = false.
Proof.
  unfold strip. intro H.
  destruct (lstrip_spec s) as [_ [a Ha]].
  destruct (rstrip_spec (lstrip s)) as [_ [b Hb]].
  rewrite Ha, Hb, !has_char_app in H.
  apply orb_false_elim in H. destruct H as [_ H].
  apply orb_false_elim in H. exact (proj1 H).
Qed.

Lemma split_pieces (c : ascii) (s : string) :
  split c s <> [] /\ Forall (fun piece => has_char c piece = false) (split c s).
Proof.
  induction s as [|x s [Hne IH]]; cbn [split].
  - split; [discriminate|repeat constructor].
  - destruct (Ascii.eqb x c) eqn:E.
    + split; [discriminate|]. constructor; [reflexivity|exact IH].
    + destruct (split c s) as [|piece pieces]; [contradiction|].
      split; [discriminate|]. inversion IH; subst.
      constructor; [cbn [has_char]; rewrite E; assumption|assumption].
Qed.

Lemma split_plain (c : ascii) (s : string) :
  has_char c s = false -> split c s = [s].
Proof.
  induction s as [|x s IH]; cbn [has_char split]; [reflexivity|].
  intro H. apply orb_false_elim in H. destruct H as [E H].
  rewrite E, (IH H). reflexivity.
Qed.

Lemma split_app (c : ascii) (a rest : string) :
  has_char c a = false ->
  split c (a ++ String c rest) = a :: split c rest.
Proof.
  induction a as [|x a IH]; cbn [has_char String.append split].
  - intros _. rewrite Ascii.eqb_refl. reflexivity.
  - intro H. apply orb_false_elim in H. destruct H as [E H].
    rewrite E, (IH H). reflexivity.
Qed.

Lemma split_concat (c : ascii) (l : list string) :
  l <> [] ->
  Forall (fun piece => has_char c piece = false) l ->
  split c (String.concat (String c "") l) = l.
Proof.
  induction l as [|a l IH]; intros Hne Hall; [contradiction|].
  inversion Hall as [|? ? Ha Hl]; subst.
  destruct l as [|b l].
  - cbn [String.concat]. apply split_plain. exact Ha.
  - change (String.concat (String c "") (a :: b :: l))
      with (a ++ String c "" ++ String.concat (String c "") (b :: l))%string.
    cbn [String.append]. rewrite split_app by exact Ha.
    rewrite IH; [reflexivity|discriminate|exact Hl].
Qed.

End Text.

(** X22. What [load_accounts] returns. Whenever it returns a list, the list is
    not empty and holds no value that counts as false, so that [main] stops
    for want of accounts exactly when [load_accounts] returns [None]. From a
    text that does not start with a bracket the list holds strings only, each
    of them not empty, without white space at its ends and without a comma;
    from a text that starts with a bracket it is what [json.loads] makes of the
    text, an array, less its values that count as false. *)
Theorem load_accounts_clean :
  forall (loads : string -> option Py.json) (env : option string)
         (sids : list Py.json),
    Main.load_accounts loads env = Some sids ->
    sids <> []
    /\ Forall (fun v => Py.truthy v = true) sids
    /\ exists text : string,
         env = Some text
         /\ text <> ""
         /\ (String.prefix "[" text = false ->
             exists names : list string,
               sids = map Py.JStr names /\ Forall Spec.plain names)
         /\ (String.prefix "[" text = true ->
             exists l : list Py.json,
               loads text = Some (Py.JList l) /\ sids = filter Py.truthy l).
Proof.
  intros loads env sids H. unfold Main.load_accounts in H.
  destruct env as [text|]; [|discriminate].
  destruct (String.eqb_spec text "") as [|Hne]; [discriminate|].
  assert (Valid : forall l : list Py.json,
             match filter Py.truthy l with
             | [] => None
             | valid => Some valid
             end = Some sids ->
             sids = filter Py.truthy l /\ sids <> []
             /\ Forall (fun v => Py.truthy v = true) sids).
  { intros l E. destruct (filter Py.truthy l) as [|v valid] eqn:Ef; [discriminate|].
    injection E as <-. split; [reflexivity|]. split; [discriminate|].
    rewrite <- Ef. apply Forall_forall. intros x Hx. apply filter_In in Hx.
    exact (proj2 Hx). }
  destruct (String.prefix "[" text) eqn:Ep.
  - destruct (loads text) as [[|b0|z0|s0|l|d0]|] eqn:El; try discriminate.
    destruct (Valid _ H) as [E [Hn Ht]].
    split; [exact Hn|]. split; [exact Ht|].
    exists text. split; [reflexivity|]. split; [exact Hne|].
    split; [intro C; congruence|]. intros _. exists l. split; [exact El|exact E].
  - destruct (Valid _ H) as [E [Hn Ht]].
    split; [exact Hn|]. split; [exact Ht|].
    exists text. split; [reflexivity|]. split; [exact Hne|].
    split; [|intro C; congruence]. intros _.
    exists (filter (fun s => negb (String.eqb s ""))
              (map Py.strip (Py.split ","%char text))).
    split.
    + rewrite E. apply forallb_filter_id. apply forallb_forall.
      intros v Hv. apply in_map_iff in Hv. destruct Hv as [s [<- Hs]].
      apply filter_In in Hs. exact (proj2 Hs).
    + apply Forall_forall. intros s Hs. apply filter_In in Hs.
      destruct Hs as [Hin Hs]. apply in_map_iff in Hin.
      destruct Hin as [piece [<- Hpiece]].
      split; [intro C; rewrite C in Hs; discriminate|].
      split; [apply strip_idempotent|].
      apply strip_has_char.
      destruct (split_pieces ","%char text) as [_ Hall].
      rewrite Forall_forall in Hall. exact (Hall _ Hpiece).
Qed.

(** A list with blanks around its commas and an empty place. *)
Lemma load_accounts_clean_witness :
  Main.load_accounts (fun _ => None) (Some " alpha , ,beta,")
  = Some [Py.JStr "alpha"; Py.JStr "beta"]
  /\ [Py.JStr "alpha"; Py.JStr "beta"] <> [].
Proof.
  split; [vm_compute; reflexivity|].
  exact (proj1 (load_accounts_clean (fun _ => None) (Some " alpha , ,beta,")
                  [Py.JStr "alpha"; Py.JStr "beta"]
                  ltac:(vm_compute; reflexivity))).
Defined.

(** X23. The comma form of the account list reads back. For every list of
    sids that is not empty, each of them not empty, without white space at its
    ends and without a comma, and the first not starting with a bracket:
    [load_accounts] on the sids joined by commas returns exactly these sids,
    in their order, without calling [json.loads]. *)
Theorem load_accounts_round_trip :
  forall (loads : string -> option Py.json) (first : string) (rest : list string),
    String.prefix "[" first = false ->
    Forall Spec.plain (first :: rest) ->
    Main.load_accounts loads (Some (String.concat "," (first :: rest)))
    = Some (map Py.JStr (first :: rest)).
Proof.
  intros loads first rest Hb Hall.
  assert (Hcomma : Forall (fun piece => Spec.has_char ","%char piece = false)
                     (first :: rest)).
  { eapply Forall_impl; [|exact Hall]. intros s [_ [_ H]]. exact H. }
  assert (Hfirst : first <> "") by (inversion Hall as [|? ? [H _] _]; exact H).
  unfold Main.load_accounts.
  assert (Shape : exists c tail,
             first = String c tail
             /\ exists more, String.concat "," (first :: rest) = String c more).
  { destruct first as [|c tail]; [contradiction|]. exists c, tail.
    split; [reflexivity|].
    destruct rest; cbn [String.concat String.append]; eauto. }
  destruct Shape as [c [tail [Ef [more Em]]]].
  assert (Hp : String.prefix "[" (String.concat "," (first :: rest)) = false).
  { rewrite Em. rewrite Ef in Hb. cbn [String.prefix] in *.
    destruct (ascii_dec "["%char c); [exfalso; destruct tail; discriminate Hb|reflexivity]. }
  assert (He : String.eqb (String.concat "," (first :: rest)) "" = false)
    by (rewrite Em; reflexivity).
  rewrite He, Hp.
  rewrite (split_concat ","%char (first :: rest)) by (discriminate || exact Hcomma).
  assert (Hstrip : map Py.strip (first :: rest) = first :: rest).
  { clear - Hall. induction Hall as [|s l [_ [Hs _]] _ IH]; [reflexivity|].
    cbn [map]. rewrite Hs, IH. reflexivity. }
  rewrite Hstrip.
  assert (Hkeep : filter (fun s => negb (String.eqb s "")) (first :: rest)
                  = first :: rest).
  { apply forallb_filter_id. apply forallb_forall. intros s Hs.
    rewrite Forall_forall in Hall. destruct (Hall s Hs) as [Hn _].
    apply negb_true_iff. apply String.eqb_neq. exact Hn. }
  rewrite Hkeep.
  assert (Htrue : filter Py.truthy (map Py.JStr (first :: rest))
                  = map Py.JStr (first :: rest)).
  { apply forallb_filter_id. apply forallb_forall. intros v Hv.
    apply in_map_iff in Hv. destruct Hv as [s [<- Hs]].
    rewrite Forall_forall in Hall. destruct (Hall s Hs) as [Hn _].
    cbn [Py.truthy]. apply negb_true_iff. apply String.eqb_neq. exact Hn. }
  rewrite Htrue. reflexivity.
Qed.

(** Two sids, joined and read back. *)
Lemma load_accounts_round_trip_witness :
  Main.load_accounts (fun _ => None) (Some "alpha,beta")
  = Some [Py.JStr "alpha"; Py.JStr "beta"].
Proof.
  apply (load_accounts_round_trip (fun _ => None) "alpha" ["beta"]).
  - reflexivity.
  - repeat constructor; (discriminate || (vm_compute; reflexivity)).
Defined.

(** ** The cached token *)

Section Token.

Import Py Spec.

Lemma concat_split (c : ascii) (s : string) :
  String.concat (String c "") (split c s) = s.
Proof.
  induction s as [|x s IH]; cbn [split]; [reflexivity|].
  destruct (split_pieces c s) as [Hne _].
  destruct (Ascii.eqb_spec x c) as [->|_].
  - destruct (split c s) as [|piece pieces] eqn:E; [contradiction|].
    change (String.concat (String c "") ("" :: piece :: pieces))
      with ("" ++ String c "" ++ String.concat (String c "") (piece :: pieces))%string.
    rewrite IH. reflexivity.
  - destruct (split c s) as [|piece pieces] eqn:E; [contradiction|].
    rewrite <- IH. destruct pieces; reflexivity.
Qed.

Lemma padded_length (payload_b64 : string) :
  (String.length (X666.padded payload_b64) mod 4 = 0)%nat
  /\ exists k : nat,
       (k <= 3)%nat
       /\ X666.padded payload_b64
          = (payload_b64 ++ string_of_list_ascii (repeat "="%char k))%string.
Proof.
  unfold X666.padded.
  pose proof (Nat.mod_upper_bound (String.length payload_b64) 4 ltac:(lia)) as Hr.
  pose proof (Nat.div_mod_eq (String.length payload_b64) 4) as Hd.
  assert (L : forall k, String.length (string_of_list_ascii (repeat "="%char k)) = k)
    by (induction k as [|k IH]; cbn; [|rewrite IH]; reflexivity).
  destruct (Nat.eqb_spec (4 - String.length payload_b64 mod 4) 4) as [E|E].
  - split; [lia|]. exists 0%nat. split; [lia|]. cbn. rewrite append_empty. reflexivity.
  - split.
    + rewrite length_append, L.
      replace (String.length payload_b64 + (4 - String.length payload_b64 mod 4))%nat
        with (4 * (String.length payload_b64 / 4 + 1))%nat by lia.
      rewrite Nat.mul_comm. apply Nat.Div0.mod_mul.
    + exists (4 - String.length payload_b64 mod 4)%nat. split; [lia|reflexivity].
Qed.

End Token.

(** X24. What a cached token must be to pass. [is_jwt_valid] accepts a token
    only if it consists of exactly three parts separated by two dots, the
    middle part, padded with at most three [=] signs to a length that is a
    multiple of four, decodes from base 64, the outcome parses as a JSON
    object, and that object has an [exp] that is a number greater than the
    current time; in every other case, an exception of either decoder
    included, it answers [False]. *)
Theorem is_jwt_valid_only :
  forall (b64decode : string -> option (list byte))
         (loads : list byte -> option Py.json) (now : Z) (token : string),
    X666.is_jwt_valid b64decode loads now token = true ->
    exists (header payload_b64 signature : string) (raw : list byte)
           (payload : Py.dict) (exp : Py.json) (seconds : Z),
      token = (header ++ "." ++ payload_b64 ++ "." ++ signature)%string
      /\ Spec.has_char "."%char header = false
      /\ Spec.has_char "."%char payload_b64 = false
      /\ Spec.has_char "."%char signature = false
      /\ (String.length (X666.padded payload_b64) mod 4 = 0)%nat
      /\ (exists k : nat,
             (k <= 3)%nat
             /\ X666.padded payload_b64
                = (payload_b64 ++ string_of_list_ascii (repeat "="%char k))%string)
      /\ b64decode (X666.padded payload_b64) = Some raw
      /\ loads raw = Some (Py.JDict payload)
      /\ Py.lookup "exp" payload = Some exp
      /\ Py.as_int exp = Some seconds
      /\ now < seconds.
Proof.
  intros b64decode loads now token H. unfold X666.is_jwt_valid in H.
  pose proof (concat_split "."%char token) as Hjoin.
  destruct (split_pieces "."%char token) as [_ Hall].
  destruct (Py.split "."%char token) as [|header [|payload_b64 [|signature [|x l]]]];
    try discriminate.
  destruct (b64decode (X666.padded payload_b64)) as [raw|] eqn:Eb; [|discriminate].
  destruct (loads raw) as [[|b0|z0|s0|l0|payload]|] eqn:El; try discriminate.
  unfold Py.get in H.
  destruct (Py.lookup "exp" payload) as [exp|] eqn:Ee; [|discriminate].
  destruct (Py.truthy exp); [|discriminate].
  destruct (Py.as_int exp) as [seconds|] eqn:Ea; [|discriminate].
  apply Z.ltb_lt in H.
  inversion Hall as [|? ? H1 Hall1]; subst.
  inversion Hall1 as [|? ? H2 Hall2]; subst.
  inversion Hall2 as [|? ? H3 _]; subst.
  destruct (padded_length payload_b64) as [Hlen Hpad].
  exists header, payload_b64, signature, raw, payload, exp, seconds.
  split; [reflexivity|]. repeat (split; [assumption|]). assumption.
Qed.

(** A token of three parts whose payload has 22 characters is padded with two
    signs. *)
Lemma is_jwt_valid_only_witness :
  X666.padded "eyJleHAiOjE5MDAwMDAwMDB9"
  = "eyJleHAiOjE5MDAwMDAwMDB9"
  /\ X666.padded "eyJleHAiOjE5MDAwMDAwMH"
     = "eyJleHAiOjE5MDAwMDAwMH=="
  /\ exists (header payload_b64 signature : string),
       "aaa.eyJleHAiOjE5MDAwMDAwMH.sig"
       = (header ++ "." ++ payload_b64 ++ "." ++ signature)%string
       /\ (String.length (X666.padded payload_b64) mod 4 = 0)%nat.
Proof.
  split; [reflexivity|]. split; [reflexivity|].
  destruct (is_jwt_valid_only
              (fun text => if String.eqb text "eyJleHAiOjE5MDAwMDAwMH==" then Some [] else None)
              (fun _ => Some (Py.JDict [("exp", Py.JInt 1900000000)]))
              1800000000 "aaa.eyJleHAiOjE5MDAwMDAwMH.sig" eq_refl)
    as [header [payload_b64 [signature [raw [payload [exp [seconds
         [E [_ [_ [_ [L _]]]]]]]]]]]].
  exists header, payload_b64, signature. split; [exact E|exact L].
Defined.

(** ** Reading posts *)

Section Posts.

Import Py LinuxDo.

Lemma key_eqb_eq (a b : key) : key_eqb a b = true <-> a = b.
Proof.
  destruct a, b; cbn [key_eqb]; try (split; [discriminate|intro C; discriminate C]).
  - rewrite String.eqb_eq. split; [intros ->; reflexivity|intro C; injection C as ->; reflexivity].
  - rewrite Z.eqb_eq. split; [intros ->; reflexivity|intro C; injection C as ->; reflexivity].
  - split; reflexivity.
Qed.

(** What [collect] keeps: accounts of the input with a user name and a
    password that count as true, under pairwise different keys. *)
Lemma collect_keeps (mask_username : json -> option string) (input : list json) :
  forall (accounts_data : list json) (seen : list key) (kept result : list (json * json)),
    (forall x, In x accounts_data -> In x input) ->
    map key_of (map fst kept) = map Some (rev seen) ->
    NoDup seen ->
    Forall (fun up => truthy (fst up) = true /\ truthy (snd up) = true
                      /\ exists account,
                           In (JDict account) input
                           /\ get account "username" JNull = fst up
                           /\ get account "password" JNull = snd up) kept ->
    collect mask_username accounts_data seen kept = Some result ->
    (exists seen', map key_of (map fst result) = map Some (rev seen') /\ NoDup seen')
    /\ Forall (fun up => truthy (fst up) = true /\ truthy (snd up) = true
                         /\ exists account,
                              In (JDict account) input
                              /\ get account "username" JNull = fst up
                              /\ get account "password" JNull = snd up) result.
Proof.
  induction accounts_data as [|x rest IH]; intros seen kept result Hin Hk Hnd Hall H;
    cbn [collect] in H.
  - injection H as <-. split; [exists seen; split; assumption|exact Hall].
  - assert (Hrest : forall y, In y rest -> In y input)
      by (intros y Hy; apply Hin; right; exact Hy).
    destruct x as [|b0|z0|s0|l0|account]; try exact (IH _ _ _ Hrest Hk Hnd Hall H).
    destruct (mask_username (get account "username" JNull)); [|discriminate].
    destruct (truthy (get account "username" JNull)) eqn:Eu;
      [|exact (IH _ _ _ Hrest Hk Hnd Hall H)].
    destruct (truthy (get account "password" JNull)) eqn:Ep;
      [|exact (IH _ _ _ Hrest Hk Hnd Hall H)].
    cbn [negb orb] in H.
    destruct (key_of (get account "username" JNull)) as [k|] eqn:Ek; [|discriminate].
    destruct (existsb (key_eqb k) seen) eqn:Es; [exact (IH _ _ _ Hrest Hk Hnd Hall H)|].
    apply (IH _ _ _ Hrest) in H; [exact H| | |].
    + rewrite !map_app, Hk. cbn [map fst rev]. rewrite Ek, map_app. reflexivity.
    + constructor; [|exact Hnd]. intro Hin'.
      assert (C : existsb (key_eqb k) seen = true).
      { apply existsb_exists. exists k. split; [exact Hin'|]. apply key_eqb_eq.
        reflexivity. }
      congruence.
    + apply Forall_app. split; [exact Hall|]. constructor; [|constructor].
      cbn [fst snd]. split; [exact Eu|]. split; [exact Ep|].
      exists account. split; [apply Hin; left; reflexivity|]. split; reflexivity.
Qed.

Lemma last_cons {A : Type} (a d : A) (l : list A) : last (a :: l) d = last l a.
Proof.
  revert a d. induction l as [|b l IH]; intros a d; [reflexivity|].
  change (last (a :: b :: l) d) with (last (b :: l) d).
  rewrite (IH b d), (IH b a). reflexivity.
Qed.

Lemma read_from_quota (visits : list (json * bool)) :
  forall (max_posts : Z) (last0 : json) (count0 : Z) (opened : list json)
         (last_topic_id : json) (read_count : Z),
    read_from visits max_posts last0 count0 = (opened, (last_topic_id, read_count)) ->
    read_count
    = count0
      + Z.of_nat (List.length
                    (firstn (Z.to_nat (max_posts - count0)) (filter snd visits)))
    /\ last_topic_id
       = last (map fst (firstn (Z.to_nat (max_posts - count0)) (filter snd visits)))
           last0
    /\ exists taken rest : list (json * bool),
         visits = taken ++ rest
         /\ opened = map fst taken
         /\ Z.of_nat (List.length (filter snd taken)) = read_count - count0
         /\ (rest = [] \/ max_posts <= read_count).
Proof.
  induction visits as [|[topic_id counted] visits IH];
    intros max_posts last0 count0 opened last_topic_id read_count H;
    cbn [read_from] in H.
  - injection H as <- <- <-. rewrite firstn_nil. cbn.
    split; [lia|]. split; [reflexivity|]. exists [], [].
    repeat split; try reflexivity; [cbn; lia|left; reflexivity].
  - destruct (Z.leb_spec max_posts count0) as [Hdone|Hmore].
    + injection H as <- <- <-.
      replace (Z.to_nat (max_posts - count0)) with O by lia. cbn.
      split; [lia|]. split; [reflexivity|].
      exists [], ((topic_id, counted) :: visits).
      repeat split; try reflexivity; [cbn; lia|right; lia].
    + destruct counted.
      * destruct (read_from visits max_posts topic_id (count0 + 1))
          as [opened' [last' count']] eqn:E.
        injection H as <- <- <-.
        destruct (IH _ _ _ _ _ _ E) as [Hc [Hl [taken [rest [Hv [Ho [Hn Hr]]]]]]].
        replace (Z.to_nat (max_posts - count0))
          with (S (Z.to_nat (max_posts - (count0 + 1)))) by lia.
        cbn [filter snd firstn List.length map fst].
        split; [lia|]. split; [rewrite last_cons; exact Hl|].
        exists ((topic_id, true) :: taken), rest.
        split; [rewrite Hv; reflexivity|]. split; [rewrite Ho; reflexivity|].
        split; [cbn [filter snd List.length]; lia|exact Hr].
      * destruct (read_from visits max_posts last0 count0)
          as [opened' [last' count']] eqn:E.
        injection H as <- <- <-.
        destruct (IH _ _ _ _ _ _ E) as [Hc [Hl [taken [rest [Hv [Ho [Hn Hr]]]]]]].
        cbn [filter snd].
        split; [exact Hc|]. split; [exact Hl|].
        exists ((topic_id, false) :: taken), rest.
        split; [rewrite Hv; reflexivity|]. split; [rewrite Ho; reflexivity|].
        split; [exact Hn|exact Hr].
Qed.

Lemma sequential_loop_ends (site : Z -> visit) (step jump : nat -> Z) :
  (forall i, 1 <= step i) ->
  (forall i, 1 <= jump i) ->
  forall (fuel i : nat) (max_posts current read_count invalid_count : Z)
         (opened : list Z) (current' read_count' : Z),
    sequential_loop fuel site step jump i max_posts current read_count invalid_count
    = Some (opened, (current', read_count')) ->
    Sorted Z.lt (current :: opened)
    /\ current' = last opened current
    /\ read_count' = Z.max read_count max_posts
    /\ Z.of_nat (List.length
                   (filter (fun t => match site t with
                                     | Read | ReadThenRaised => true
                                     | _ => false
                                     end) opened))
       = read_count' - read_count.
Proof.
  intros Hstep Hjump.
  induction fuel as [|f IH];
    intros i max_posts current read_count invalid_count opened current' read_count' H;
    [discriminate|].
  cbn [sequential_loop] in H.
  destruct (Z.ltb_spec read_count max_posts) as [Hlt|Hge].
  - set (next := if 5 <=? invalid_count then current + jump i else current + step i)
      in *.
    assert (Hnext : current < next).
    { subst next. specialize (Hstep i). specialize (Hjump i).
      destruct (5 <=? invalid_count); lia. }
    destruct (site next) eqn:Es;
      match type of H with
      | match ?loop with _ => _ end = _ =>
          destruct loop as [[opened0 [c0 r0]]|] eqn:El; [|discriminate]
      end;
      injection H as <- <- <-;
      destruct (IH _ _ _ _ _ _ _ _ El) as [Hs [Hc [Hr Hn]]];
      (split; [constructor; [exact Hs|constructor; exact Hnext]|]);
      (split; [rewrite last_cons; exact Hc|]);
      (split; [lia|]);
      cbn [filter]; rewrite Es; cbn [List.length]; lia.
  - injection H as <- <- <-. split; [repeat constructor|].
    split; [reflexivity|]. split; [lia|]. cbn. lia.
Qed.

Lemma sequential_loop_stuck (site : Z -> visit) (step jump : nat -> Z) :
  (forall t, site t = FoundThenRaised \/ site t = Missing) ->
  forall (fuel i : nat) (max_posts current read_count invalid_count : Z),
    read_count < max_posts ->
    sequential_loop fuel site step jump i max_posts current read_count invalid_count
    = None.
Proof.
  intros Hsite. induction fuel as [|f IH];
    intros i max_posts current read_count invalid_count Hlt; [reflexivity|].
  cbn [sequential_loop].
  comparison_is (read_count <? max_posts) true.
  destruct (Hsite (if 5 <=? invalid_count then current + jump i else current + step i))
    as [-> | ->]; rewrite IH by exact Hlt; reflexivity.
Qed.

End Posts.

(** X25. The accounts [load_linuxdo_accounts] keeps. Whatever the text of the
    environment variable, the accounts returned have user names that are
    pairwise different (as the set of seen user names tells them apart: by
    value, [True] being 1), each comes from an object of the array
    [json.loads] makes of the text, with that object's [username] and
    [password], and both of these count as true. *)
Theorem load_linuxdo_accounts_distinct :
  forall (loads : string -> option Py.json)
         (mask_username : Py.json -> option string) (env : option string),
    (exists keys : list LinuxDo.key,
        map LinuxDo.key_of
          (map fst (LinuxDo.load_linuxdo_accounts loads mask_username env))
        = map Some keys
        /\ NoDup keys)
    /\ (forall username password : Py.json,
           In (username, password)
             (LinuxDo.load_linuxdo_accounts loads mask_username env) ->
           Py.truthy username = true
           /\ Py.truthy password = true
           /\ exists (text : string) (accounts_data : list Py.json) (account : Py.dict),
                env = Some text
                /\ loads text = Some (Py.JList accounts_data)
                /\ In (Py.JDict account) accounts_data
                /\ Py.get account "username" Py.JNull = username
                /\ Py.get account "password" Py.JNull = password).
Proof.
  intros loads mask_username env.
  assert (Empty : (exists keys : list LinuxDo.key,
                      map LinuxDo.key_of (map fst (@nil (Py.json * Py.json)))
                      = map Some keys /\ NoDup keys)
                  /\ forall username password : Py.json,
                       In (username, password) (@nil (Py.json * Py.json)) ->
                       Py.truthy username = true
                       /\ Py.truthy password = true
                       /\ exists (text : string) (accounts_data : list Py.json)
                                 (account : Py.dict),
                            env = Some text
                            /\ loads text = Some (Py.JList accounts_data)
                            /\ In (Py.JDict account) accounts_data
                            /\ Py.get account "username" Py.JNull = username
                            /\ Py.get account "password" Py.JNull = password).
  { split; [exists []; split; [reflexivity|constructor]|intros u p []]. }
  unfold LinuxDo.load_linuxdo_accounts.
  destruct env as [text|]; [|exact Empty].
  destruct (String.eqb text ""); [exact Empty|].
  destruct (loads text) as [[|b0|z0|s0|accounts_data|d0]|] eqn:El; try exact Empty.
  destruct (LinuxDo.collect mask_username accounts_data [] []) as [result|] eqn:Ec;
    [|exact Empty].
  destruct (collect_keeps mask_username accounts_data accounts_data [] [] result
              (fun x H => H) eq_refl (NoDup_nil _) (Forall_nil _) Ec)
    as [[seen [Hk Hnd]] Hall].
  split.
  - exists (rev seen). split; [exact Hk|]. apply NoDup_rev. exact Hnd.
  - intros username password Hin. rewrite Forall_forall in Hall.
    destruct (Hall _ Hin) as [Hu [Hp [account [Ha [Eu Ep]]]]].
    split; [exact Hu|]. split; [exact Hp|].
    exists text, accounts_data, account. repeat split; assumption.
Qed.

(** Five entries, of which one has no password, one is no object and one
    repeats a user name: two accounts are kept. *)
Lemma load_linuxdo_accounts_distinct_witness :
  LinuxDo.load_linuxdo_accounts (fun _ => Some Examples.linuxdo_accounts)
    (fun _ => Some "***") (Some "[...]")
  = [(Py.JStr "ann", Py.JStr "pw1"); (Py.JStr "dan", Py.JStr "pw3")]
  /\ exists keys : list LinuxDo.key,
       map LinuxDo.key_of
         (map fst
            (LinuxDo.load_linuxdo_accounts (fun _ => Some Examples.linuxdo_accounts)
               (fun _ => Some "***") (Some "[...]")))
       = map Some keys
       /\ NoDup keys.
Proof.
  split; [reflexivity|].
  exact (proj1 (load_linuxdo_accounts_distinct
                  (fun _ => Some Examples.linuxdo_accounts)
                  (fun _ => Some "***") (Some "[...]"))).
Defined.

(** X26. Reading from the list keeps to its quota. For every shuffled list of
    topics and every [max_posts], [_read_posts_from_list] counts the first
    [max_posts] topics of the list that can be read, or all of them when
    there are fewer (none for a quota of zero or less); [last_topic_id] is the
    last of these, 0 when there is none; the topics opened are a beginning of
    the list, and the list is left before its end only when the quota is
    reached. *)
Theorem read_posts_from_list_quota :
  forall (visits : list (Py.json * bool)) (max_posts : Z),
    snd (snd (LinuxDo._read_posts_from_list visits max_posts))
    = Z.of_nat (List.length (firstn (Z.to_nat max_posts) (filter snd visits)))
    /\ fst (snd (LinuxDo._read_posts_from_list visits max_posts))
       = last (map fst (firstn (Z.to_nat max_posts) (filter snd visits))) (Py.JInt 0)
    /\ exists taken rest : list (Py.json * bool),
         visits = taken ++ rest
         /\ fst (LinuxDo._read_posts_from_list visits max_posts) = map fst taken
         /\ Z.of_nat (List.length (filter snd taken))
            = snd (snd (LinuxDo._read_posts_from_list visits max_posts))
         /\ (rest = []
             \/ max_posts <= snd (snd (LinuxDo._read_posts_from_list visits max_posts))).
Proof.
  intros visits max_posts. unfold LinuxDo._read_posts_from_list.
  destruct (LinuxDo.read_from visits max_posts (Py.JInt 0) 0)
    as [opened [last_topic_id read_count]] eqn:E.
  destruct (read_from_quota _ _ _ _ _ _ _ E)
    as [Hc [Hl [taken [rest [Hv [Ho [Hn Hr]]]]]]].
  rewrite Z.sub_0_r in Hc, Hl. cbn [fst snd].
  split; [lia|]. split; [exact Hl|].
  exists taken, rest. split; [exact Hv|]. split; [exact Ho|]. split; [lia|exact Hr].
Qed.

(** X27. The sequential mode only moves forward, and has no way out of a dead
    stretch. Whenever [_read_posts_sequential] ends, it has counted exactly
    [max_posts] topics (none for a quota of zero or less), every topic it
    opened has an id greater than the one before and than the id it started
    from (the greater of the base id and the cached id), and the id it returns
    and saves is the last one opened. When no topic above the start can be
    read and the quota is positive, it does not end, whatever the number of
    steps it is given: the loop has no limit on misses. *)
Theorem read_posts_sequential_forward :
  forall (site : Z -> LinuxDo.visit) (step jump : nat -> Z)
         (cached_topic_id base_topic_id max_posts : Z),
    (forall i : nat, 1 <= step i <= 5) ->
    (forall i : nat, 50 <= jump i <= 100) ->
    (forall (fuel : nat) (opened : list Z) (current_topic_id read_count : Z),
        LinuxDo._read_posts_sequential fuel site step jump cached_topic_id
          base_topic_id max_posts
        = Some (opened, (current_topic_id, read_count)) ->
        read_count = Z.max 0 max_posts
        /\ Sorted Z.lt (Z.max base_topic_id cached_topic_id :: opened)
        /\ current_topic_id = last opened (Z.max base_topic_id cached_topic_id)
        /\ Z.of_nat (List.length
                       (filter (fun t => match site t with
                                         | LinuxDo.Read | LinuxDo.ReadThenRaised => true
                                         | _ => false
                                         end) opened))
           = read_count)
    /\ ((forall t : Z, site t = LinuxDo.FoundThenRaised \/ site t = LinuxDo.Missing) ->
        0 < max_posts ->
        forall fuel : nat,
          LinuxDo._read_posts_sequential fuel site step jump cached_topic_id
            base_topic_id max_posts
          = None).
Proof.
  intros site step jump cached_topic_id base_topic_id max_posts Hstep Hjump. split.
  - intros fuel opened current_topic_id read_count H.
    unfold LinuxDo._read_posts_sequential in H.
    assert (Hj : forall i : nat, 1 <= jump i) by (intro i; specialize (Hjump i); lia).
    destruct (sequential_loop_ends site step jump
                (fun i => proj1 (Hstep i)) Hj
                _ _ _ _ _ _ _ _ _ H) as [Hs [Hc [Hr Hn]]].
    split; [exact Hr|]. split; [exact Hs|]. split; [exact Hc|]. lia.
  - intros Hsite Hpos fuel. unfold LinuxDo._read_posts_sequential.
    apply sequential_loop_stuck; assumption.
Qed.

(** Two topics to read from id 100 on a forum whose even topics can be read,
    with steps of 1; and a forum on which nothing can be read. *)
Lemma read_posts_sequential_forward_witness :
  LinuxDo._read_posts_sequential 9 Examples.even_site (fun _ => 1) (fun _ => 50)
    0 100 2
  = Some ([101; 102; 103; 104], (104, 2))
  /\ forall fuel : nat,
       LinuxDo._read_posts_sequential fuel Examples.empty_site (fun _ => 1)
         (fun _ => 50) 0 100 2
       = None.
Proof.
  split; [reflexivity|].
  apply (proj2 (read_posts_sequential_forward Examples.empty_site (fun _ => 1)
                  (fun _ => 50) 0 100 2
                  ltac:(intro; lia) ltac:(intro; lia))).
  - intro t. right. reflexivity.
  - lia.
Defined.
